(** * Royal Sanction Watch: the entity resolution engine of [sanction_checker.py]

    A shallow embedding of the matching and aggregation code of
    [SanctionChecker] and [OpenSanctionsAPI], and the properties of the
    specification settled against it.

    Conventions of the embedding.
    - A Python [str] is a [string] whose characters are the code points
      below 256; the character classes ([str.isspace], [str.isdigit],
      [str.lower], the [\w] and [\s] classes of [re]) are CPython's tables
      for that range.
    - A Python [float] is a rational of [Q].  The code only compares the
      quotient of two small naturals with the literals [0.7] and [0.9] and
      correctly rounded division is monotone, so the comparisons agree.
    - Values decoded from JSON or held in a data frame cell are [pyval];
      an [int] and a [float] are kept apart, as [str()] prints them
      differently.
    - Code that raises, calls the network, sleeps or reads the clock lives
      in the monad [M] over [World].
    - What lies outside the repository (the remote side behind the HTTP
      transport, the JSON, CSV, spreadsheet and XML decoders, [str()] on
      non-strings) is a field of [Environment], over which the engine is
      parametrised. *)

From Stdlib Require Import Ascii String DecimalString DecimalFacts DecimalNat QArith.
From stdpp Require Import gmap strings list.


(* ===================================================================== *)
(** ** Characters and strings *)
(* ===================================================================== *)

Module PyStr.

Definition code (c : ascii) : N := Ascii.N_of_ascii c.

Definition between (lo hi n : N) : bool := ((lo <=? n) && (n <=? hi))%N.

(** [str.isspace], which is also the class [\s] of [re] on [str]. *)
Definition isspace (c : ascii) : bool :=
  let n := code c in
  between 9 13 n || between 28 32 n || (n =? 133)%N || (n =? 160)%N.

(** [str.isdigit]: the decimal digits and the superscripts 1, 2, 3. *)
Definition isdigit (c : ascii) : bool :=
  let n := code c in
  between 48 57 n || (n =? 178)%N || (n =? 179)%N || (n =? 185)%N.

Definition isalpha (c : ascii) : bool :=
  let n := code c in
  between 65 90 n || between 97 122 n
  || (n =? 170)%N || (n =? 181)%N || (n =? 186)%N
  || between 192 214 n || between 216 246 n || between 248 255 n.

(** [str.isalnum]: letters, digits and the vulgar fractions. *)
Definition isalnum (c : ascii) : bool :=
  isalpha c || isdigit c || between 188 190 (code c).

(** The class [\w] of [re] on [str]: alphanumerics and the underscore. *)
Definition isword (c : ascii) : bool := isalnum c || (code c =? 95)%N.

Definition isupper (c : ascii) : bool :=
  let n := code c in
  between 65 90 n || (between 192 222 n && negb (n =? 215)%N).

Definition lower_char (c : ascii) : ascii :=
  if isupper c then Ascii.ascii_of_N (code c + 32) else c.

Fixpoint smap (f : ascii -> ascii) (s : string) : string :=
  match s with
  | EmptyString => EmptyString
  | String c t => String (f c) (smap f t)
  end.

Fixpoint sfilter (p : ascii -> bool) (s : string) : string :=
  match s with
  | EmptyString => EmptyString
  | String c t => if p c then String c (sfilter p t) else sfilter p t
  end.

Fixpoint sexists (p : ascii -> bool) (s : string) : bool :=
  match s with
  | EmptyString => false
  | String c t => p c || sexists p t
  end.

(** Truthiness of a string: [not s] is [is_empty s]. *)
Definition is_empty (s : string) : bool :=
  match s with EmptyString => true | _ => false end.

(** [s.lower()] *)
Definition lower (s : string) : string := smap lower_char s.

Fixpoint lstrip (s : string) : string :=
  match s with
  | EmptyString => EmptyString
  | String c t => if isspace c then lstrip t else s
  end.

Fixpoint rstrip (s : string) : string :=
  match s with
  | EmptyString => EmptyString
  | String c t =>
      let t' := rstrip t in
      if isspace c && is_empty t' then EmptyString else String c t'
  end.

(** [s.strip()] *)
Definition strip (s : string) : string := rstrip (lstrip s).

(** [needle in hay] *)
Fixpoint contains (hay needle : string) : bool :=
  String.prefix needle hay
  || match hay with
     | EmptyString => false
     | String _ t => contains t needle
     end.

Definition cons_word (w : string) (ws : list string) : list string :=
  if is_empty w then ws else w :: ws.

(** The word being read at the front of [s], and the words after it. *)
Fixpoint split_from (s : string) : string * list string :=
  match s with
  | EmptyString => (EmptyString, [])
  | String c t =>
      let '(w, ws) := split_from t in
      if isspace c then (EmptyString, cons_word w ws) else (String c w, ws)
  end.

(** [s.split()]: the maximal runs of non-whitespace characters. *)
Definition split (s : string) : list string :=
  let '(w, ws) := split_from s in cons_word w ws.

End PyStr.

(* ===================================================================== *)
(** ** Text normalisation, similarity, entity types *)
(* ===================================================================== *)

(** [re.sub(r'[^\w\s]', '', s)] *)
Definition remove_punctuation (s : string) : string :=
  PyStr.sfilter (fun c => PyStr.isword c || PyStr.isspace c) s.

Definition _normalize_text (text : string) : string :=
  if PyStr.is_empty text then ""
  else remove_punctuation (PyStr.strip (PyStr.lower text)).

Definition word_set (norm : string) : gset string :=
  list_to_set (PyStr.split norm).

Definition set_is_empty (s : gset string) : bool := bool_decide (s = ∅).

Definition _calculate_similarity (text1 text2 : string) : Q :=
  if PyStr.is_empty text1 || PyStr.is_empty text2 then 0%Q
  else
    let norm1 := _normalize_text text1 in
    let norm2 := _normalize_text text2 in
    if String.eqb norm1 norm2 then 1%Q
    else
      let words1 := word_set norm1 in
      let words2 := word_set norm2 in
      if set_is_empty words1 || set_is_empty words2 then 0%Q
      else
        let intersection := words1 ∩ words2 in
        let union := words1 ∪ words2 in
        (inject_Z (Z.of_nat (size intersection))
         / inject_Z (Z.of_nat (size union)))%Q.

Definition vessel_indicators : list string :=
  ["vessel"; "ship"; "boat"; "tanker"; "cargo"; "imo"; "mmsi"].

Definition company_indicators : list string :=
  ["ltd"; "inc"; "corp"; "company"; "co."; "llc"; "plc"].

(** [any(indicator in name_lower for indicator in indicators)] *)
Definition any_indicator (indicators : list string) (name_lower : string) : bool :=
  existsb (PyStr.contains name_lower) indicators.

Definition _detect_entity_type (entity_name : string) : string :=
  let name_lower := PyStr.lower entity_name in
  if any_indicator vessel_indicators name_lower then "vessel"
  else if any_indicator company_indicators name_lower then "company"
  else if (2 <=? length (PyStr.split entity_name))%nat
          && negb (PyStr.sexists PyStr.isdigit entity_name)
       then "person"
  else "vessel".

Definition _map_entity_type_to_schema (entity_type : string) : string :=
  if String.eqb entity_type "vessel" then "Vessel"
  else if String.eqb entity_type "person" then "Person"
  else if String.eqb entity_type "company" then "Company"
  else if String.eqb entity_type "organization" then "Organization"
  else "Thing".


(* ===================================================================== *)
(** ** Python values *)
(* ===================================================================== *)

(** What the JSON decoder returns and what a data frame cell holds.  A
    dict is the list of its items in insertion order; [Py.get] reads the
    first item of a key. *)
#[warnings="-register-all"] Inductive pyval : Type :=
| PNone
| PBool (b : bool)
| PInt (n : Z)
| PNum (q : Q)
| PNaN
| PStr (s : string)
| PList (l : list pyval)
| PDict (items : list (string * pyval)).

Module Py.

(** [bool(v)] *)
Definition truthy (v : pyval) : bool :=
  match v with
  | PNone => false
  | PBool b => b
  | PInt n => negb (n =? 0)%Z
  | PNum q => negb (Qeq_bool q 0)
  | PNaN => true
  | PStr s => negb (PyStr.is_empty s)
  | PList l => match l with [] => false | _ => true end
  | PDict items => match items with [] => false | _ => true end
  end.

(** [d.get(key, default)] on the items of a dict. *)
Fixpoint get (items : list (string * pyval)) (key : string) (default : pyval) : pyval :=
  match items with
  | [] => default
  | (k, v) :: rest => if String.eqb k key then v else get rest key default
  end.

(** The number a value stands for in a comparison with a float. *)
Definition as_number (v : pyval) : option Q :=
  match v with
  | PInt n => Some (inject_Z n)
  | PNum q => Some q
  | PBool b => Some (if b then 1%Q else 0%Q)
  | _ => None
  end.

(** Whether a value can be a member of a [set]. *)
Definition hashable (v : pyval) : bool :=
  match v with
  | PList _ | PDict _ => false
  | _ => true
  end.

(** [a == b] on hashable values; two NaNs decoded separately differ. *)
Definition eqb (a b : pyval) : bool :=
  match a, b with
  | PNone, PNone => true
  | PStr s, PStr t => String.eqb s t
  | PNaN, _ | _, PNaN => false
  | _, _ =>
      match as_number a, as_number b with
      | Some x, Some y => Qeq_bool x y
      | _, _ => false
      end
  end.

(** [pd.isna(v)] on a scalar cell. *)
Definition isna (v : pyval) : bool :=
  match v with
  | PNone | PNaN => true
  | _ => false
  end.

Fixpoint chars (s : string) : list pyval :=
  match s with
  | EmptyString => []
  | String c t => PStr (String c EmptyString) :: chars t
  end.

End Py.

(* ===================================================================== *)
(** ** Exceptions, the world and the monad *)
(* ===================================================================== *)

Inductive exn : Type :=
| ConnectionError            (* transport failure, timeout, retries exhausted *)
| HTTPError (status : Z)     (* raise_for_status *)
| JSONDecodeError            (* response.json() on a body that is not JSON *)
| AttributeError
| TypeError
| KeyError
| ParseError                 (* xml.etree *)
| ParserError.               (* pandas readers *)

(** [except requests.exceptions.RequestException] *)
Definition is_request_exception (e : exn) : bool :=
  match e with
  | ConnectionError | HTTPError _ | JSONDecodeError => true
  | _ => false
  end.

(** [except ET.ParseError] *)
Definition is_parse_error (e : exn) : bool :=
  match e with
  | ParseError => true
  | _ => false
  end.

Inductive Method : Type := GET | POST.

(** One call of [session.get] or [session.post]; the attempts the retry
    adapter makes below it are not told apart.  The headers, whose user
    agent is random, are left out. *)
Record Request : Type := mkRequest {
  req_method : Method;
  req_url : string;
  req_params : list (string * pyval);
  req_json : option pyval
}.

Inductive HttpOutcome : Type :=
| HttpResponse (status : Z) (body : string)
| TransportFailure.

Record DataFrame : Type := mkDataFrame {
  columns : list string;
  rows : list (list pyval)
}.

(** A file of the cache directory: its modification time and content. *)
Record CacheFile : Type := mkCacheFile {
  fetched_at : Z;
  payload : DataFrame
}.

Record World : Type := mkWorld {
  clock : Z;                               (* seconds *)
  net_log : list Request;                  (* requests issued, oldest first *)
  cache_files : gmap string CacheFile      (* the content of cache_dir *)
}.

Inductive Outcome (A : Type) : Type :=
| Ok (a : A)
| Raise (e : exn).
Arguments Ok {A} a.
Arguments Raise {A} e.

Definition M (A : Type) : Type := World -> Outcome A * World.

Definition ret {A} (a : A) : M A := fun w => (Ok a, w).

Definition raise {A} (e : exn) : M A := fun w => (Raise e, w).

Definition bind {A B} (m : M A) (k : A -> M B) : M B :=
  fun w =>
    match m w with
    | (Ok a, w') => k a w'
    | (Raise e, w') => (Raise e, w')
    end.

(** [try: m  except <class> as e: handler e] *)
Definition try_except {A} (m : M A) (catches : exn -> bool) (handler : exn -> M A) : M A :=
  fun w =>
    match m w with
    | (Ok a, w') => (Ok a, w')
    | (Raise e, w') => if catches e then handler e w' else (Raise e, w')
    end.

(** [except Exception] *)
Definition any_exception (e : exn) : bool := true.

Definition lift {A} (o : Outcome A) : M A := fun w => (o, w).

#[global] Instance M_ret : MRet M := @ret.
#[global] Instance M_bind : MBind M := fun A B k m => bind m k.

(** [datetime.now()] *)
Definition now : M Z := fun w => (Ok (clock w), w).

(** [time.sleep(seconds)] *)
Definition sleep (seconds : Z) : M unit :=
  fun w => (Ok tt, mkWorld (clock w + seconds) (net_log w) (cache_files w)).

(** The dataclass [SanctionMatch]. *)
Record SanctionMatch : Type := mkSanctionMatch {
  entity_name : string;
  entity_type : string;
  sanction_list : string;
  match_type : string;
  confidence : pyval;
  details : pyval;
  source_url : string;
  last_updated : Z
}.

(** An element of [xml.etree.ElementTree]: tag, text and children. *)
#[warnings="-register-all"] Inductive xml : Type :=
| Element (tag : string) (text : option string) (children : list xml).

(** What lies outside the repository: configuration, the network and the
    decoders of the libraries. *)
Record Environment : Type := mkEnvironment {
  base_url : string;                                 (* Config.OPENSANCTIONS_BASE_URL *)
  cache_duration : Z;                                (* seconds *)
  http : Request -> HttpOutcome;
    (* the remote side: what a request is answered with, after the
       retries of the adapter; the answer depends on the request alone *)
  json_loads : string -> option pyval;               (* response.json() *)
  read_csv : string -> option DataFrame;             (* pd.read_csv *)
  read_excel : string -> option DataFrame;           (* pd.read_excel *)
  str_contains_vessel : list pyval -> option (list bool);
    (* Series.str.contains('vessel', case=False, na=False); None when the
       column has no string accessor *)
  xml_fromstring : string -> option xml;            (* ET.fromstring *)
  py_repr : pyval -> string                          (* str(v) for v not a str *)
}.

(* ===================================================================== *)
(** ** The aggregator client [OpenSanctionsAPI] *)
(* ===================================================================== *)

Definition q07 : Q := 7 # 10.
Definition q09 : Q := 9 # 10.

(** The decimal numeral of [i], as [f"{i}"] prints it. *)
Definition string_of_nat (i : nat) : string :=
  DecimalString.NilZero.string_of_uint (Nat.to_uint i).

(** [f"entity_{i}"] *)
Definition entity_key (i : nat) : string := "entity_" +:+ string_of_nat i.

Section Engine.

Context (E : Environment).

(** One call through the session: the request is recorded, the remote
    side answers or the transport fails. *)
Definition session_request (r : Request) : M (Z * string) :=
  fun w =>
    let w' := mkWorld (clock w) (net_log w ++ [r]) (cache_files w) in
    match http E r with
    | HttpResponse status body => (Ok (status, body), w')
    | TransportFailure => (Raise ConnectionError, w')
    end.

Definition raise_for_status (response : Z * string) : M unit :=
  if (400 <=? response.1)%Z && (response.1 <? 600)%Z
  then raise (HTTPError response.1)
  else mret tt.

Definition response_json (response : Z * string) : M pyval :=
  match json_loads E response.2 with
  | Some v => mret v
  | None => raise JSONDecodeError
  end.

(** [str(v)], as an f-string interpolates it. *)
Definition py_str (v : pyval) : string :=
  match v with
  | PStr s => s
  | _ => py_repr E v
  end.

Definition empty_search_response : pyval :=
  PDict [("results", PList []); ("total", PDict [("value", PInt 0)])].

(** The handlers for [HTTPError] and for [RequestException] differ in what
    they log only; both return the empty response. *)
Definition search_entities (query dataset : string) (limit : Z)
    (schema : string) (topics : list string) : M pyval :=
  let url := base_url E +:+ "/search/" +:+ dataset in
  let params :=
    [("q", PStr query); ("limit", PInt (Z.min limit 500));
     ("schema", PStr schema)]
    ++ match topics with
       | [] => []
       | _ => [("topics", PList (PStr <$> topics))]
       end in
  try_except
    (response ← session_request (mkRequest GET url params None);
     raise_for_status response;;
     response_json response)
    is_request_exception
    (fun _ => mret empty_search_response).

Definition match_queries (entities : list pyval) : pyval :=
  PDict (imap (fun i entity => (entity_key i, entity)) entities).

Definition match_request (entities : list pyval) (dataset : string)
    (threshold : Q) (limit : Z) : Request :=
  mkRequest POST (base_url E +:+ "/match/" +:+ dataset) []
    (Some (PDict [("queries", match_queries entities);
                  ("threshold", PNum threshold);
                  ("limit", PInt limit)])).

Definition match_entities (entities : list pyval) (dataset : string)
    (threshold : Q) (limit : Z) : M pyval :=
  try_except
    (response ← session_request (match_request entities dataset threshold limit);
     raise_for_status response;;
     response_json response)
    is_request_exception
    (fun _ => mret (PDict [("responses", PDict [])])).

(* ===================================================================== *)
(** ** [SanctionChecker]: building match records *)
(* ===================================================================== *)

Definition _create_opensanctions_entity (entity_name entity_type : string) : pyval :=
  let schema := _map_entity_type_to_schema entity_type in
  PDict [("schema", PStr schema);
         ("properties", PDict [("name", PList [PStr entity_name])])].

(** [for x in v]: the elements of a list, the keys of a dict, the
    characters of a string. *)
Definition py_iter (v : pyval) : Outcome (list pyval) :=
  match v with
  | PList l => Ok l
  | PDict items => Ok ((fun kv => PStr kv.1) <$> items)
  | PStr s => Ok (Py.chars s)
  | _ => Raise TypeError
  end.

(** [v.get]: only a dict has the method. *)
Definition py_fields (v : pyval) : Outcome (list (string * pyval)) :=
  match v with
  | PDict items => Ok items
  | _ => Raise AttributeError
  end.

(** [self._calculate_similarity(entity_name, caption)] where the caption
    came out of a decoded response. *)
Definition similarity_to (entity_name : string) (caption : pyval) : Outcome Q :=
  match caption with
  | PStr s => Ok (_calculate_similarity entity_name s)
  | v =>
      if PyStr.is_empty entity_name || negb (Py.truthy v) then Ok 0%Q
      else Raise AttributeError
  end.

(** The thresholds of [_process_opensanctions_results]. *)
Definition search_match_type (confidence : Q) : string :=
  if Qle_bool q09 confidence then "exact"
  else if Qle_bool q07 confidence then "partial"
  else "fuzzy".

Definition entities_url : string := "https://www.opensanctions.org/entities/".

Definition search_match (entity_name entity_type : string) (t : Z)
    (result : pyval) : Outcome SanctionMatch :=
  match py_fields result with
  | Raise e => Raise e
  | Ok fields =>
      let entity_id := Py.get fields "id" (PStr "") in
      let caption := Py.get fields "caption" (PStr "") in
      let schema := Py.get fields "schema" (PStr "") in
      let datasets := Py.get fields "datasets" (PList []) in
      let properties := Py.get fields "properties" (PDict []) in
      match similarity_to entity_name caption with
      | Raise e => Raise e
      | Ok confidence =>
          Ok {| entity_name := entity_name;
                entity_type := entity_type;
                sanction_list := "OpenSanctions";
                match_type := search_match_type confidence;
                confidence := PNum confidence;
                details :=
                  PDict [("entity_id", entity_id); ("caption", caption);
                         ("schema", schema); ("datasets", datasets);
                         ("properties", properties);
                         ("target", Py.get fields "target" (PBool false));
                         ("first_seen", Py.get fields "first_seen" PNone);
                         ("last_seen", Py.get fields "last_seen" PNone)];
                source_url := entities_url +:+ py_str entity_id;
                last_updated := t |}
      end
  end.

(** A loop that appends one record per element and stops at the first
    exception. *)
Fixpoint collect {A B} (f : A -> Outcome B) (l : list A) : Outcome (list B) :=
  match l with
  | [] => Ok []
  | x :: rest =>
      match f x with
      | Raise e => Raise e
      | Ok y =>
          match collect f rest with
          | Raise e => Raise e
          | Ok ys => Ok (y :: ys)
          end
      end
  end.

Definition _process_opensanctions_results (results : pyval)
    (entity_name entity_type : string) : M (list SanctionMatch) :=
  t ← now;
  match py_iter results with
  | Raise e => raise e
  | Ok items => lift (collect (search_match entity_name entity_type t) items)
  end.

(** [match.details.get('entity_id', '')] *)
Definition entity_id_of (m : SanctionMatch) : Outcome pyval :=
  match py_fields (details m) with
  | Raise e => Raise e
  | Ok fields => Ok (Py.get fields "entity_id" (PStr ""))
  end.

(** [entity_id in seen_ids] *)
Definition seen (seen_ids : list pyval) (entity_id : pyval) : bool :=
  existsb (Py.eqb entity_id) seen_ids.

(** The loop of [check_single_entity] that removes duplicates; the set
    [seen_ids] refuses a key that cannot be hashed. *)
Fixpoint unique_matches (seen_ids : list pyval) (all_matches : list SanctionMatch)
    : Outcome (list SanctionMatch) :=
  match all_matches with
  | [] => Ok []
  | m :: rest =>
      match entity_id_of m with
      | Raise e => Raise e
      | Ok entity_id =>
          if negb (Py.hashable entity_id) then Raise TypeError
          else if seen seen_ids entity_id then unique_matches seen_ids rest
          else
            match unique_matches (entity_id :: seen_ids) rest with
            | Raise e => Raise e
            | Ok kept => Ok (m :: kept)
            end
      end
  end.

(* ===================================================================== *)
(** ** The legacy sources *)
(* ===================================================================== *)

Definition ofac_sdn_url : string := "https://www.treasury.gov/ofac/downloads/sdn.csv".
Definition uk_url : string := "https://www.gov.uk/government/publications/the-uk-sanctions-list".
Definition eu_url : string :=
  "https://www.dma.dk/Media/638834044135010725/2025118019-7%20Importversion%20-%20List%20of%20EU%20designated%20vessels%20(20-05-2025)%203010691_2_0.XLSX".
Definition un_url : string := "https://www.un.org/securitycouncil/content/un-sc-consolidated-list".

(** [self.sanction_sources[source].get('url', '')]; [None] is the
    [KeyError] of a source that is not configured. *)
Definition sanction_source_url (source : string) : option string :=
  if String.eqb source "OpenSanctions" then Some ""
  else if String.eqb source "OFAC" then Some ""
  else if String.eqb source "UK" then Some uk_url
  else if String.eqb source "EU" then Some eu_url
  else if String.eqb source "UN" then Some un_url
  else None.

(** [pd.DataFrame()] *)
Definition empty_frame : DataFrame := mkDataFrame [] [].

(** [df.empty] *)
Definition df_empty (df : DataFrame) : bool :=
  match columns df, rows df with
  | [], _ | _, [] => true
  | _, _ => false
  end.

(** [col in df.columns] *)
Definition has_column (df : DataFrame) (col : string) : bool :=
  existsb (String.eqb col) (columns df).

(** [row[col]]: the cell under the first column of that name. *)
Fixpoint cell (cols : list string) (row : list pyval) (col : string) : pyval :=
  match cols, row with
  | c :: cols', v :: row' => if String.eqb c col then v else cell cols' row' col
  | _, _ => PNaN
  end.

(** [row.to_dict()] *)
Fixpoint row_to_dict (cols : list string) (row : list pyval) : list (string * pyval) :=
  match cols, row with
  | c :: cols', v :: row' => (c, v) :: row_to_dict cols' row'
  | c :: cols', [] => (c, PNaN) :: row_to_dict cols' []
  | [], _ => []
  end.

Definition search_columns (entity_type : string) : list string :=
  if String.eqb entity_type "vessel" then ["vessel_name"; "name"; "title"; "vessel"]
  else if String.eqb entity_type "person" then ["name"; "title"; "individual"; "person"]
  else if String.eqb entity_type "company"
       then ["name"; "title"; "entity"; "company"; "organization"]
  else ["name"; "title"].

Definition available_columns (entity_type : string) (df : DataFrame) : list string :=
  match filter (fun col => Is_true (has_column df col)) (search_columns entity_type) with
  | [] => columns df
  | cols => cols
  end.

Definition legacy_match (entity_name entity_type source kind : string)
    (confidence : Q) (df : DataFrame) (row : list pyval) (t : Z)
    : Outcome SanctionMatch :=
  match sanction_source_url source with
  | None => Raise KeyError
  | Some url =>
      Ok {| entity_name := entity_name;
            entity_type := entity_type;
            sanction_list := source;
            match_type := kind;
            confidence := PNum confidence;
            details := PDict (row_to_dict (columns df) row);
            source_url := url;
            last_updated := t |}
  end.

(** The inner loop of [_search_entity] over the columns of one row: the
    first column that matches yields the record of the row. *)
Fixpoint scan_row (entity_name entity_type source : string) (df : DataFrame)
    (t : Z) (row : list pyval) (cols : list string)
    : Outcome (option SanctionMatch) :=
  match cols with
  | [] => Ok None
  | col :: cols' =>
      let v := cell (columns df) row col in
      if Py.isna v then scan_row entity_name entity_type source df t row cols'
      else
        let normalized_name := _normalize_text entity_name in
        let cell_value := py_str v in
        let normalized_cell := _normalize_text cell_value in
        if String.eqb normalized_name normalized_cell then
          match legacy_match entity_name entity_type source "exact" 1%Q df row t with
          | Raise e => Raise e
          | Ok m => Ok (Some m)
          end
        else if PyStr.contains normalized_cell normalized_name
                || PyStr.contains normalized_name normalized_cell then
          let similarity := _calculate_similarity entity_name cell_value in
          if negb (Qle_bool similarity q07) then
            match legacy_match entity_name entity_type source "partial" similarity df row t with
            | Raise e => Raise e
            | Ok m => Ok (Some m)
            end
          else scan_row entity_name entity_type source df t row cols'
        else scan_row entity_name entity_type source df t row cols'
  end.

Fixpoint scan_rows (entity_name entity_type source : string) (df : DataFrame)
    (t : Z) (cols : list string) (rs : list (list pyval))
    : Outcome (list SanctionMatch) :=
  match rs with
  | [] => Ok []
  | row :: rest =>
      match scan_row entity_name entity_type source df t row cols with
      | Raise e => Raise e
      | Ok found =>
          match scan_rows entity_name entity_type source df t cols rest with
          | Raise e => Raise e
          | Ok ms => Ok (match found with Some m => m :: ms | None => ms end)
          end
      end
  end.

Definition _search_entity (entity_name entity_type : string)
    (sanction_data : DataFrame) (source : string) : M (list SanctionMatch) :=
  t ← now;
  lift (scan_rows entity_name entity_type source sanction_data t
          (available_columns entity_type sanction_data) (rows sanction_data)).

(** [df[mask]] *)
Fixpoint select_rows (rs : list (list pyval)) (mask : list bool) : list (list pyval) :=
  match rs, mask with
  | r :: rs', b :: mask' => if b then r :: select_rows rs' mask' else select_rows rs' mask'
  | _, _ => []
  end.

Definition legacy_get (url : string) : M (Z * string) :=
  response ← session_request (mkRequest GET url [] None);
  raise_for_status response;;
  mret response.

Definition parsed {A} (o : option A) : M A :=
  match o with
  | Some a => mret a
  | None => raise ParserError
  end.

Definition _fetch_ofac_data : M DataFrame :=
  try_except
    (sdn_response ← legacy_get ofac_sdn_url;
     sdn_df ← parsed (read_csv E sdn_response.2);
     if has_column sdn_df "type" then
       match str_contains_vessel E
               ((fun row => cell (columns sdn_df) row "type") <$> rows sdn_df) with
       | None => raise AttributeError
       | Some mask => mret (mkDataFrame (columns sdn_df) (select_rows (rows sdn_df) mask))
       end
     else mret sdn_df)
    any_exception
    (fun _ => mret empty_frame).

Definition _fetch_uk_data : M DataFrame :=
  try_except
    (legacy_get uk_url;;
     mret (mkDataFrame ["name"; "type"; "country"; "reason"; "date_added"] []))
    any_exception
    (fun _ => mret empty_frame).

Definition _fetch_eu_data : M DataFrame :=
  try_except
    (response ← legacy_get eu_url;
     parsed (read_excel E response.2))
    any_exception
    (fun _ => mret empty_frame).

(** [root.findall('.//INDIVIDUAL')] ranges over the descendants of the
    root in document order. *)
Fixpoint descendants (x : xml) : list xml :=
  match x with
  | Element _ _ children =>
      (fix go (cs : list xml) : list xml :=
         match cs with
         | [] => []
         | c :: cs' => c :: descendants c ++ go cs'
         end) children
  end.

Definition tag_of (x : xml) : string := match x with Element tag _ _ => tag end.
Definition text_of (x : xml) : option string := match x with Element _ text _ => text end.
Definition children_of (x : xml) : list xml := match x with Element _ _ cs => cs end.

(** [entity.find(tag)]: the first child with that tag. *)
Definition find_child (x : xml) (tag : string) : option xml :=
  head (filter (fun c => Is_true (String.eqb (tag_of c) tag)) (children_of x)).

(** The rows collected from the individuals of the UN list. *)
Definition un_rows (root : xml) : list (list pyval) :=
  omap (fun entity =>
          match find_child entity "FIRST_NAME" with
          | Some name =>
              match text_of name with
              | Some text =>
                  if PyStr.is_empty text then None
                  else Some [PStr text; PStr "person"; PStr "UN"]
              | None => None
              end
          | None => None
          end)
       (filter (fun x => Is_true (String.eqb (tag_of x) "INDIVIDUAL")) (descendants root)).

(** [pd.DataFrame(data)] for the list of dicts built above. *)
Definition un_frame (data : list (list pyval)) : DataFrame :=
  match data with
  | [] => empty_frame
  | _ => mkDataFrame ["name"; "type"; "source"] data
  end.

Definition _fetch_un_data : M DataFrame :=
  try_except
    (response ← legacy_get un_url;
     try_except
       (match xml_fromstring E response.2 with
        | None => raise ParseError
        | Some root => mret (un_frame (un_rows root))
        end)
       is_parse_error
       (fun _ => mret empty_frame))
    any_exception
    (fun _ => mret empty_frame).

(* ===================================================================== *)
(** ** [check_single_entity] *)
(* ===================================================================== *)

(** One search of the aggregator and the records built from its hits. *)
Definition aggregator_search (entity_name entity_type dataset : string)
    (topics : list string) : M (list SanctionMatch) :=
  response ← search_entities entity_name dataset 10
               (_map_entity_type_to_schema entity_type) topics;
  fields ← lift (py_fields response);
  let results := Py.get fields "results" PNone in
  if Py.truthy results
  then _process_opensanctions_results results entity_name entity_type
  else mret [].

(** The first [try] block.  [all_matches] is extended after each search
    and replaced after the loop over [seen_ids]; the handler keeps what it
    held when the exception was raised. *)
Definition aggregator_block (entity_name entity_type : string) : M (list SanctionMatch) :=
  try_except
    (sanctions ← aggregator_search entity_name entity_type "sanctions" ["sanction"];
     try_except
       (broader ← aggregator_search entity_name entity_type "default" [];
        let all_matches := sanctions ++ broader in
        try_except (lift (unique_matches [] all_matches))
          any_exception (fun _ => mret all_matches))
       any_exception (fun _ => mret sanctions))
    any_exception (fun _ => mret []).

Definition legacy_sources : list string := ["OFAC"; "UK"; "EU"; "UN"].

Definition fetch_source (source : string) : option (M DataFrame) :=
  if String.eqb source "OFAC" then Some _fetch_ofac_data
  else if String.eqb source "UK" then Some _fetch_uk_data
  else if String.eqb source "EU" then Some _fetch_eu_data
  else if String.eqb source "UN" then Some _fetch_un_data
  else None.

(** The body of the loop over the legacy sources. *)
Definition check_source (entity_name entity_type : string)
    (all_matches : list SanctionMatch) (source : string) : M (list SanctionMatch) :=
  match fetch_source source with
  | None => mret all_matches
  | Some fetch =>
      try_except
        (sanction_data ← fetch;
         matches ← (if negb (df_empty sanction_data)
                    then _search_entity entity_name entity_type sanction_data source
                    else mret []);
         sleep 1;;
         mret (all_matches ++ matches))
        any_exception
        (fun _ => mret all_matches)
  end.

Fixpoint check_sources (entity_name entity_type : string) (sources : list string)
    (all_matches : list SanctionMatch) : M (list SanctionMatch) :=
  match sources with
  | [] => mret all_matches
  | source :: rest =>
      all_matches' ← check_source entity_name entity_type all_matches source;
      check_sources entity_name entity_type rest all_matches'
  end.

Definition resolve_type (entity_name entity_type : string) : string :=
  if String.eqb entity_type "auto" then _detect_entity_type entity_name
  else entity_type.

Definition check_single_entity (entity_name entity_type : string) : M (list SanctionMatch) :=
  let entity_type := resolve_type entity_name entity_type in
  all_matches ← aggregator_block entity_name entity_type;
  check_sources entity_name entity_type legacy_sources all_matches.

(* ===================================================================== *)
(** ** [check_bulk_entities] *)
(* ===================================================================== *)

(** An element of the input list: a dict with the key ['name'] and the
    optional key ['type']; [None] is an absent key. *)
Record EntityQuery : Type := mkEntityQuery {
  q_name : option string;
  q_type : option string
}.

(** [entity.get('name', '')] and [entity.get('type', 'auto')] *)
Definition name_of (entity : EntityQuery) : string := default "" (q_name entity).
Definition type_of (entity : EntityQuery) : string := default "auto" (q_type entity).

(** The first loop, from position [i] of the input: the entities for the
    matching API and the mapping from query id to name and type. *)
Fixpoint prepare (i : nat) (entities : list EntityQuery)
    (opensanctions_entities : list pyval)
    (entity_mapping : gmap string (string * string))
    : list pyval * gmap string (string * string) :=
  match entities with
  | [] => (opensanctions_entities, entity_mapping)
  | entity :: rest =>
      let entity_name := name_of entity in
      if PyStr.is_empty entity_name
      then prepare (S i) rest opensanctions_entities entity_mapping
      else
        let entity_type := resolve_type entity_name (type_of entity) in
        prepare (S i) rest
          (opensanctions_entities
           ++ [_create_opensanctions_entity entity_name entity_type])
          (<[entity_key i := (entity_name, entity_type)]> entity_mapping)
  end.

(** ['fuzzy' if result.get('score', 0) < 0.9 else 'exact'] *)
Definition bulk_match_type (score : pyval) : Outcome string :=
  match score with
  | PNaN => Ok "exact"
  | _ =>
      match Py.as_number score with
      | Some q => Ok (if negb (Qle_bool q09 q) then "fuzzy" else "exact")
      | None => Raise TypeError
      end
  end.

Definition bulk_match (entity_name entity_type : string) (t : Z)
    (result : pyval) : Outcome SanctionMatch :=
  match py_fields result with
  | Raise e => Raise e
  | Ok fields =>
      let score := Py.get fields "score" (PInt 0) in
      match bulk_match_type score with
      | Raise e => Raise e
      | Ok kind =>
          Ok {| entity_name := entity_name;
                entity_type := entity_type;
                sanction_list := "OpenSanctions";
                match_type := kind;
                confidence := score;
                details := result;
                source_url := entities_url +:+ py_str (Py.get fields "id" (PStr ""));
                last_updated := t |}
      end
  end.

(** The records of one response of the matching API. *)
Definition bulk_matches (entity_name entity_type : string) (t : Z)
    (response : pyval) : Outcome (list SanctionMatch) :=
  match py_fields response with
  | Raise e => Raise e
  | Ok fields =>
      match py_iter (Py.get fields "results" (PList [])) with
      | Raise e => Raise e
      | Ok items => collect (bulk_match entity_name entity_type t) items
      end
  end.

(** The loop over [responses.items()].  The dict [results] is updated in
    place, so an exception leaves it as far as the loop came. *)
Fixpoint process_responses (entity_mapping : gmap string (string * string)) (t : Z)
    (responses : list (string * pyval)) (results : gmap string (list SanctionMatch))
    : option exn * gmap string (list SanctionMatch) :=
  match responses with
  | [] => (None, results)
  | (query_id, response) :: rest =>
      match entity_mapping !! query_id with
      | None => process_responses entity_mapping t rest results
      | Some (entity_name, entity_type) =>
          match bulk_matches entity_name entity_type t response with
          | Raise e => (Some e, results)
          | Ok matches =>
              process_responses entity_mapping t rest (<[entity_name := matches]> results)
          end
      end
  end.

(** What the [try] block does with the decoded response. *)
Definition process_match_response (entity_mapping : gmap string (string * string))
    (t : Z) (match_response : pyval)
    : option exn * gmap string (list SanctionMatch) :=
  match py_fields match_response with
  | Raise e => (Some e, ∅)
  | Ok fields =>
      match py_fields (Py.get fields "responses" (PDict [])) with
      | Raise e => (Some e, ∅)
      | Ok responses => process_responses entity_mapping t responses ∅
      end
  end.

(** The loop of the [except] block. *)
Fixpoint individual_checks (entities : list EntityQuery)
    (results : gmap string (list SanctionMatch))
    : M (gmap string (list SanctionMatch)) :=
  match entities with
  | [] => mret results
  | entity :: rest =>
      let entity_name := name_of entity in
      if PyStr.is_empty entity_name then individual_checks rest results
      else
        matches ← check_single_entity entity_name (type_of entity);
        individual_checks rest (<[entity_name := matches]> results)
  end.

Definition check_bulk_entities (entities : list EntityQuery)
    : M (gmap string (list SanctionMatch)) :=
  let '(opensanctions_entities, entity_mapping) := prepare 0 entities [] ∅ in
  fun w =>
    match match_entities opensanctions_entities "sanctions" q07 5 w with
    | (Raise _, w') => individual_checks entities ∅ w'
    | (Ok match_response, w') =>
        match process_match_response entity_mapping (clock w') match_response with
        | (None, results) => (Ok results, w')
        | (Some _, results) => individual_checks entities results w'
        end
    end.

End Engine.

(* ===================================================================== *)
(** ** Notions the statements use *)
(* ===================================================================== *)

Definition is_substring (needle hay : string) : Prop :=
  exists pre post, hay = pre +:+ needle +:+ post.

(** The lower-cased name holds one of the keywords as a substring. *)
Definition has_keyword (keywords : list string) (name : string) : Prop :=
  exists k, k ∈ keywords /\ is_substring k (PyStr.lower name).

Definition has_digit (name : string) : Prop :=
  exists c, In c (list_ascii_of_string name) /\ PyStr.isdigit c = true.

Fixpoint sforall (p : ascii -> bool) (s : string) : bool :=
  match s with
  | EmptyString => true
  | String c t => p c && sforall p t
  end.

(** The whitespace-separated tokens of the normalised form. *)
Definition tokens (s : string) : gset string := word_set (_normalize_text s).

(** The world after the requests [rs] and [dt] seconds of sleep. *)
Definition later (w : World) (dt : Z) (rs : list Request) : World :=
  mkWorld (clock w + dt) (net_log w ++ rs) (cache_files w).

(** [m] never raises. *)
Definition safe {A} (m : M A) : Prop :=
  forall w, exists a w', m w = (Ok a, w').

(** Every request [m] issues satisfies [P]; [m] leaves the cache alone. *)
Definition logs {A} (P : Request -> Prop) (m : M A) : Prop :=
  forall w o w', m w = (o, w') ->
    exists dt rs, w' = later w dt rs /\ Forall P rs.

Definition legacy_request (url : string) : Request := mkRequest GET url [] None.

(** The world after one more request and nothing else. *)
Definition requested (w : World) (r : Request) : World :=
  mkWorld (clock w) (net_log w ++ [r]) (cache_files w).

(** Where a legacy source is fetched from. *)
Definition source_endpoint (source : string) : string :=
  if String.eqb source "OFAC" then ofac_sdn_url
  else if String.eqb source "UK" then uk_url
  else if String.eqb source "EU" then eu_url
  else un_url.

(** The key the loop over [seen_ids] compares: the ['entity_id'] entry of
    the details. *)
Definition key_of (m : SanctionMatch) : pyval :=
  match entity_id_of m with
  | Ok entity_id => entity_id
  | Raise _ => PStr ""
  end.

(** The dedup key as the specification words it: the native identifier of
    the record when it has one, the normalised caption or name otherwise. *)
Inductive dedup_key : Type :=
| NativeId (id : pyval)
| NormalizedName (name : string).

Definition spec_dedup_key (m : SanctionMatch) : dedup_key :=
  let fields := match details m with PDict fields => fields | _ => [] end in
  let id := Py.get fields "entity_id" (Py.get fields "id" PNone) in
  if Py.truthy id then NativeId id
  else
    match Py.get fields "caption" (Py.get fields "name" PNone) with
    | PStr s => NormalizedName (_normalize_text s)
    | _ => NormalizedName ""
    end.

(** The request of the bulk check: the entities prepared from the input,
    against the sanctions dataset. *)
Definition bulk_request (E : Environment) (entities : list EntityQuery) : Request :=
  match_request E (prepare 0 entities [] ∅).1 "sanctions" q07 5.

(** The entries of the input that carry a name. *)
Definition named (entities : list EntityQuery) : list EntityQuery :=
  filter (fun entity => name_of entity <> "") entities.

(** The entity sent to the matching API for an entry. *)
Definition query_of (entity : EntityQuery) : pyval :=
  _create_opensanctions_entity (name_of entity)
    (resolve_type (name_of entity) (type_of entity)).

(** A request that does not search for the empty name. *)
Definition searches_named (r : Request) : Prop :=
  Py.get (req_params r) "q" PNone <> PStr "".

Section Sources.

Context (E : Environment).

(** The body a URL delivers; nothing when the transport fails or the
    status is an error. *)
Definition delivered (url : string) : option string :=
  match http E (legacy_request url) with
  | HttpResponse status body =>
      if (400 <=? status)%Z && (status <? 600)%Z then None else Some body
  | TransportFailure => None
  end.

(** The dataset a legacy source yields when its fetch and its parse
    succeed; [None] when the source fails. *)
Definition source_dataset (source : string) : option DataFrame :=
  if String.eqb source "OFAC" then
    body ← delivered ofac_sdn_url;
    sdn_df ← read_csv E body;
    if has_column sdn_df "type" then
      mask ← str_contains_vessel E
               ((fun row => cell (columns sdn_df) row "type") <$> rows sdn_df);
      Some (mkDataFrame (columns sdn_df) (select_rows (rows sdn_df) mask))
    else Some sdn_df
  else if String.eqb source "UK" then
    _ ← delivered uk_url;
    Some (mkDataFrame ["name"; "type"; "country"; "reason"; "date_added"] [])
  else if String.eqb source "EU" then
    body ← delivered eu_url;
    read_excel E body
  else if String.eqb source "UN" then
    body ← delivered un_url;
    root ← xml_fromstring E body;
    Some (un_frame (un_rows root))
  else None.

(** The records a legacy source contributes when it is searched at time
    [t]: those of its dataset when the source delivered one and the scan
    went through, none otherwise. *)
Definition source_matches (entity_name entity_type : string) (t : Z)
    (source : string) : list SanctionMatch :=
  match source_dataset source with
  | None => []
  | Some df =>
      if df_empty df then []
      else
        match scan_rows E entity_name entity_type source df t
                (available_columns entity_type df) (rows df) with
        | Ok found => found
        | Raise _ => []
        end
  end.

End Sources.

(* ===================================================================== *)
(** ** Scripted environments *)
(* ===================================================================== *)

(** A remote side given by tables: the answer per URL, the decoded value
    or frame per body.  A URL without an entry is unreachable. *)
Module Script.

Fixpoint assoc {A} (table : list (string * A)) (key : string) : option A :=
  match table with
  | [] => None
  | (k, v) :: rest => if String.eqb k key then Some v else assoc rest key
  end.

Definition mentions_vessel (v : pyval) : bool :=
  match v with
  | PStr s => PyStr.contains (PyStr.lower s) "vessel"
  | _ => false
  end.

Definition day : Z := 86400.

Definition env (answers : list (string * HttpOutcome))
    (decoded : list (string * pyval)) (frames : list (string * DataFrame))
    : Environment :=
  {| base_url := "https://api.opensanctions.org";
     cache_duration := 24 * 3600;
     http := fun r => default TransportFailure (assoc answers (req_url r));
     json_loads := assoc decoded;
     read_csv := assoc frames;
     read_excel := assoc frames;
     str_contains_vessel := fun cells => Some (mentions_vessel <$> cells);
     xml_fromstring := fun _ => None;
     py_repr := fun _ => "" |}.

Definition start : World := mkWorld 0 [] ∅.

End Script.

(** A remote side whose OFAC list holds one vessel. *)
Definition ofac_answer : Environment :=
  Script.env [(ofac_sdn_url, HttpResponse 200 "sdn.csv")] []
    [("sdn.csv", mkDataFrame ["name"] [[PStr "OCEAN STAR"]])].

(** A cache directory holding a copy of the OFAC list written at time 0,
    seen one second before the copy is a day old. *)
Definition cached_frame : DataFrame := mkDataFrame ["name"] [[PStr "EVER GIVEN"]].

Definition warm_world : World :=
  mkWorld (Script.day - 1) [] {[ "ofac_cache.csv" := mkCacheFile 0 cached_frame ]}.

(** A remote side whose sanctions search finds one vessel and whose
    broader search answers with a JSON list, on which [.get] raises. *)
Definition broader_search_broken : Environment :=
  Script.env
    [("https://api.opensanctions.org/search/sanctions", HttpResponse 200 "hits");
     ("https://api.opensanctions.org/search/default", HttpResponse 200 "list")]
    [("hits", PDict [("results",
                      PList [PDict [("id", PStr "NK-1");
                                    ("caption", PStr "Ever Given")]])]);
     ("list", PList [])]
    [].

(** The aggregator and three of the four legacy sources are unreachable;
    the OFAC list arrives with two rows. *)
Definition only_ofac_up : Environment :=
  Script.env [(ofac_sdn_url, HttpResponse 200 "sdn.csv")] []
    [("sdn.csv", mkDataFrame ["name"] [[PStr "EVER GIVEN"]; [PStr "Ever Given!"]])].

(** A remote side whose two searches overlap on one hit; the broader
    search also returns two hits that carry no id. *)
Definition overlapping_searches : Environment :=
  Script.env
    [("https://api.opensanctions.org/search/sanctions", HttpResponse 200 "narrow");
     ("https://api.opensanctions.org/search/default", HttpResponse 200 "broad")]
    [("narrow", PDict [("results",
        PList [PDict [("id", PStr "NK-1"); ("caption", PStr "Ever Given")];
               PDict [("id", PStr "NK-2"); ("caption", PStr "Ever Given II")]])]);
     ("broad", PDict [("results",
        PList [PDict [("id", PStr "NK-1"); ("caption", PStr "Ever Given")];
               PDict [("caption", PStr "Ever Giving")];
               PDict [("caption", PStr "Never Given")]])])]
    [].

(** A remote side whose OFAC list names the same vessel in two rows. *)
Definition ofac_twice : Environment :=
  Script.env [(ofac_sdn_url, HttpResponse 200 "sdn.csv")] []
    [("sdn.csv", mkDataFrame ["name"] [[PStr "EVER GIVEN"]; [PStr "EVER GIVEN"]])].

(** A remote side that cannot be reached at all. *)
Definition outage : Environment := Script.env [] [] [].

Definition two_named : list EntityQuery :=
  [mkEntityQuery (Some "ACME CORP LTD") (Some "company");
   mkEntityQuery (Some "John Smith") None].

(** A matching API that scores the one query with 0.75. *)
Definition scored_075 : Environment :=
  Script.env
    [("https://api.opensanctions.org/match/sanctions", HttpResponse 200 "scores")]
    [("scores", PDict [("responses", PDict [("entity_0",
        PDict [("results", PList [PDict [("id", PStr "NK-1");
                                         ("caption", PStr "Ever Given");
                                         ("score", PNum (3 # 4))]])])])])]
    [].

(** A batch whose first entry has no name, and a matching API that
    answers both queries it receives. *)
Definition shifted_batch : list EntityQuery :=
  [mkEntityQuery (Some "") None;
   mkEntityQuery (Some "ALPHA") (Some "vessel");
   mkEntityQuery (Some "BRAVO") (Some "vessel")].

Definition hit_alpha : pyval :=
  PDict [("id", PStr "NK-A"); ("caption", PStr "Alpha"); ("score", PNum (19 # 20))].
Definition hit_bravo : pyval :=
  PDict [("id", PStr "NK-B"); ("caption", PStr "Bravo"); ("score", PNum (19 # 20))].

Definition answers_both : Environment :=
  Script.env
    [("https://api.opensanctions.org/match/sanctions", HttpResponse 200 "both")]
    [("both", PDict [("responses", PDict
        [("entity_0", PDict [("results", PList [hit_alpha])]);
         ("entity_1", PDict [("results", PList [hit_bravo])])])])]
    [].

Definition batch_with_gap : list EntityQuery :=
  [mkEntityQuery (Some "EVER GIVEN") (Some "vessel");
   mkEntityQuery None (Some "vessel")].

(** A batch whose second entry has no name. *)
Definition entry_alpha : EntityQuery := mkEntityQuery (Some "ALPHA") (Some "vessel").
Definition entry_bravo : EntityQuery := mkEntityQuery (Some "BRAVO") (Some "vessel").

Definition gap_inside : list EntityQuery :=
  [entry_alpha; mkEntityQuery None (Some "vessel"); entry_bravo].

(** A string that does not begin with whitespace. *)
Definition starts_clean (s : string) : bool :=
  match s with
  | EmptyString => true
  | String c _ => negb (PyStr.isspace c)
  end.

(** Text made of word characters and whitespace only: what
    [remove_punctuation] leaves alone. *)
Definition punctuation_free (s : string) : bool :=
  sforall (fun c => PyStr.isword c || PyStr.isspace c) s.

(* ===================================================================== *)
(** ** The other calls of [OpenSanctionsAPI] *)
(* ===================================================================== *)

Section Client.

Context (E : Environment).

Definition entity_details_request (entity_id : string) : Request :=
  mkRequest GET (base_url E +:+ "/entities/" +:+ entity_id) [] None.

(** [get_entity_details]; the [None] of the failure is [PNone]. *)
Definition get_entity_details (entity_id : string) : M pyval :=
  try_except
    (response ← session_request E (entity_details_request entity_id);
     raise_for_status response;;
     response_json E response)
    is_request_exception
    (fun _ => mret PNone).

Definition catalog_request : Request :=
  mkRequest GET (base_url E +:+ "/catalog") [] None.

Definition get_catalog : M pyval :=
  try_except
    (response ← session_request E catalog_request;
     raise_for_status response;;
     response_json E response)
    is_request_exception
    (fun _ => mret (PDict [("datasets", PList [])])).

(** The request [search_entities] sends. *)
Definition search_request (query dataset : string) (limit : Z) (schema : string)
    (topics : list string) : Request :=
  mkRequest GET (base_url E +:+ "/search/" +:+ dataset)
    ([("q", PStr query); ("limit", PInt (Z.min limit 500));
      ("schema", PStr schema)]
     ++ match topics with
        | [] => []
        | _ => [("topics", PList (PStr <$> topics))]
        end)
    None.

(** What a call of the client comes back with: the decoded body of a
    good answer, the fallback of the call in every other case. *)
Definition answer_or (r : Request) (fallback : pyval) : pyval :=
  match http E r with
  | HttpResponse status body =>
      if (400 <=? status)%Z && (status <? 600)%Z then fallback
      else default fallback (json_loads E body)
  | TransportFailure => fallback
  end.

End Client.

(** The queries a request to the matching API carries. *)
Definition queries_of (r : Request) : list (string * pyval) :=
  match req_json r with
  | Some (PDict fields) =>
      match Py.get fields "queries" PNone with
      | PDict queries => queries
      | _ => []
      end
  | _ => []
  end.

(** What [entity_mapping] records for an entry: its name and the type the
    call goes on with. *)
Definition mapped (entity : EntityQuery) : string * string :=
  (name_of entity, resolve_type (name_of entity) (type_of entity)).

(** The match type a confidence has by the thresholds 0.9 and 0.7. *)
Definition typed_by_thresholds (q : Q) (kind : string) : Prop :=
  ((q09 <= q)%Q /\ kind = "exact")
  \/ ((q07 <= q)%Q /\ (q < q09)%Q /\ kind = "partial")
  \/ ((q < q07)%Q /\ kind = "fuzzy").

(** A record built from a search hit for a query. *)
Definition search_record (E : Environment) (name ty : string) (t : Z)
    (hit : pyval) (m : SanctionMatch) : Prop :=
  exists fields q,
    hit = PDict fields
    /\ entity_name m = name /\ entity_type m = ty
    /\ sanction_list m = "OpenSanctions"
    /\ confidence m = PNum q /\ (0 <= q <= 1)%Q
    /\ typed_by_thresholds q (match_type m)
    /\ key_of m = Py.get fields "id" (PStr "")
    /\ source_url m = entities_url +:+ py_str E (Py.get fields "id" (PStr ""))
    /\ last_updated m = t.

(** A record built from a row of a legacy dataset. *)
Definition legacy_record (name ty source : string) (t : Z) (df : DataFrame)
    (m : SanctionMatch) : Prop :=
  entity_name m = name /\ entity_type m = ty /\ sanction_list m = source
  /\ last_updated m = t
  /\ (exists row, row ∈ rows df /\ details m = PDict (row_to_dict (columns df) row))
  /\ ((match_type m = "exact" /\ confidence m = PNum 1)
      \/ (match_type m = "partial"
          /\ exists q, confidence m = PNum q /\ (q07 < q)%Q /\ (q <= 1)%Q)).

(** A request that gets no answer: the transport fails or the status is
    an error (401 for a bad key, 429, 5xx, ...). *)
Definition request_fails (E : Environment) (r : Request) : Prop :=
  match http E r with
  | TransportFailure => True
  | HttpResponse status _ => (400 <= status < 600)%Z
  end.

(** The two searches of [check_single_entity]. *)
Definition sanctions_search (E : Environment) (name ty : string) : Request :=
  search_request E name "sanctions" 10 (_map_entity_type_to_schema ty) ["sanction"].

Definition broader_search (E : Environment) (name ty : string) : Request :=
  search_request E name "default" 10 (_map_entity_type_to_schema ty) [].

(** The requests for the legacy sources, in the order of the loop. *)
Definition legacy_requests : list Request :=
  (fun source => legacy_request (source_endpoint source)) <$> legacy_sources.

(** A record for the queried name and type from the given list. *)
Definition filed (name ty list_name : string) (m : SanctionMatch) : Prop :=
  entity_name m = name /\ entity_type m = ty /\ sanction_list m = list_name.

(* ===================================================================== *)
(** ** The loop of [handle_bulk_check] in [cli_app.py] *)
(* ===================================================================== *)

(** An entity as the command line builds it from a row of the input
    file: a name, always present, and a type when a type column was
    given. *)
Definition CliEntity : Type := string * option string.

(** The loop that fills [results]: one [check_single_entity] per entity,
    under the name of the entity. *)
Fixpoint cli_bulk_loop (E : Environment) (entities : list CliEntity)
    (results : gmap string (list SanctionMatch))
    : M (gmap string (list SanctionMatch)) :=
  match entities with
  | [] => mret results
  | (name, ty) :: rest =>
      matches ← check_single_entity E name (default "auto" ty);
      cli_bulk_loop E rest (<[name := matches]> results)
  end.

(** Every list of the mapping holds records of its own key only. *)
Definition filed_by_name (results : gmap string (list SanctionMatch)) : Prop :=
  forall k ms, results !! k = Some ms -> Forall (fun m => entity_name m = k) ms.

(** A matching API whose answer is a JSON list, on which [.get] raises. *)
Definition match_answer_malformed : Environment :=
  Script.env
    [("https://api.opensanctions.org/match/sanctions", HttpResponse 200 "list")]
    [("list", PList [])] [].

(* ===================================================================== *)
(** ** [generate_report] *)
(* ===================================================================== *)

(** A row of [report_data]; the fields are the columns of the report. *)
Record ReportRow : Type := mkReportRow {
  row_entity_name : string;
  row_entity_type : string;
  row_sanction_list : string;
  row_match_type : string;
  row_confidence : pyval;
  row_details : string;
  row_source_url : string;
  row_check_date : string
}.

(** [json.dumps] and [datetime.strftime], which print the details and the
    dates of a report.  [json.dumps] raises [TypeError] on a value it
    cannot serialise, such as the details of a legacy record whose row
    holds a pandas [Timestamp] or a numpy scalar; [None] stands for that. *)
Record Printer : Type := mkPrinter {
  json_dumps : pyval -> option string;
  strftime : string -> Z -> string
}.

Definition match_row (P : Printer) (name : string) (m : SanctionMatch)
    : Outcome ReportRow :=
  match json_dumps P (details m) with
  | None => Raise TypeError
  | Some text =>
      Ok {| row_entity_name := name;
            row_entity_type := entity_type m;
            row_sanction_list := sanction_list m;
            row_match_type := match_type m;
            row_confidence := confidence m;
            row_details := text;
            row_source_url := source_url m;
            row_check_date := strftime P "%Y-%m-%d %H:%M:%S" (last_updated m) |}
  end.

Definition no_match_row (P : Printer) (name : string) (t : Z) : ReportRow :=
  {| row_entity_name := name;
     row_entity_type := "unknown";
     row_sanction_list := "None";
     row_match_type := "None";
     row_confidence := PNum 0;
     row_details := "No matches found";
     row_source_url := "";
     row_check_date := strftime P "%Y-%m-%d %H:%M:%S" t |}.

(** The rows of one entity: one per record, or the single row of an
    entity without a record. *)
Definition entity_rows (P : Printer) (t : Z) (name : string)
    (matches : list SanctionMatch) : Outcome (list ReportRow) :=
  match matches with
  | [] => Ok [no_match_row P name t]
  | _ => collect (match_row P name) matches
  end.

(** The loop over [results.items()]: the dict is the list of its items.
    The loop stops at the first record whose details cannot be printed. *)
Fixpoint report_data (P : Printer) (t : Z)
    (results : list (string * list SanctionMatch)) : Outcome (list ReportRow) :=
  match results with
  | [] => Ok []
  | (name, matches) :: rest =>
      match entity_rows P t name matches with
      | Raise e => Raise e
      | Ok rows =>
          match report_data P t rest with
          | Raise e => Raise e
          | Ok more => Ok (rows ++ more)
          end
      end
  end.

(** What [generate_report] ends with: the name of the file it wrote, the
    [ValueError] of an unknown format, or the exception raised while the
    rows were built. *)
Inductive ReportOutcome : Type :=
| ReportWritten (filename : string)
| ReportValueError (message : string)
| ReportRaised (e : exn).

(** [generate_report] at time [t].  The rows are built before the format
    is looked at.  The files written hold, under each name, the writer
    used ([to_excel], [to_csv], [to_json], named by the format) and the
    rows; the writers of pandas are taken to succeed.  The calls of
    [datetime.now()] within one report are not told apart. *)
Definition generate_report (P : Printer) (t : Z)
    (results : list (string * list SanctionMatch)) (output_format : string)
    (files : gmap string (string * list ReportRow))
    : ReportOutcome * gmap string (string * list ReportRow) :=
  let timestamp := strftime P "%Y%m%d_%H%M%S" t in
  match report_data P t results with
  | Raise e => (ReportRaised e, files)
  | Ok df =>
      if String.eqb output_format "excel" then
        let filename := "royal_sanction_watch_report_" +:+ timestamp +:+ ".xlsx" in
        (ReportWritten filename, <[filename := ("excel", df)]> files)
      else if String.eqb output_format "csv" then
        let filename := "royal_sanction_watch_report_" +:+ timestamp +:+ ".csv" in
        (ReportWritten filename, <[filename := ("csv", df)]> files)
      else if String.eqb output_format "json" then
        let filename := "royal_sanction_watch_report_" +:+ timestamp +:+ ".json" in
        (ReportWritten filename, <[filename := ("json", df)]> files)
      else (ReportValueError ("Unsupported output format: " +:+ output_format), files)
  end.

(** A record of the results whose details [json.dumps] refuses. *)
Definition unprintable (P : Printer)
    (results : list (string * list SanctionMatch)) : Prop :=
  exists name matches m,
    (name, matches) ∈ results /\ m ∈ matches /\ json_dumps P (details m) = None.

(* ===================================================================== *)
(** ** [display_bulk_summary] and the cache commands of [cli_app.py] *)
(* ===================================================================== *)

(** [sanction_counts[l] = sanction_counts.get(l, 0) + 1] for each record. *)
Fixpoint count_lists (ms : list SanctionMatch) (sanction_counts : gmap string nat)
    : gmap string nat :=
  match ms with
  | [] => sanction_counts
  | m :: rest =>
      count_lists rest
        (<[sanction_list m := (default 0 (sanction_counts !! sanction_list m) + 1)%nat]>
           sanction_counts)
  end.

(** The numbers [display_bulk_summary] prints. *)
Record BulkSummary : Type := mkBulkSummary {
  total_entities : nat;
  entities_with_matches : nat;
  total_matches : nat;
  sanction_counts : gmap string nat
}.

Definition has_matches (item : string * list SanctionMatch) : bool :=
  match item.2 with [] => false | _ => true end.

Definition display_bulk_summary (results : list (string * list SanctionMatch))
    : BulkSummary :=
  let total_matches := sum_list (length <$> results.*2) in
  {| total_entities := length results;
     entities_with_matches := length (List.filter has_matches results);
     total_matches := total_matches;
     sanction_counts :=
       if (0 <? total_matches)%nat then count_lists (concat results.*2) ∅ else ∅ |}.

(** What [handle_cache_status] prints for a source. *)
Inductive CacheStatus : Type := Fresh | Stale | NotCached.

(** [f"{source.lower()}_cache.csv"] in the cache directory. *)
Definition cache_file (source : string) : string := PyStr.lower source +:+ "_cache.csv".

Definition cache_status (E : Environment) (source : string) (w : World) : CacheStatus :=
  match cache_files w !! cache_file source with
  | Some file =>
      if (clock w - fetched_at file <? cache_duration E)%Z then Fresh else Stale
  | None => NotCached
  end.

Definition handle_cache_status (E : Environment) (w : World)
    : list (string * CacheStatus) :=
  (fun source => (source, cache_status E source w)) <$> legacy_sources.

(** What [handle_cache_update] prints for a source: the number of
    records, no data, or an error.  The loop runs over the four legacy
    sources only. *)
Inductive UpdateLine : Type :=
| Records (n : nat)
| NoData
| UpdateError.

Definition update_source (E : Environment) (source : string) : M UpdateLine :=
  try_except
    (match fetch_source E source with
     | Some fetch =>
         data ← fetch;
         mret (if df_empty data then NoData else Records (length (rows data)))
     | None => raise KeyError
     end)
    any_exception
    (fun _ => mret UpdateError).

Fixpoint update_sources (E : Environment) (sources : list string)
    : M (list (string * UpdateLine)) :=
  match sources with
  | [] => mret []
  | source :: rest =>
      line ← update_source E source;
      lines ← update_sources E rest;
      mret ((source, line) :: lines)
  end.

(** [handle_cache_update]: the four fetches, each under its own [try]. *)
Definition handle_cache_update (E : Environment) : M (list (string * UpdateLine)) :=
  update_sources E legacy_sources.

(** A row of the UN dataset: a person with a name, from the UN. *)
Definition un_person_row (row : list pyval) : Prop :=
  exists text, text <> "" /\ row = [PStr text; PStr "person"; PStr "UN"].

(** A dataset with a list of vessels under the column ['name']. *)
Definition two_vessels : DataFrame :=
  mkDataFrame ["id"; "name"] [[PStr "1"; PStr "Ocean Star"]; [PStr "2"; PStr "EVER GIVEN!"]].

(* ===================================================================== *)
(** ** Strings: substrings and keywords *)
(* ===================================================================== *)

Lemma prefix_spec (needle hay : string) :
  String.prefix needle hay = true <-> exists post, hay = needle +:+ post.
Proof.
  revert hay. induction needle as [|a needle IH]; intros hay; simpl.
  - split; [intros _; exists hay; reflexivity | now destruct hay].
  - destruct hay as [|b hay]; simpl.
    + split; [discriminate | intros [post H]; discriminate H].
    + destruct (Ascii.ascii_dec a b) as [->|Hne].
      * rewrite IH. split; intros [post H]; exists post.
        -- now rewrite H.
        -- now injection H.
      * split; [discriminate | intros [post H]; injection H; congruence].
Qed.

Lemma contains_spec (hay needle : string) :
  PyStr.contains hay needle = true <-> is_substring needle hay.
Proof.
  unfold is_substring. induction hay as [|c hay IH]; cbn [PyStr.contains].
  - rewrite orb_false_r, prefix_spec. split.
    + intros [post H]. exists EmptyString, post. exact H.
    + intros [pre [post H]]. destruct pre; simpl in H; [eauto | discriminate].
  - rewrite orb_true_iff, prefix_spec, IH. split.
    + intros [[post H] | [pre [post H]]].
      * exists EmptyString, post. exact H.
      * exists (String c pre), post. simpl. now rewrite H.
    + intros [pre [post H]]. destruct pre as [|c' pre]; simpl in H.
      * left. eauto.
      * right. injection H as _ H. eauto.
Qed.

Lemma any_indicator_spec (keywords : list string) (name : string) :
  any_indicator keywords (PyStr.lower name) = true <-> has_keyword keywords name.
Proof.
  unfold any_indicator, has_keyword. rewrite existsb_exists.
  split; intros [k [Hin Hk]]; exists k.
  - split; [now apply list_elem_of_In | now apply contains_spec].
  - split; [now apply list_elem_of_In | now apply contains_spec].
Qed.

Lemma any_indicator_false (keywords : list string) (name : string) :
  any_indicator keywords (PyStr.lower name) = false <-> ~ has_keyword keywords name.
Proof.
  rewrite <- any_indicator_spec.
  destruct (any_indicator _ _); split; intros H; congruence.
Qed.

Lemma sexists_spec (p : ascii -> bool) (s : string) :
  PyStr.sexists p s = true <-> exists c, In c (list_ascii_of_string s) /\ p c = true.
Proof.
  induction s as [|a s IH]; simpl.
  - split; [discriminate | intros [c [[] _]]].
  - rewrite orb_true_iff, IH. split.
    + intros [H | [c [Hin Hc]]]; [exists a; auto | exists c; auto].
    + intros [c [[-> | Hin] Hc]]; [now left | right; eauto].
Qed.

(** C8: the rules of [_detect_entity_type] apply in a fixed order, the
    first that matches decides: a vessel keyword in the lower-cased name
    gives vessel; otherwise a company keyword gives company; otherwise at
    least two whitespace-separated tokens and no digit give person;
    otherwise vessel.  The four names of the specification are classified
    as it says. *)
Theorem detect_entity_type_priority (name : string) :
  (has_keyword vessel_indicators name -> _detect_entity_type name = "vessel")
  /\ (~ has_keyword vessel_indicators name ->
      has_keyword company_indicators name ->
      _detect_entity_type name = "company")
  /\ (~ has_keyword vessel_indicators name ->
      ~ has_keyword company_indicators name ->
      (2 <= length (PyStr.split name))%nat ->
      ~ has_digit name ->
      _detect_entity_type name = "person")
  /\ (~ has_keyword vessel_indicators name ->
      ~ has_keyword company_indicators name ->
      (length (PyStr.split name) < 2)%nat \/ has_digit name ->
      _detect_entity_type name = "vessel")
  /\ _detect_entity_type "MV OCEAN STAR VESSEL" = "vessel"
  /\ _detect_entity_type "ACME CORP LTD" = "company"
  /\ _detect_entity_type "John Smith" = "person"
  /\ _detect_entity_type "X" = "vessel".
Proof.
  unfold _detect_entity_type, has_digit.
  repeat split; try reflexivity.
  - intros Hv. apply any_indicator_spec in Hv. now rewrite Hv.
  - intros Hv Hc. apply any_indicator_false in Hv. apply any_indicator_spec in Hc.
    now rewrite Hv, Hc.
  - intros Hv Hc Htok Hdig.
    apply any_indicator_false in Hv. apply any_indicator_false in Hc.
    rewrite Hv, Hc.
    apply Nat.leb_le in Htok. rewrite Htok.
    destruct (PyStr.sexists PyStr.isdigit name) eqn:Hd; [|reflexivity].
    apply sexists_spec in Hd. now contradiction Hdig.
  - intros Hv Hc Hor.
    apply any_indicator_false in Hv. apply any_indicator_false in Hc.
    rewrite Hv, Hc.
    destruct Hor as [Hlt | Hd].
    + apply Nat.leb_gt in Hlt. now rewrite Hlt.
    + apply sexists_spec in Hd. rewrite Hd. now rewrite andb_false_r.
Qed.

Lemma detect_entity_type_priority_witness :
  _detect_entity_type "MV OCEAN STAR VESSEL" = "vessel"
  /\ _detect_entity_type "ACME CORP LTD" = "company"
  /\ _detect_entity_type "John Smith" = "person"
  /\ _detect_entity_type "M 7" = "vessel".
Proof.
  split; [|split; [|split]].
  - apply (proj1 (detect_entity_type_priority "MV OCEAN STAR VESSEL")).
    apply any_indicator_spec. vm_compute. reflexivity.
  - apply (proj1 (proj2 (detect_entity_type_priority "ACME CORP LTD"))).
    + apply any_indicator_false. vm_compute. reflexivity.
    + apply any_indicator_spec. vm_compute. reflexivity.
  - apply (proj1 (proj2 (proj2 (detect_entity_type_priority "John Smith")))).
    + apply any_indicator_false. vm_compute. reflexivity.
    + apply any_indicator_false. vm_compute. reflexivity.
    + vm_compute. lia.
    + intros Hd. apply sexists_spec in Hd. vm_compute in Hd. discriminate Hd.
  - apply (proj1 (proj2 (proj2 (proj2 (detect_entity_type_priority "M 7"))))).
    + apply any_indicator_false. vm_compute. reflexivity.
    + apply any_indicator_false. vm_compute. reflexivity.
    + right. apply sexists_spec. vm_compute. reflexivity.
Defined.

(* ===================================================================== *)
(** ** Normalisation *)
(* ===================================================================== *)

Lemma sforall_impl (p q : ascii -> bool) (s : string) :
  (forall c, p c = true -> q c = true) -> sforall p s = true -> sforall q s = true.
Proof.
  intros Hpq. induction s as [|c s IH]; simpl; [easy|].
  rewrite !andb_true_iff. intros [Hc Hs]. auto.
Qed.

Lemma sforall_sfilter (p q : ascii -> bool) (s : string) :
  sforall p s = true -> sforall p (PyStr.sfilter q s) = true.
Proof.
  induction s as [|c s IH]; simpl; [easy|].
  rewrite andb_true_iff. intros [Hc Hs].
  destruct (q c); simpl; [rewrite Hc|]; auto.
Qed.

Lemma sforall_sfilter_self (p : ascii -> bool) (s : string) :
  sforall p (PyStr.sfilter p s) = true.
Proof.
  induction s as [|c s IH]; simpl; [easy|].
  destruct (p c) eqn:Hc; simpl; [rewrite Hc|]; auto.
Qed.

Lemma sfilter_all (p : ascii -> bool) (s : string) :
  sforall p s = true -> PyStr.sfilter p s = s.
Proof.
  induction s as [|c s IH]; simpl; [easy|].
  rewrite andb_true_iff. intros [Hc Hs]. rewrite Hc. now rewrite IH.
Qed.

Lemma smap_fixed (f : ascii -> ascii) (s : string) :
  sforall (fun c => Ascii.eqb (f c) c) s = true -> PyStr.smap f s = s.
Proof.
  induction s as [|c s IH]; simpl; [easy|].
  rewrite andb_true_iff. intros [Hc Hs].
  apply Ascii.eqb_eq in Hc. now rewrite Hc, IH.
Qed.

Lemma sforall_lstrip (p : ascii -> bool) (s : string) :
  sforall p s = true -> sforall p (PyStr.lstrip s) = true.
Proof.
  induction s as [|c s IH]; simpl; [easy|].
  rewrite andb_true_iff. intros [Hc Hs].
  destruct (PyStr.isspace c); simpl; [auto | now rewrite Hc, Hs].
Qed.

Lemma sforall_rstrip (p : ascii -> bool) (s : string) :
  sforall p s = true -> sforall p (PyStr.rstrip s) = true.
Proof.
  induction s as [|c s IH]; simpl; [easy|].
  rewrite andb_true_iff. intros [Hc Hs].
  destruct (PyStr.isspace c && PyStr.is_empty (PyStr.rstrip s)); simpl; [easy|].
  now rewrite Hc, IH.
Qed.

Lemma sforall_strip (p : ascii -> bool) (s : string) :
  sforall p s = true -> sforall p (PyStr.strip s) = true.
Proof. intros H. unfold PyStr.strip. now apply sforall_rstrip, sforall_lstrip. Qed.

Lemma lower_char_fixed (c : ascii) :
  Ascii.eqb (PyStr.lower_char (PyStr.lower_char c)) (PyStr.lower_char c) = true.
Proof. destruct c as [[] [] [] [] [] [] [] []]; reflexivity. Qed.

Lemma sforall_lower (s : string) :
  sforall (fun c => Ascii.eqb (PyStr.lower_char c) c) (PyStr.lower s) = true.
Proof.
  unfold PyStr.lower. induction s as [|c s IH]; simpl; [easy|].
  now rewrite lower_char_fixed, IH.
Qed.

(** The text that [_normalize_text] returns is in lower case and free of
    punctuation, but its ends may still be whitespace: a second pass
    strips it and changes nothing else. *)
Lemma normalize_text_twice (s : string) :
  _normalize_text (_normalize_text s) = PyStr.strip (_normalize_text s).
Proof.
  unfold _normalize_text at 1.
  destruct (PyStr.is_empty (_normalize_text s)) eqn:He.
  - destruct (_normalize_text s); [reflexivity | discriminate He].
  - clear He. unfold _normalize_text.
    destruct (PyStr.is_empty s); [reflexivity|].
    set (x := PyStr.strip (PyStr.lower s)).
    assert (Hlow : sforall (fun c => Ascii.eqb (PyStr.lower_char c) c)
                     (remove_punctuation x) = true).
    { unfold remove_punctuation. apply sforall_sfilter.
      unfold x. apply sforall_strip, sforall_lower. }
    unfold PyStr.lower at 1. rewrite (smap_fixed _ _ Hlow).
    unfold remove_punctuation at 1. apply sfilter_all.
    apply sforall_strip. unfold remove_punctuation. apply sforall_sfilter_self.
Qed.

(** C7: [_normalize_text] is not idempotent.  The name is stripped before
    the punctuation is removed, so the blank before a final dash survives
    the first pass and is stripped by the second. *)
Theorem normalize_text_not_idempotent :
  _normalize_text "EVER GIVEN -" = "ever given "
  /\ _normalize_text (_normalize_text "EVER GIVEN -") = "ever given"
  /\ _normalize_text (_normalize_text "EVER GIVEN -") <> _normalize_text "EVER GIVEN -".
Proof. repeat split. vm_compute. discriminate. Qed.

(* ===================================================================== *)
(** ** Similarity *)
(* ===================================================================== *)

Lemma set_is_empty_spec (s : gset string) : set_is_empty s = true <-> s = ∅.
Proof. unfold set_is_empty. apply bool_decide_eq_true. Qed.

Lemma is_empty_spec (s : string) : PyStr.is_empty s = true <-> s = "".
Proof. destruct s; simpl; split; congruence. Qed.

Lemma ratio_bounds (i u : nat) :
  (i <= u)%nat -> (0 < u)%nat ->
  (0 <= inject_Z (Z.of_nat i) / inject_Z (Z.of_nat u) <= 1)%Q.
Proof.
  intros Hiu Hu.
  assert (Hpos : (0 < inject_Z (Z.of_nat u))%Q).
  { change 0%Q with (inject_Z 0). rewrite <- Zlt_Qlt. lia. }
  split.
  - apply Qle_shift_div_l; [exact Hpos|].
    rewrite Qmult_0_l. change 0%Q with (inject_Z 0). rewrite <- Zle_Qle. lia.
  - apply Qle_shift_div_r; [exact Hpos|].
    rewrite Qmult_1_l. rewrite <- Zle_Qle. lia.
Qed.

(** C6, amended: [_calculate_similarity] returns 0 when either argument is
    the empty string; for two non-empty strings it returns 1 when their
    normalised forms are equal, and otherwise the Jaccard index of their
    token sets, 0 when either set is empty.  The result lies in [0,1]. *)
Theorem calculate_similarity_cases (a b : string) :
  (a = "" \/ b = "" -> _calculate_similarity a b = 0%Q)
  /\ (a <> "" -> b <> "" -> _normalize_text a = _normalize_text b ->
      _calculate_similarity a b = 1%Q)
  /\ (a <> "" -> b <> "" -> _normalize_text a <> _normalize_text b ->
      (tokens a = ∅ \/ tokens b = ∅ -> _calculate_similarity a b = 0%Q)
      /\ (tokens a <> ∅ -> tokens b <> ∅ ->
          _calculate_similarity a b
          = (inject_Z (Z.of_nat (size (tokens a ∩ tokens b)))
             / inject_Z (Z.of_nat (size (tokens a ∪ tokens b))))%Q))
  /\ (0 <= _calculate_similarity a b <= 1)%Q.
Proof.
  unfold _calculate_similarity, tokens.
  destruct (PyStr.is_empty a) eqn:Ha; [apply is_empty_spec in Ha; subst a|].
  { simpl. split; [reflexivity|]. split; [congruence|]. split; [congruence|].
    split; discriminate. }
  destruct (PyStr.is_empty b) eqn:Hb; [apply is_empty_spec in Hb; subst b|].
  { simpl. split; [reflexivity|]. split; [congruence|]. split; [congruence|].
    split; discriminate. }
  simpl.
  assert (Hane : a <> "") by (intros ->; discriminate Ha).
  assert (Hbne : b <> "") by (intros ->; discriminate Hb).
  split; [intros [|]; congruence|].
  destruct (String.eqb (_normalize_text a) (_normalize_text b)) eqn:Hn.
  { apply String.eqb_eq in Hn.
    split; [reflexivity|]. split; [congruence|]. split; discriminate. }
  apply String.eqb_neq in Hn.
  split; [congruence|].
  set (A := word_set (_normalize_text a)).
  set (B := word_set (_normalize_text b)).
  destruct (set_is_empty A) eqn:HA.
  { apply set_is_empty_spec in HA. simpl.
    split; [|split; discriminate].
    intros _ _ _. split; [reflexivity | congruence]. }
  destruct (set_is_empty B) eqn:HB.
  { apply set_is_empty_spec in HB. simpl.
    split; [|split; discriminate].
    intros _ _ _. split; [reflexivity | congruence]. }
  simpl.
  assert (HA' : A <> ∅) by (intros H; apply set_is_empty_spec in H; congruence).
  assert (HB' : B <> ∅) by (intros H; apply set_is_empty_spec in H; congruence).
  split.
  - intros _ _ _. split; [intros [|]; contradiction | reflexivity].
  - apply ratio_bounds.
    + apply subseteq_size. intros x Hx.
      apply elem_of_intersection in Hx. apply elem_of_union. tauto.
    + apply Nat.neq_0_lt_0. intros H0.
      apply size_empty_iff in H0. apply HA'. set_solver.
Qed.

Lemma calculate_similarity_cases_witness :
  _calculate_similarity "" "EVER GIVEN" = 0%Q
  /\ _calculate_similarity "EVER GIVEN" "ever given!" = 1%Q
  /\ _calculate_similarity "!" "EVER GIVEN" = 0%Q
  /\ _calculate_similarity "EVER GIVEN" "EVER TAKEN"
     = (inject_Z (Z.of_nat (size (tokens "EVER GIVEN" ∩ tokens "EVER TAKEN")))
        / inject_Z (Z.of_nat (size (tokens "EVER GIVEN" ∪ tokens "EVER TAKEN"))))%Q.
Proof.
  split; [|split; [|split]].
  - apply (proj1 (calculate_similarity_cases "" "EVER GIVEN")).
    left. reflexivity.
  - apply (proj1 (proj2 (calculate_similarity_cases "EVER GIVEN" "ever given!")));
      [discriminate | discriminate | vm_compute; reflexivity].
  - apply (proj1 (proj2 (proj2 (calculate_similarity_cases "!" "EVER GIVEN"))));
      [discriminate | discriminate | vm_compute; discriminate |].
    left. apply set_is_empty_spec. vm_compute. reflexivity.
  - apply (proj1 (proj2 (proj2 (calculate_similarity_cases "EVER GIVEN" "EVER TAKEN"))));
      [discriminate | discriminate | vm_compute; discriminate | |].
    + intros H. apply set_is_empty_spec in H. vm_compute in H. discriminate H.
    + intros H. apply set_is_empty_spec in H. vm_compute in H. discriminate H.
Defined.

(** C6, as stated, fails on empty input: the normalised forms of two empty
    strings are equal and the score is 0. *)
Lemma calculate_similarity_empty_counterexample :
  _normalize_text "" = _normalize_text ""
  /\ _calculate_similarity "" "" = 0%Q
  /\ ~ (_calculate_similarity "" "" == 1)%Q.
Proof. repeat split. vm_compute. discriminate. Qed.

(* ===================================================================== *)
(** ** Running the monad *)
(* ===================================================================== *)

Lemma later_later (w : World) (d1 d2 : Z) (r1 r2 : list Request) :
  later (later w d1 r1) d2 r2 = later w (d1 + d2) (r1 ++ r2).
Proof. unfold later. simpl. f_equal; [lia | now rewrite app_assoc]. Qed.

Lemma later_zero (w : World) : later w 0 [] = w.
Proof. destruct w. unfold later. simpl. f_equal; [lia | apply app_nil_r]. Qed.

Ltac unfold_monad :=
  unfold mbind, M_bind, mret, M_ret, bind, ret, raise, lift, try_except,
    now, sleep in *.

Section Running.

Context (E : Environment).

Lemma safe_ret {A} (a : A) : safe (mret a).
Proof. intros w. now exists a, w. Qed.

Lemma safe_bind {A B} (m : M A) (k : A -> M B) :
  safe m -> (forall a, safe (k a)) -> safe (m ≫= k).
Proof.
  intros Hm Hk w. destruct (Hm w) as (a & w1 & Ha).
  destruct (Hk a w1) as (b & w2 & Hb). exists b, w2.
  unfold_monad. now rewrite Ha.
Qed.

Lemma safe_try {A} (m : M A) (handler : exn -> M A) :
  (forall e, safe (handler e)) -> safe (try_except m any_exception handler).
Proof.
  intros Hh w. unfold try_except.
  destruct (m w) as [[a|e] w1]; [now exists a, w1|].
  simpl. apply Hh.
Qed.

Lemma logs_ret {A} P (a : A) : logs P (mret a).
Proof.
  intros w o w' H. injection H as <- <-. exists 0%Z, [].
  now rewrite later_zero.
Qed.

Lemma logs_raise {A} P (e : exn) : logs P (@raise A e).
Proof.
  intros w o w' H. injection H as <- <-. exists 0%Z, [].
  now rewrite later_zero.
Qed.

Lemma logs_lift {A} P (o : Outcome A) : logs P (lift o).
Proof.
  intros w o' w' H. injection H as <- <-. exists 0%Z, [].
  now rewrite later_zero.
Qed.

Lemma logs_now P : logs P now.
Proof.
  intros w o w' H. injection H as <- <-. exists 0%Z, [].
  now rewrite later_zero.
Qed.

Lemma logs_sleep P (seconds : Z) : logs P (sleep seconds).
Proof.
  intros w o w' H. injection H as <- <-. exists seconds, [].
  unfold later. now rewrite app_nil_r.
Qed.

Lemma logs_session P (r : Request) : P r -> logs P (session_request E r).
Proof.
  intros HP w o w' H. exists 0%Z, [r]. split; [|now constructor].
  unfold session_request in H.
  assert (Hw : later w 0 [r] = mkWorld (clock w) (net_log w ++ [r]) (cache_files w)).
  { unfold later. f_equal. lia. }
  rewrite Hw. destruct (http E r); now injection H as _ <-.
Qed.

Lemma logs_bind {A B} P (m : M A) (k : A -> M B) :
  logs P m -> (forall a, logs P (k a)) -> logs P (m ≫= k).
Proof.
  intros Hm Hk w o w' H. unfold_monad.
  destruct (m w) as [[a|e] w1] eqn:Hmw.
  - destruct (Hm _ _ _ Hmw) as (d1 & r1 & -> & HP1).
    destruct (Hk _ _ _ _ H) as (d2 & r2 & -> & HP2).
    exists (d1 + d2)%Z, (r1 ++ r2). rewrite later_later. split; [easy|].
    now apply Forall_app.
  - injection H as <- <-. eapply Hm. exact Hmw.
Qed.

Lemma logs_try {A} P (m : M A) (catches : exn -> bool) (handler : exn -> M A) :
  logs P m -> (forall e, logs P (handler e)) -> logs P (try_except m catches handler).
Proof.
  intros Hm Hh w o w' H. unfold try_except in H.
  destruct (m w) as [[a|e] w1] eqn:Hmw.
  - injection H as <- <-. eapply Hm. exact Hmw.
  - destruct (Hm _ _ _ Hmw) as (d1 & r1 & -> & HP1).
    destruct (catches e).
    + destruct (Hh _ _ _ _ H) as (d2 & r2 & -> & HP2).
      exists (d1 + d2)%Z, (r1 ++ r2). rewrite later_later. split; [easy|].
      now apply Forall_app.
    + injection H as <- <-. now exists d1, r1.
Qed.

End Running.

(* ===================================================================== *)
(** ** The legacy fetches *)
(* ===================================================================== *)

Section Legacy.

Context (E : Environment).

Lemma legacy_get_run (url : string) (w : World) :
  legacy_get E url w
  = (match http E (legacy_request url) with
     | HttpResponse status body =>
         if (400 <=? status)%Z && (status <? 600)%Z
         then Raise (HTTPError status) else Ok (status, body)
     | TransportFailure => Raise ConnectionError
     end, requested w (legacy_request url)).
Proof.
  unfold legacy_get, session_request, raise_for_status, requested, legacy_request.
  unfold_monad.
  destruct (http E _) as [status body|]; [|reflexivity].
  simpl. now destruct ((400 <=? status)%Z && (status <? 600)%Z).
Qed.

Ltac run_fetch :=
  unfold_monad; rewrite legacy_get_run; unfold delivered;
  destruct (http E _) as [status body|]; simpl; [|reflexivity];
  destruct ((400 <=? status)%Z && (status <? 600)%Z); simpl; [reflexivity|].

Lemma fetch_ofac_run (w : World) :
  _fetch_ofac_data E w
  = (Ok (default empty_frame (source_dataset E "OFAC")),
     requested w (legacy_request ofac_sdn_url)).
Proof.
  unfold _fetch_ofac_data, source_dataset, parsed. simpl String.eqb. cbv iota.
  run_fetch.
  destruct (read_csv E body) as [df|]; simpl; [|reflexivity].
  destruct (has_column df "type"); simpl; [|reflexivity].
  now destruct (str_contains_vessel E _).
Qed.

Lemma fetch_uk_run (w : World) :
  _fetch_uk_data E w
  = (Ok (default empty_frame (source_dataset E "UK")),
     requested w (legacy_request uk_url)).
Proof.
  unfold _fetch_uk_data, source_dataset. simpl String.eqb. cbv iota.
  run_fetch. reflexivity.
Qed.

Lemma fetch_eu_run (w : World) :
  _fetch_eu_data E w
  = (Ok (default empty_frame (source_dataset E "EU")),
     requested w (legacy_request eu_url)).
Proof.
  unfold _fetch_eu_data, source_dataset, parsed. simpl String.eqb. cbv iota.
  run_fetch. now destruct (read_excel E body).
Qed.

Lemma fetch_un_run (w : World) :
  _fetch_un_data E w
  = (Ok (default empty_frame (source_dataset E "UN")),
     requested w (legacy_request un_url)).
Proof.
  unfold _fetch_un_data, source_dataset. simpl String.eqb. cbv iota.
  run_fetch. now destruct (xml_fromstring E body).
Qed.

(** A legacy fetch never raises, issues exactly one request, and returns
    the dataset of the source, or the empty frame when the source fails. *)
Lemma fetch_source_run (source : string) (fetch : M DataFrame) (w : World) :
  fetch_source E source = Some fetch ->
  fetch w = (Ok (default empty_frame (source_dataset E source)),
             requested w (legacy_request (source_endpoint source))).
Proof.
  unfold fetch_source, source_endpoint.
  destruct (String.eqb source "OFAC") eqn:H1.
  { apply String.eqb_eq in H1. subst. intros [= <-]. apply fetch_ofac_run. }
  destruct (String.eqb source "UK") eqn:H2.
  { apply String.eqb_eq in H2. subst. intros [= <-]. apply fetch_uk_run. }
  destruct (String.eqb source "EU") eqn:H3.
  { apply String.eqb_eq in H3. subst. intros [= <-]. apply fetch_eu_run. }
  destruct (String.eqb source "UN") eqn:H4; [|discriminate].
  apply String.eqb_eq in H4. subst. intros [= <-]. apply fetch_un_run.
Qed.

End Legacy.

(** C1: no legacy fetch consults the cache that [cache_dir] and
    [cache_duration] announce.  Every fetch issues one network request
    whatever the cache directory holds and whatever the time is; the
    dataset it returns comes from the answer alone and the cache is
    neither read nor written.  A query at T + TTL - 1s goes to the network
    like one at T + TTL + 1s. *)
Theorem legacy_fetch_always_requests (E : Environment) (source : string)
    (fetch : M DataFrame) (w : World) :
  fetch_source E source = Some fetch ->
  exists df,
    fetch w = (Ok df, mkWorld (clock w)
                        (net_log w ++ [legacy_request (source_endpoint source)])
                        (cache_files w))
    /\ forall w', (fetch w').1 = Ok df.
Proof.
  intros Hf. exists (default empty_frame (source_dataset E source)). split.
  - now rewrite (fetch_source_run E source fetch w Hf).
  - intros w'. now rewrite (fetch_source_run E source fetch w' Hf).
Qed.

Lemma legacy_fetch_always_requests_witness :
  exists df,
    _fetch_ofac_data ofac_answer warm_world
    = (Ok df, mkWorld (clock warm_world)
                (net_log warm_world ++ [legacy_request (source_endpoint "OFAC")])
                (cache_files warm_world))
    /\ forall w', (_fetch_ofac_data ofac_answer w').1 = Ok df.
Proof.
  apply (legacy_fetch_always_requests ofac_answer "OFAC" (_fetch_ofac_data ofac_answer)
           warm_world).
  reflexivity.
Defined.

(** C1 on a fresh cache entry: with a copy of the OFAC list one second
    short of the TTL in the cache directory, the fetch still goes to the
    network and returns what the network delivers, not the cached
    dataset. *)
Lemma fetch_ignores_fresh_cache_counterexample :
  cache_files warm_world !! "ofac_cache.csv" = Some (mkCacheFile 0 cached_frame)
  /\ (clock warm_world - 0 < cache_duration ofac_answer)%Z
  /\ net_log (_fetch_ofac_data ofac_answer warm_world).2
     = [legacy_request ofac_sdn_url]
  /\ (_fetch_ofac_data ofac_answer warm_world).1
     = Ok (mkDataFrame ["name"] [[PStr "OCEAN STAR"]]).
Proof. repeat split. Qed.

(* ===================================================================== *)
(** ** [check_single_entity] absorbs the failures of its sources *)
(* ===================================================================== *)

Section Resolve.

Context (E : Environment).

Lemma check_source_run (name ty source : string) (fetch : M DataFrame)
    (all_matches : list SanctionMatch) (w : World) :
  fetch_source E source = Some fetch ->
  exists dt, (0 <= dt <= 1)%Z
    /\ check_source E name ty all_matches source w
       = (Ok (all_matches ++ source_matches E name ty (clock w) source),
          later w dt [legacy_request (source_endpoint source)]).
Proof.
  intros Hf. unfold check_source, source_matches. rewrite Hf.
  unfold_monad. rewrite (fetch_source_run E source fetch w Hf).
  set (r := legacy_request (source_endpoint source)).
  assert (H0 : requested w r = later w 0 [r]).
  { unfold requested, later. f_equal. lia. }
  destruct (source_dataset E source) as [df|]; simpl.
  - destruct (df_empty df); simpl.
    + exists 1%Z. split; [lia | reflexivity].
    + unfold _search_entity. unfold_monad. simpl.
      destruct (scan_rows _ _ _ _ _ _ _ _) as [found|e]; simpl.
      * exists 1%Z. split; [lia | reflexivity].
      * exists 0%Z. rewrite H0, app_nil_r. split; [lia | reflexivity].
  - exists 1%Z. split; [lia | reflexivity].
Qed.

Lemma check_source_safe (name ty source : string) (all_matches : list SanctionMatch) :
  safe (check_source E name ty all_matches source).
Proof.
  unfold check_source. destruct (fetch_source E source); [|apply safe_ret].
  apply safe_try. intros _. apply safe_ret.
Qed.

Lemma aggregator_block_safe (name ty : string) : safe (aggregator_block E name ty).
Proof. unfold aggregator_block. apply safe_try. intros _. apply safe_ret. Qed.

Lemma check_sources_safe (name ty : string) (sources : list string)
    (all_matches : list SanctionMatch) :
  safe (check_sources E name ty sources all_matches).
Proof.
  revert all_matches. induction sources as [|source rest IH]; intros all_matches; simpl.
  - apply safe_ret.
  - apply safe_bind; [apply check_source_safe | intros a; apply IH].
Qed.

(** [check_single_entity] never raises. *)
Lemma check_single_entity_safe (name ty : string) : safe (check_single_entity E name ty).
Proof.
  unfold check_single_entity.
  apply safe_bind; [apply aggregator_block_safe | intros a; apply check_sources_safe].
Qed.

(** What the first block holds when it ends, by the fate of its two
    searches. *)
Lemma aggregator_block_run (name ty : string) (w : World) :
  aggregator_block E name ty w
  = match aggregator_search E name ty "sanctions" ["sanction"] w with
    | (Raise _, w1) => (Ok [], w1)
    | (Ok sanctions, w1) =>
        match aggregator_search E name ty "default" [] w1 with
        | (Raise _, w2) => (Ok sanctions, w2)
        | (Ok broader, w2) =>
            (Ok match unique_matches [] (sanctions ++ broader) with
                | Ok kept => kept
                | Raise _ => sanctions ++ broader
                end, w2)
        end
    end.
Proof.
  unfold aggregator_block. unfold_monad.
  destruct (aggregator_search E name ty "sanctions" _ w) as [[sanctions|e] w1];
    [|reflexivity].
  destruct (aggregator_search E name ty "default" _ w1) as [[broader|e] w2];
    [|reflexivity].
  now destruct (unique_matches [] (sanctions ++ broader)).
Qed.

(** The list [check_single_entity] returns: what the first block held,
    then the records of the four legacy sources in their order. *)
Lemma check_single_entity_run (name ty : string) (w : World) :
  let ty' := resolve_type name ty in
  exists agg w1 d1 d2 d3 w',
    aggregator_block E name ty' w = (Ok agg, w1)
    /\ (0 <= d1 <= 1 /\ 0 <= d2 <= 1 /\ 0 <= d3 <= 1)%Z
    /\ check_single_entity E name ty w
       = (Ok (agg
              ++ source_matches E name ty' (clock w1) "OFAC"
              ++ source_matches E name ty' (clock w1 + d1) "UK"
              ++ source_matches E name ty' (clock w1 + d1 + d2) "EU"
              ++ source_matches E name ty' (clock w1 + d1 + d2 + d3) "UN"), w').
Proof.
  intros ty'.
  destruct (aggregator_block_safe name ty' w) as (agg & w1 & Hagg).
  destruct (check_source_run name ty' "OFAC" _ agg w1 eq_refl) as (d1 & Hd1 & H1).
  set (a1 := agg ++ source_matches E name ty' (clock w1) "OFAC") in *.
  set (w2 := later w1 d1 [legacy_request (source_endpoint "OFAC")]) in *.
  destruct (check_source_run name ty' "UK" _ a1 w2 eq_refl) as (d2 & Hd2 & H2).
  set (a2 := a1 ++ source_matches E name ty' (clock w2) "UK") in *.
  set (w3 := later w2 d2 [legacy_request (source_endpoint "UK")]) in *.
  destruct (check_source_run name ty' "EU" _ a2 w3 eq_refl) as (d3 & Hd3 & H3).
  set (a3 := a2 ++ source_matches E name ty' (clock w3) "EU") in *.
  set (w4 := later w3 d3 [legacy_request (source_endpoint "EU")]) in *.
  destruct (check_source_run name ty' "UN" _ a3 w4 eq_refl) as (d4 & Hd4 & H4).
  exists agg, w1, d1, d2, d3.
  eexists. split; [exact Hagg|]. split; [lia|].
  unfold check_single_entity. fold ty'. unfold legacy_sources. simpl check_sources.
  unfold_monad. rewrite Hagg, H1, H2, H3, H4.
  unfold a3, a2, a1. rewrite <- !app_assoc. reflexivity.
Qed.

End Resolve.

(** The partial-failure scenario of the specification: the call returns
    the records of the two OFAC rows after six requests. *)
Example partial_failure_scenario :
  exists m1 m2 w',
    check_single_entity only_ofac_up "EVER GIVEN" "vessel" Script.start
    = (Ok [m1; m2], w')
    /\ sanction_list m1 = "OFAC" /\ sanction_list m2 = "OFAC"
    /\ length (net_log w') = 6%nat.
Proof. do 3 eexists. split; [lazy; reflexivity|]. repeat split. Qed.

(* ===================================================================== *)
(** ** Removing duplicates *)
(* ===================================================================== *)

Lemma unique_matches_cons (seen_ids : list pyval) (m : SanctionMatch)
    (rest kept : list SanctionMatch) :
  unique_matches seen_ids (m :: rest) = Ok kept ->
  (seen seen_ids (key_of m) = true /\ unique_matches seen_ids rest = Ok kept)
  \/ (seen seen_ids (key_of m) = false
      /\ exists kept', unique_matches (key_of m :: seen_ids) rest = Ok kept'
                       /\ kept = m :: kept').
Proof.
  simpl. unfold key_of.
  destruct (entity_id_of m) as [entity_id|e]; [|discriminate].
  destruct (Py.hashable entity_id); simpl; [|discriminate].
  destruct (seen seen_ids entity_id) eqn:Hseen.
  - intros H. now left.
  - destruct (unique_matches (entity_id :: seen_ids) rest) as [kept'|e] eqn:Hrest;
      [|discriminate].
    intros [= <-]. right. eauto.
Qed.

Lemma unique_matches_sublist (all_matches : list SanctionMatch) :
  forall seen_ids kept,
    unique_matches seen_ids all_matches = Ok kept -> sublist kept all_matches.
Proof.
  induction all_matches as [|m rest IH]; intros seen_ids kept H.
  - injection H as <-. constructor.
  - apply unique_matches_cons in H as [[_ H] | [_ (kept' & H & ->)]].
    + apply sublist_cons. eauto.
    + apply sublist_skip. eauto.
Qed.

Lemma unique_matches_unseen (all_matches : list SanctionMatch) :
  forall seen_ids kept m,
    unique_matches seen_ids all_matches = Ok kept ->
    m ∈ kept -> seen seen_ids (key_of m) = false.
Proof.
  induction all_matches as [|m0 rest IH]; intros seen_ids kept m H Hin.
  - injection H as <-. inversion Hin.
  - apply unique_matches_cons in H as [[_ H] | [Hnew (kept' & H & ->)]].
    + eauto.
    + apply elem_of_cons in Hin as [-> | Hin]; [exact Hnew|].
      specialize (IH _ _ _ H Hin). simpl in IH.
      now apply orb_false_iff in IH.
Qed.

Lemma unique_matches_distinct (all_matches : list SanctionMatch) :
  forall seen_ids kept i j mi mj,
    unique_matches seen_ids all_matches = Ok kept ->
    (i < j)%nat -> kept !! i = Some mi -> kept !! j = Some mj ->
    Py.eqb (key_of mj) (key_of mi) = false.
Proof.
  induction all_matches as [|m0 rest IH]; intros seen_ids kept i j mi mj H Hij Hi Hj.
  - injection H as <-. discriminate Hi.
  - apply unique_matches_cons in H as [[_ H] | [_ (kept' & H & ->)]].
    + eauto.
    + destruct j as [|j]; [lia|]. simpl in Hj.
      destruct i as [|i]; simpl in Hi.
      * injection Hi as <-.
        assert (Hin : mj ∈ kept') by (eapply list_elem_of_lookup_2; exact Hj).
        pose proof (unique_matches_unseen _ _ _ _ H Hin) as Hu. simpl in Hu.
        now apply orb_false_iff in Hu.
      * apply (IH _ _ i j mi mj H); [lia | exact Hi | exact Hj].
Qed.

Lemma unique_matches_first (all_matches : list SanctionMatch) :
  forall seen_ids kept i m,
    unique_matches seen_ids all_matches = Ok kept ->
    all_matches !! i = Some m ->
    seen seen_ids (key_of m) = false ->
    (forall j m', (j < i)%nat -> all_matches !! j = Some m' ->
                  Py.eqb (key_of m) (key_of m') = false) ->
    m ∈ kept.
Proof.
  induction all_matches as [|m0 rest IH]; intros seen_ids kept i m H Hi Hnew Hfirst.
  - discriminate Hi.
  - destruct i as [|i]; simpl in Hi.
    + injection Hi as ->.
      apply unique_matches_cons in H as [[Hs _] | [_ (kept' & _ & ->)]].
      * congruence.
      * apply elem_of_cons. now left.
    + assert (H0 : Py.eqb (key_of m) (key_of m0) = false).
      { apply (Hfirst 0%nat m0); [lia | reflexivity]. }
      assert (Hrest : forall j m', (j < i)%nat -> rest !! j = Some m' ->
                                   Py.eqb (key_of m) (key_of m') = false).
      { intros j m' Hj Hm'. apply (Hfirst (S j) m'); [lia | exact Hm']. }
      apply unique_matches_cons in H as [[_ H] | [_ (kept' & H & ->)]].
      * eapply IH; eauto.
      * apply elem_of_cons. right. eapply IH; eauto.
        simpl. now rewrite H0, Hnew.
Qed.

(** The key of a record built from a hit is the hit's id, and the empty
    string when the hit has none. *)
Lemma search_match_key (E : Environment) (name ty : string) (t : Z)
    (fields : list (string * pyval)) (m : SanctionMatch) :
  search_match E name ty t (PDict fields) = Ok m ->
  key_of m = Py.get fields "id" (PStr "").
Proof.
  unfold search_match. simpl.
  destruct (similarity_to name _); [|discriminate].
  intros [= <-]. reflexivity.
Qed.

(** C5, amended: in a call whose two aggregator searches and whose loop
    over [seen_ids] complete, the aggregator records returned have
    pairwise different keys, the key being the hit's id, or the empty
    string when the hit has none; they are the first record of each key
    in the order the hits came.  The records of the legacy sources follow
    them as they were found, without any removal of duplicates. *)
Theorem aggregator_dedup_first_wins (E : Environment) (name ty : string)
    (w w1 w2 : World) (sanctions broader kept : list SanctionMatch) :
  let ty' := resolve_type name ty in
  aggregator_search E name ty' "sanctions" ["sanction"] w = (Ok sanctions, w1) ->
  aggregator_search E name ty' "default" [] w1 = (Ok broader, w2) ->
  unique_matches [] (sanctions ++ broader) = Ok kept ->
  (exists d1 d2 d3 w',
     check_single_entity E name ty w
     = (Ok (kept
            ++ source_matches E name ty' (clock w2) "OFAC"
            ++ source_matches E name ty' (clock w2 + d1) "UK"
            ++ source_matches E name ty' (clock w2 + d1 + d2) "EU"
            ++ source_matches E name ty' (clock w2 + d1 + d2 + d3) "UN"), w'))
  /\ sublist kept (sanctions ++ broader)
  /\ (forall i j mi mj, (i < j)%nat -> kept !! i = Some mi -> kept !! j = Some mj ->
        Py.eqb (key_of mj) (key_of mi) = false)
  /\ (forall i m, (sanctions ++ broader) !! i = Some m ->
        (forall j m', (j < i)%nat -> (sanctions ++ broader) !! j = Some m' ->
                      Py.eqb (key_of m) (key_of m') = false) ->
        m ∈ kept)
  /\ (forall t fields m, search_match E name ty' t (PDict fields) = Ok m ->
        key_of m = Py.get fields "id" (PStr "")).
Proof.
  intros ty' Hs Hb Hk. split; [|split; [|split; [|split]]].
  - destruct (check_single_entity_run E name ty w)
      as (agg & wa & d1 & d2 & d3 & w' & Hagg & _ & Hrun).
    fold ty' in Hagg, Hrun.
    rewrite aggregator_block_run, Hs, Hb, Hk in Hagg.
    injection Hagg as <- <-. now exists d1, d2, d3, w'.
  - eapply unique_matches_sublist. exact Hk.
  - intros i j mi mj. eapply unique_matches_distinct. exact Hk.
  - intros i m Hi Hfirst. eapply unique_matches_first; eauto.
  - intros t fields m. apply search_match_key.
Qed.

Lemma aggregator_dedup_first_wins_witness :
  exists kept legacy w',
    check_single_entity overlapping_searches "EVER GIVEN" "vessel" Script.start
    = (Ok (kept ++ legacy), w')
    /\ key_of <$> kept = [PStr "NK-1"; PStr "NK-2"; PStr ""].
Proof.
  eassert (Hs : aggregator_search overlapping_searches "EVER GIVEN"
                  (resolve_type "EVER GIVEN" "vessel") "sanctions" ["sanction"]
                  Script.start = (Ok _, _)) by (vm_compute; reflexivity).
  match type of Hs with
  | _ = (Ok ?s, ?wa) =>
      eassert (Hb : aggregator_search overlapping_searches "EVER GIVEN"
                      (resolve_type "EVER GIVEN" "vessel") "default" [] wa
                    = (Ok _, _)) by (vm_compute; reflexivity);
      match type of Hb with
      | _ = (Ok ?b, _) =>
          eassert (Hk : unique_matches [] (s ++ b) = Ok _)
            by (vm_compute; reflexivity)
      end
  end.
  destruct (aggregator_dedup_first_wins overlapping_searches "EVER GIVEN" "vessel"
              _ _ _ _ _ _ Hs Hb Hk) as ((d1 & d2 & d3 & w' & Hrun) & _).
  eexists _, _, w'. split; [exact Hrun | reflexivity].
Defined.

(** Of two hits without an id the second is dropped, whatever its
    caption: the key falls back to the empty string, not to the caption. *)
Example hits_without_id_collapse :
  exists kept w',
    aggregator_block overlapping_searches "EVER GIVEN" "vessel" Script.start
    = (Ok kept, w')
    /\ Py.get (match details <$> kept !! 2%nat with
               | Some (PDict fields) => fields
               | _ => []
               end) "caption" PNone = PStr "Ever Giving"
    /\ length kept = 3%nat.
Proof. do 2 eexists. split; [vm_compute; reflexivity|]. split; reflexivity. Qed.

(** C5, as stated, fails: the two rows give two records from OFAC with the
    same dedup key, and both are returned. *)
Lemma legacy_duplicates_counterexample :
  exists m1 m2 w',
    check_single_entity ofac_twice "EVER GIVEN" "vessel" Script.start
    = (Ok [m1; m2], w')
    /\ sanction_list m1 = "OFAC" /\ sanction_list m2 = "OFAC"
    /\ spec_dedup_key m1 = NormalizedName "ever given"
    /\ spec_dedup_key m2 = NormalizedName "ever given".
Proof. do 3 eexists. split; [vm_compute; reflexivity|]. repeat split. Qed.

(* ===================================================================== *)
(** ** [check_bulk_entities] *)
(* ===================================================================== *)

Lemma match_entities_run (E : Environment) (entities : list pyval)
    (dataset : string) (threshold : Q) (limit : Z) (w : World) :
  exists response,
    match_entities E entities dataset threshold limit w
    = (Ok response, requested w (match_request E entities dataset threshold limit))
    /\ (http E (match_request E entities dataset threshold limit) = TransportFailure ->
        response = PDict [("responses", PDict [])]).
Proof.
  unfold match_entities, session_request, raise_for_status, response_json, requested.
  unfold_monad.
  destruct (http E _) as [status body|]; simpl.
  - destruct ((400 <=? status)%Z && (status <? 600)%Z); simpl.
    + eexists. split; [reflexivity | discriminate].
    + destruct (json_loads E body); simpl; eexists; (split; [reflexivity | discriminate]).
  - eexists. split; reflexivity.
Qed.

(** C2: when the request to the matching API fails, [match_entities]
    swallows the failure and answers with no responses, so
    [check_bulk_entities] never reaches its fallback: it returns the empty
    mapping after that single request, with no entry for any entity. *)
Theorem bulk_outage_returns_nothing (E : Environment) (entities : list EntityQuery)
    (w : World) :
  http E (bulk_request E entities) = TransportFailure ->
  check_bulk_entities E entities w
  = (Ok ∅, requested w (bulk_request E entities)).
Proof.
  unfold bulk_request, check_bulk_entities. intros Hdown.
  destruct (prepare 0 entities [] ∅) as [prepared entity_mapping]. simpl in *.
  destruct (match_entities_run E prepared "sanctions" q07 5 w) as (response & -> & Hr).
  rewrite (Hr Hdown). reflexivity.
Qed.

Lemma bulk_outage_returns_nothing_witness :
  check_bulk_entities outage two_named Script.start
  = (Ok ∅, requested Script.start (bulk_request outage two_named)).
Proof. apply (bulk_outage_returns_nothing outage two_named Script.start). reflexivity. Defined.

(** The thresholds of the search path: at least 0.9 is exact, at least
    0.7 and below 0.9 is partial, below 0.7 is fuzzy. *)
Lemma search_match_type_thresholds (confidence : Q) :
  ((q09 <= confidence)%Q -> search_match_type confidence = "exact")
  /\ ((q07 <= confidence)%Q -> (confidence < q09)%Q ->
      search_match_type confidence = "partial")
  /\ ((confidence < q07)%Q -> search_match_type confidence = "fuzzy").
Proof.
  unfold search_match_type.
  destruct (Qle_bool q09 confidence) eqn:H9;
    destruct (Qle_bool q07 confidence) eqn:H7;
    repeat split; try reflexivity; intros;
    repeat match goal with
           | H : Qle_bool _ _ = true |- _ => apply Qle_bool_iff in H
           | H : Qle_bool ?a ?b = false |- _ =>
               assert (~ (a <= b)%Q) by (rewrite <- Qle_bool_iff; congruence); clear H
           | H : (_ < _)%Q |- _ => apply Qlt_not_le in H
           end;
    try contradiction.
  exfalso. unfold q07, q09, Qle in *. simpl in *. lia.
Qed.

(** The record a search hit yields carries the type its confidence has
    by these thresholds. *)
Lemma search_match_follows_thresholds (E : Environment) (name ty : string) (t : Z)
    (result : pyval) (m : SanctionMatch) :
  search_match E name ty t result = Ok m ->
  exists q, confidence m = PNum q /\ match_type m = search_match_type q.
Proof.
  unfold search_match. destruct (py_fields result); [|discriminate].
  destruct (similarity_to name _) as [q|]; [|discriminate].
  intros [= <-]. now exists q.
Qed.

(** The bulk path knows two types only. *)
Lemma bulk_match_type_two_valued (score : pyval) (kind : string) :
  bulk_match_type score = Ok kind -> kind = "fuzzy" \/ kind = "exact".
Proof.
  unfold bulk_match_type.
  destruct score as [|b|n|q| |s|l|items]; simpl; try discriminate.
  - intros [= <-]. destruct (negb _); auto.
  - intros [= <-]. destruct (negb _); auto.
  - intros [= <-]. destruct (negb _); auto.
  - intros [= <-]. auto.
Qed.

(** C4: on the bulk path a hit scored 0.75 is typed fuzzy, where the
    thresholds, and the search path, say partial. *)
Theorem bulk_match_type_skips_partial :
  bulk_match_type (PNum (3 # 4)) = Ok "fuzzy"
  /\ search_match_type (3 # 4) = "partial"
  /\ exists m w',
       check_bulk_entities scored_075
         [mkEntityQuery (Some "EVER GIVEN") (Some "vessel")] Script.start
       = (Ok {[ "EVER GIVEN" := [m] ]}, w')
       /\ confidence m = PNum (3 # 4)
       /\ match_type m = "fuzzy".
Proof.
  split; [reflexivity|]. split; [reflexivity|].
  do 2 eexists. split; [vm_compute; reflexivity|]. split; reflexivity.
Qed.

(** C9: the query ids of the request count the entities that were sent,
    the keys of [entity_mapping] count the entries of the input.  After an
    entry without a name the two differ by one: the answer to the query
    built from ALPHA is dropped, and the answer to the query built from
    BRAVO is returned under ALPHA. *)
Theorem bulk_rejoin_shifts_after_unnamed_entry :
  req_json (bulk_request answers_both shifted_batch)
  = Some (PDict [("queries",
                  PDict [("entity_0", _create_opensanctions_entity "ALPHA" "vessel");
                         ("entity_1", _create_opensanctions_entity "BRAVO" "vessel")]);
                 ("threshold", PNum q07); ("limit", PInt 5)])
  /\ (prepare 0 shifted_batch [] ∅).2
     = {[ "entity_1" := ("ALPHA", "vessel"); "entity_2" := ("BRAVO", "vessel") ]}
  /\ exists m w',
       check_bulk_entities answers_both shifted_batch Script.start
       = (Ok {[ "ALPHA" := [m] ]}, w')
       /\ details m = hit_bravo.
Proof.
  split; [reflexivity|]. split; [vm_compute; reflexivity|].
  do 2 eexists. split; [vm_compute; reflexivity | reflexivity].
Qed.

Lemma is_empty_false (s : string) : PyStr.is_empty s = false <-> s <> "".
Proof. destruct s; simpl; split; congruence. Qed.

Lemma prepare_entities (entities : list EntityQuery) :
  forall i prepared entity_mapping,
    (prepare i entities prepared entity_mapping).1
    = prepared ++ (query_of <$> named entities).
Proof.
  unfold named.
  induction entities as [|entity rest IH]; intros i prepared entity_mapping; simpl.
  - now rewrite app_nil_r.
  - destruct (PyStr.is_empty (name_of entity)) eqn:He.
    + apply is_empty_spec in He. rewrite filter_cons_False by (intros H; congruence).
      apply IH.
    + apply is_empty_false in He. rewrite filter_cons_True by exact He.
      rewrite IH, <- app_assoc. reflexivity.
Qed.

Lemma prepare_mapping_names (entities : list EntityQuery) :
  forall i prepared entity_mapping k name ty,
    (prepare i entities prepared entity_mapping).2 !! k = Some (name, ty) ->
    entity_mapping !! k = Some (name, ty)
    \/ (name <> "" /\ exists entity, entity ∈ entities /\ name_of entity = name).
Proof.
  induction entities as [|entity rest IH];
    intros i prepared entity_mapping k name ty; simpl.
  - auto.
  - destruct (PyStr.is_empty (name_of entity)) eqn:He; intros H.
    + apply IH in H as [H | (Hn & e & Hin & He')]; [now left|].
      right. split; [exact Hn|]. exists e. split; [now apply elem_of_cons; right | exact He'].
    + apply is_empty_false in He.
      apply IH in H as [H | (Hn & e & Hin & He')].
      * destruct (decide (entity_key i = k)) as [<-|Hne].
        -- rewrite lookup_insert_eq in H. injection H as <- _.
           right. split; [exact He|]. exists entity. split; [now apply elem_of_cons; left | reflexivity].
        -- rewrite lookup_insert_ne in H by exact Hne. now left.
      * right. split; [exact Hn|]. exists e. split; [now apply elem_of_cons; right | exact He'].
Qed.

Lemma process_responses_keys (E : Environment)
    (entity_mapping : gmap string (string * string)) (t : Z)
    (responses : list (string * pyval)) :
  forall (results results' : gmap string (list SanctionMatch)) err k,
    process_responses E entity_mapping t responses results = (err, results') ->
    is_Some (results' !! k) ->
    is_Some (results !! k) \/ exists query_id ty, entity_mapping !! query_id = Some (k, ty).
Proof.
  induction responses as [|[query_id response] rest IH];
    intros results results' err k; simpl.
  - intros [= _ <-]. auto.
  - destruct (entity_mapping !! query_id) as [[name ty]|] eqn:Hm; [|apply IH].
    destruct (bulk_matches E name ty t response) as [matches|e].
    + intros H Hk. destruct (IH _ _ _ _ H Hk) as [Hs | Hs]; [|now right].
      destruct (decide (name = k)) as [<-|Hne].
      * right. eauto.
      * rewrite lookup_insert_ne in Hs by exact Hne. now left.
    + intros [= _ <-]. auto.
Qed.

Lemma process_match_response_keys (E : Environment)
    (entity_mapping : gmap string (string * string)) (t : Z) (match_response : pyval)
    (results : gmap string (list SanctionMatch)) err k :
  process_match_response E entity_mapping t match_response = (err, results) ->
  is_Some (results !! k) ->
  exists query_id ty, entity_mapping !! query_id = Some (k, ty).
Proof.
  unfold process_match_response.
  destruct (py_fields match_response) as [fields|e].
  - destruct (py_fields (Py.get fields "responses" (PDict []))) as [responses|e].
    + intros H Hk. destruct (process_responses_keys _ _ _ _ _ _ _ _ H Hk) as [Hs|Hs];
        [|exact Hs].
      rewrite lookup_empty in Hs. now destruct Hs.
    + intros [= _ <-] Hk. rewrite lookup_empty in Hk. now destruct Hk.
  - intros [= _ <-] Hk. rewrite lookup_empty in Hk. now destruct Hk.
Qed.

Section BulkLog.

Context (E : Environment).

Lemma logs_response (response : Z * string) P :
  logs P (raise_for_status response;; response_json E response).
Proof.
  apply logs_bind.
  - unfold raise_for_status. destruct (_ && _); [apply logs_raise | apply logs_ret].
  - intros _. unfold response_json.
    destruct (json_loads E _); [apply logs_ret | apply logs_raise].
Qed.

Lemma logs_search_entities (query dataset : string) (limit : Z) (schema : string)
    (topics : list string) :
  query <> "" ->
  logs searches_named (search_entities E query dataset limit schema topics).
Proof.
  intros Hq. unfold search_entities.
  apply logs_try; [|intros _; apply logs_ret].
  apply logs_bind; [|intros response; apply logs_response].
  apply logs_session. unfold searches_named. simpl. congruence.
Qed.

Lemma logs_aggregator_search (name ty dataset : string) (topics : list string) :
  name <> "" ->
  logs searches_named (aggregator_search E name ty dataset topics).
Proof.
  intros Hq. unfold aggregator_search.
  apply logs_bind; [now apply logs_search_entities|]. intros response.
  apply logs_bind; [apply logs_lift|]. intros fields.
  destruct (Py.truthy _); [|apply logs_ret].
  unfold _process_opensanctions_results.
  apply logs_bind; [apply logs_now|]. intros t.
  destruct (py_iter _); [apply logs_lift | apply logs_raise].
Qed.

Lemma logs_aggregator_block (name ty : string) :
  name <> "" -> logs searches_named (aggregator_block E name ty).
Proof.
  intros Hq. unfold aggregator_block.
  apply logs_try; [|intros _; apply logs_ret].
  apply logs_bind; [now apply logs_aggregator_search|]. intros sanctions.
  apply logs_try; [|intros _; apply logs_ret].
  apply logs_bind; [now apply logs_aggregator_search|]. intros broader.
  apply logs_try; [apply logs_lift | intros _; apply logs_ret].
Qed.

Lemma logs_check_source (name ty source : string) (all_matches : list SanctionMatch) :
  logs searches_named (check_source E name ty all_matches source).
Proof.
  destruct (fetch_source E source) as [fetch|] eqn:Hf.
  - intros w o w' H.
    destruct (check_source_run E name ty source fetch all_matches w Hf)
      as (dt & _ & Hrun).
    rewrite Hrun in H. injection H as _ <-.
    exists dt, [legacy_request (source_endpoint source)]. split; [reflexivity|].
    constructor; [|constructor]. unfold searches_named. simpl. discriminate.
  - unfold check_source. rewrite Hf. apply logs_ret.
Qed.

Lemma logs_check_sources (name ty : string) (sources : list string) :
  forall all_matches,
    logs searches_named (check_sources E name ty sources all_matches).
Proof.
  induction sources as [|source rest IH]; intros all_matches; simpl.
  - apply logs_ret.
  - apply logs_bind; [apply logs_check_source | intros a; apply IH].
Qed.

Lemma logs_check_single_entity (name ty : string) :
  name <> "" -> logs searches_named (check_single_entity E name ty).
Proof.
  intros Hq. unfold check_single_entity.
  apply logs_bind; [now apply logs_aggregator_block|].
  intros a. apply logs_check_sources.
Qed.

(** The fallback loop: it never raises, searches for named entries only
    and adds keys for named entries only. *)
Lemma individual_checks_run (entities : list EntityQuery) :
  forall (results : gmap string (list SanctionMatch)) (w : World),
  exists results' dt rs,
    individual_checks E entities results w = (Ok results', later w dt rs)
    /\ Forall searches_named rs
    /\ forall k, is_Some (results' !! k) ->
         is_Some (results !! k)
         \/ (k <> "" /\ exists entity, entity ∈ entities /\ name_of entity = k).
Proof.
  induction entities as [|entity rest IH]; intros results w; simpl.
  - exists results, 0%Z, []. rewrite later_zero. repeat split; auto.
  - destruct (PyStr.is_empty (name_of entity)) eqn:He.
    + destruct (IH results w) as (results' & dt & rs & Hrun & Hlog & Hkeys).
      exists results', dt, rs. repeat split; [exact Hrun | exact Hlog |].
      intros k Hk. destruct (Hkeys k Hk) as [H | (Hn & e & Hin & Hname)]; [now left|].
      right. split; [exact Hn|]. exists e. split; [now apply elem_of_cons; right | exact Hname].
    + apply is_empty_false in He.
      destruct (check_single_entity_safe E (name_of entity) (type_of entity) w)
        as (matches & w1 & Hcheck).
      destruct (logs_check_single_entity _ (type_of entity) He _ _ _ Hcheck)
        as (d1 & r1 & -> & Hlog1).
      destruct (IH (<[name_of entity := matches]> results) (later w d1 r1))
        as (results' & d2 & r2 & Hrun & Hlog2 & Hkeys).
      exists results', (d1 + d2)%Z, (r1 ++ r2). split; [|split].
      * unfold_monad. rewrite Hcheck, Hrun. now rewrite later_later.
      * now apply Forall_app.
      * intros k Hk. destruct (Hkeys k Hk) as [H | (Hn & e & Hin & Hname)].
        -- destruct (decide (name_of entity = k)) as [<-|Hne].
           ++ right. split; [exact He|]. exists entity.
              split; [now apply elem_of_cons; left | reflexivity].
           ++ rewrite lookup_insert_ne in H by exact Hne. now left.
        -- right. split; [exact Hn|]. exists e.
           split; [now apply elem_of_cons; right | exact Hname].
Qed.

End BulkLog.

(** The skip itself: an entry of the batch without a name is passed over.
    The request to the matching API carries one query for each named
    entry, in the order of the input, and none for the others; whatever
    follows searches for named entries only; the mapping returned has no
    key for the empty name, and each of its keys is the name of a named
    entry. *)
Lemma bulk_skips_unnamed_entries (E : Environment) (entities : list EntityQuery)
    (w : World) :
  exists results dt rest,
    check_bulk_entities E entities w
    = (Ok results,
       later w dt (match_request E (query_of <$> named entities) "sanctions" q07 5
                   :: rest))
    /\ Forall searches_named rest
    /\ results !! "" = None
    /\ forall k, is_Some (results !! k) ->
         k <> "" /\ exists entity, entity ∈ entities /\ name_of entity = k.
Proof.
  assert (Hkeys_none : forall results : gmap string (list SanctionMatch),
             (forall k, is_Some (results !! k) ->
                k <> "" /\ exists entity, entity ∈ entities /\ name_of entity = k) ->
             results !! "" = None).
  { intros results H. destruct (results !! "") eqn:Hr; [|reflexivity].
    destruct (H "") as [Hne _]; [now rewrite Hr | contradiction]. }
  pose proof (prepare_entities entities 0 [] ∅) as Hprep.
  pose proof (prepare_mapping_names entities 0 [] ∅) as Hmap.
  unfold check_bulk_entities.
  destruct (prepare 0 entities [] ∅) as [prepared entity_mapping].
  simpl in Hprep, Hmap. subst prepared.
  set (request := match_request E (query_of <$> named entities) "sanctions" q07 5).
  destruct (match_entities_run E (query_of <$> named entities) "sanctions" q07 5 w)
    as (response & -> & _).
  fold request.
  assert (Hmapped : forall k query_id ty,
             entity_mapping !! query_id = Some (k, ty) ->
             k <> "" /\ exists entity, entity ∈ entities /\ name_of entity = k).
  { intros k query_id ty H. destruct (Hmap _ _ _ H) as [H0|H0]; [|exact H0].
    rewrite lookup_empty in H0. discriminate H0. }
  destruct (process_match_response E entity_mapping _ response)
    as [[e|] partial] eqn:Hproc.
  - destruct (individual_checks_run E entities partial (requested w request))
      as (results & dt & rs & Hrun & Hlog & Hkeys).
    assert (Hall : forall k, is_Some (results !! k) ->
               k <> "" /\ exists entity, entity ∈ entities /\ name_of entity = k).
    { intros k Hk. destruct (Hkeys k Hk) as [Hp | Hn]; [|exact Hn].
      destruct (process_match_response_keys _ _ _ _ _ _ _ Hproc Hp) as (q & ty & Hq).
      eapply Hmapped. exact Hq. }
    exists results, dt, rs. split; [|split; [exact Hlog | split; [now apply Hkeys_none | exact Hall]]].
    rewrite Hrun. f_equal. unfold later, requested. simpl.
    now rewrite <- app_assoc.
  - assert (Hall : forall k, is_Some (partial !! k) ->
               k <> "" /\ exists entity, entity ∈ entities /\ name_of entity = k).
    { intros k Hk.
      destruct (process_match_response_keys _ _ _ _ _ _ _ Hproc Hk) as (q & ty & Hq).
      eapply Hmapped. exact Hq. }
    exists partial, 0%Z, []. split; [|split; [constructor | split; [now apply Hkeys_none | exact Hall]]].
    f_equal. unfold later, requested. f_equal. lia.
Qed.

Lemma bulk_skips_unnamed_entries_witness :
  exists results w',
    check_bulk_entities scored_075 batch_with_gap Script.start = (Ok results, w')
    /\ results !! "" = None
    /\ exists entity, entity ∈ batch_with_gap /\ name_of entity = "EVER GIVEN".
Proof.
  destruct (bulk_skips_unnamed_entries scored_075 batch_with_gap Script.start)
    as (results & dt & rest & Hrun & _ & Hnone & Hkeys).
  exists results. eexists. split; [exact Hrun|]. split; [exact Hnone|].
  apply (Hkeys "EVER GIVEN").
  assert (Hres : results
                 = match (check_bulk_entities scored_075 batch_with_gap
                            Script.start).1 with
                   | Ok found => found
                   | Raise _ => ∅
                   end) by (rewrite Hrun; reflexivity).
  rewrite Hres. vm_compute. eexists. reflexivity.
Defined.

(** C10: the entry without a name gets no query and no key, but the
    entries after it are not processed as the others are.  In the batch
    ALPHA, an entry without a name, BRAVO, the matching API is asked about
    ALPHA and BRAVO under the ids entity_0 and entity_1 and answers both.
    [entity_mapping] holds BRAVO under entity_2, the position it has in
    the input, so the answer to its query is dropped: the mapping returned
    has the records of ALPHA and no key for BRAVO, and after the one
    request nothing else is tried for it. *)
Theorem bulk_skip_loses_later_entry :
  queries_of (bulk_request answers_both gap_inside)
  = [("entity_0", query_of entry_alpha); ("entity_1", query_of entry_bravo)]
  /\ (prepare 0 gap_inside [] ∅).2
     = {[ "entity_0" := ("ALPHA", "vessel"); "entity_2" := ("BRAVO", "vessel") ]}
  /\ answer_or answers_both (bulk_request answers_both gap_inside) PNone
     = PDict [("responses", PDict
         [("entity_0", PDict [("results", PList [hit_alpha])]);
          ("entity_1", PDict [("results", PList [hit_bravo])])])]
  /\ exists results m w',
       check_bulk_entities answers_both gap_inside Script.start = (Ok results, w')
       /\ net_log w' = [bulk_request answers_both gap_inside]
       /\ results !! "ALPHA" = Some [m] /\ details m = hit_alpha
       /\ results !! "BRAVO" = None
       /\ results !! "" = None.
Proof.
  split; [vm_compute; reflexivity|]. split; [vm_compute; reflexivity|].
  split; [vm_compute; reflexivity|].
  eexists {[ "ALPHA" := [_] ]}, _, _. split; [vm_compute; reflexivity|].
  split; [vm_compute; reflexivity|]. split; [vm_compute; reflexivity|].
  split; [vm_compute; reflexivity|]. split; vm_compute; reflexivity.
Qed.

(* ===================================================================== *)
(** ** Further properties of the text functions *)
(* ===================================================================== *)

Lemma rstrip_idempotent (s : string) :
  PyStr.rstrip (PyStr.rstrip s) = PyStr.rstrip s.
Proof.
  induction s as [|c s IH]; simpl; [reflexivity|].
  destruct (PyStr.isspace c && PyStr.is_empty (PyStr.rstrip s)) eqn:Hc; simpl.
  - reflexivity.
  - now rewrite IH, Hc.
Qed.

Lemma lstrip_clean (s : string) : starts_clean s = true -> PyStr.lstrip s = s.
Proof.
  destruct s as [|c s]; simpl; [reflexivity|].
  now destruct (PyStr.isspace c).
Qed.

Lemma starts_clean_lstrip (s : string) : starts_clean (PyStr.lstrip s) = true.
Proof.
  induction s as [|c s IH]; simpl; [reflexivity|].
  destruct (PyStr.isspace c) eqn:Hc; [exact IH|]. simpl. now rewrite Hc.
Qed.

Lemma starts_clean_rstrip (s : string) :
  starts_clean s = true -> starts_clean (PyStr.rstrip s) = true.
Proof.
  destruct s as [|c s]; simpl; [reflexivity|].
  intros Hc. apply negb_true_iff in Hc. rewrite Hc. simpl. now rewrite Hc.
Qed.

Lemma strip_idempotent (s : string) : PyStr.strip (PyStr.strip s) = PyStr.strip s.
Proof.
  unfold PyStr.strip.
  rewrite (lstrip_clean (PyStr.rstrip (PyStr.lstrip s))).
  - apply rstrip_idempotent.
  - apply starts_clean_rstrip, starts_clean_lstrip.
Qed.

Lemma normalize_text_shape (s : string) :
  punctuation_free (_normalize_text s) = true
  /\ PyStr.lower (_normalize_text s) = _normalize_text s.
Proof.
  unfold _normalize_text, punctuation_free.
  destruct (PyStr.is_empty s); [split; reflexivity|]. split.
  - apply sforall_sfilter_self.
  - apply smap_fixed. unfold remove_punctuation.
    apply sforall_sfilter, sforall_strip, sforall_lower.
Qed.

(** X1: what [_normalize_text] returns holds no punctuation and no upper
    case; a second pass only strips it, and from the second pass on the
    text no longer changes. *)
Theorem normalize_text_settles (s : string) :
  punctuation_free (_normalize_text s) = true
  /\ PyStr.lower (_normalize_text s) = _normalize_text s
  /\ _normalize_text (_normalize_text s) = PyStr.strip (_normalize_text s)
  /\ _normalize_text (_normalize_text (_normalize_text s))
     = _normalize_text (_normalize_text s).
Proof.
  destruct (normalize_text_shape s) as [Hp Hl].
  split; [exact Hp|]. split; [exact Hl|]. split; [apply normalize_text_twice|].
  rewrite (normalize_text_twice (_normalize_text s)).
  rewrite (normalize_text_twice s). apply strip_idempotent.
Qed.

Lemma isword_lower (c : ascii) :
  PyStr.isword c || PyStr.isspace c = true ->
  PyStr.isword (PyStr.lower_char c) || PyStr.isspace (PyStr.lower_char c) = true.
Proof. destruct c as [[] [] [] [] [] [] [] []]; vm_compute; auto. Qed.

Lemma punctuation_free_lower (s : string) :
  punctuation_free s = true -> punctuation_free (PyStr.lower s) = true.
Proof.
  unfold punctuation_free, PyStr.lower.
  induction s as [|c s IH]; simpl; [reflexivity|].
  rewrite !andb_true_iff. intros [Hc Hs]. split; [now apply isword_lower | auto].
Qed.

(** X2: on text without punctuation [_normalize_text] is idempotent. *)
Theorem normalize_text_idempotent_without_punctuation (s : string) :
  punctuation_free s = true ->
  _normalize_text (_normalize_text s) = _normalize_text s.
Proof.
  intros Hs. rewrite normalize_text_twice. unfold _normalize_text.
  destruct (PyStr.is_empty s); [reflexivity|].
  unfold remove_punctuation. rewrite sfilter_all.
  - apply strip_idempotent.
  - apply sforall_strip. now apply punctuation_free_lower.
Qed.

Lemma normalize_text_idempotent_without_punctuation_witness :
  _normalize_text (_normalize_text "  MV Ocean_Star 7 ") = _normalize_text "  MV Ocean_Star 7 ".
Proof.
  apply (normalize_text_idempotent_without_punctuation "  MV Ocean_Star 7 ").
  reflexivity.
Defined.

Lemma lower_lower (s : string) : PyStr.lower (PyStr.lower s) = PyStr.lower s.
Proof. apply smap_fixed, sforall_lower. Qed.

Lemma is_empty_lower (s : string) : PyStr.is_empty (PyStr.lower s) = PyStr.is_empty s.
Proof. now destruct s. Qed.

Lemma normalize_text_lower (s : string) :
  _normalize_text (PyStr.lower s) = _normalize_text s.
Proof. unfold _normalize_text. now rewrite is_empty_lower, lower_lower. Qed.

(** X3: the score ignores letter case, and it is symmetric. *)
Theorem calculate_similarity_case_and_order (a b : string) :
  _calculate_similarity (PyStr.lower a) (PyStr.lower b) = _calculate_similarity a b
  /\ _calculate_similarity a b = _calculate_similarity b a.
Proof.
  unfold _calculate_similarity. split.
  - now rewrite !is_empty_lower, !normalize_text_lower.
  - rewrite (orb_comm (PyStr.is_empty a)).
    destruct (PyStr.is_empty b || PyStr.is_empty a); [reflexivity|].
    rewrite (String.eqb_sym (_normalize_text a)).
    destruct (String.eqb (_normalize_text b) (_normalize_text a)); [reflexivity|].
    rewrite (orb_comm (set_is_empty (word_set (_normalize_text a)))).
    destruct (set_is_empty _ || set_is_empty _); [reflexivity|].
    now rewrite (intersection_comm_L (word_set (_normalize_text a))),
                (union_comm_L (word_set (_normalize_text a))).
Qed.

Lemma ratio_same (n : nat) :
  (0 < n)%nat -> (inject_Z (Z.of_nat n) / inject_Z (Z.of_nat n) == 1)%Q.
Proof.
  intros Hn. apply Qmult_inv_r. intros H.
  unfold Qeq in H. simpl in H. lia.
Qed.

(** X4: the score looks at the set of tokens only.  Two names with the
    same tokens, in any order and with any repetition, score 1; two names
    without a common token score 0. *)
Theorem calculate_similarity_by_tokens (a b : string) :
  a <> "" -> b <> "" -> tokens a <> ∅ ->
  (tokens a = tokens b -> (_calculate_similarity a b == 1)%Q)
  /\ (tokens a ∩ tokens b = ∅ -> (_calculate_similarity a b == 0)%Q).
Proof.
  intros Ha Hb HA. unfold _calculate_similarity, tokens in *.
  apply is_empty_false in Ha, Hb. rewrite Ha, Hb. simpl.
  set (A := word_set (_normalize_text a)) in *.
  set (B := word_set (_normalize_text b)) in *.
  assert (HAe : set_is_empty A = false).
  { destruct (set_is_empty A) eqn:H; [|reflexivity].
    apply set_is_empty_spec in H. contradiction. }
  split.
  - intros Heq. destruct (String.eqb _ _); [reflexivity|].
    rewrite <- Heq, HAe. simpl.
    replace (A ∩ A) with A by (symmetry; apply (idemp_L (∩))).
    replace (A ∪ A) with A by (symmetry; apply (idemp_L (∪))).
    apply ratio_same. apply Nat.neq_0_lt_0. intros H0.
    apply size_empty_iff in H0. apply HA. now apply leibniz_equiv.
  - intros Hdis. destruct (String.eqb _ _) eqn:Hn.
    + apply String.eqb_eq in Hn. exfalso. apply HA.
      unfold A, B in *. rewrite <- Hn in Hdis.
      now rewrite (idemp_L (∩)) in Hdis.
    + rewrite HAe. simpl. destruct (set_is_empty B); [reflexivity|].
      rewrite Hdis, size_empty. simpl. unfold Qdiv. apply Qmult_0_l.
Qed.

Lemma calculate_similarity_by_tokens_witness :
  (_calculate_similarity "GIVEN, Ever given" "EVER GIVEN" == 1)%Q
  /\ (_calculate_similarity "EVER GIVEN" "OCEAN STAR" == 0)%Q.
Proof.
  split.
  - apply (proj1 (calculate_similarity_by_tokens "GIVEN, Ever given" "EVER GIVEN"
                    ltac:(discriminate) ltac:(discriminate)
                    ltac:(intros H; apply set_is_empty_spec in H;
                          vm_compute in H; discriminate H))).
    vm_compute. reflexivity.
  - apply (proj2 (calculate_similarity_by_tokens "EVER GIVEN" "OCEAN STAR"
                    ltac:(discriminate) ltac:(discriminate)
                    ltac:(intros H; apply set_is_empty_spec in H;
                          vm_compute in H; discriminate H))).
    vm_compute. reflexivity.
Defined.

(* ===================================================================== *)
(** ** Further properties of the entity types *)
(* ===================================================================== *)

(** X5: [_detect_entity_type] answers vessel, company or person, so a
    detected type always has a schema of its own, never the default
    [Thing]; and the type a call goes on with is never ['auto']. *)
Theorem detected_type_has_schema (name ty : string) :
  (_detect_entity_type name = "vessel"
   \/ _detect_entity_type name = "company"
   \/ _detect_entity_type name = "person")
  /\ _map_entity_type_to_schema (_detect_entity_type name) <> "Thing"
  /\ resolve_type name ty <> "auto".
Proof.
  assert (H : _detect_entity_type name = "vessel"
              \/ _detect_entity_type name = "company"
              \/ _detect_entity_type name = "person").
  { unfold _detect_entity_type.
    destruct (any_indicator vessel_indicators _); [auto|].
    destruct (any_indicator company_indicators _); [auto|].
    destruct (_ && _); auto. }
  split; [exact H|]. split.
  - destruct H as [-> | [-> | ->]]; discriminate.
  - unfold resolve_type. destruct (String.eqb ty "auto") eqn:Hty.
    + destruct H as [-> | [-> | ->]]; discriminate.
    + now apply String.eqb_neq.
Qed.

Lemma isspace_lower (c : ascii) : PyStr.isspace (PyStr.lower_char c) = PyStr.isspace c.
Proof. destruct c as [[] [] [] [] [] [] [] []]; reflexivity. Qed.

Lemma isdigit_lower (c : ascii) : PyStr.isdigit (PyStr.lower_char c) = PyStr.isdigit c.
Proof. destruct c as [[] [] [] [] [] [] [] []]; reflexivity. Qed.

Lemma split_from_lower (s : string) :
  PyStr.split_from (PyStr.lower s)
  = (PyStr.lower (PyStr.split_from s).1, PyStr.lower <$> (PyStr.split_from s).2).
Proof.
  unfold PyStr.lower. induction s as [|c s IH]; simpl; [reflexivity|].
  rewrite IH, isspace_lower. destruct (PyStr.split_from s) as [w ws]. simpl.
  destruct (PyStr.isspace c); [|reflexivity].
  f_equal. unfold PyStr.cons_word. now destruct w.
Qed.

Lemma split_lower (s : string) :
  PyStr.split (PyStr.lower s) = PyStr.lower <$> PyStr.split s.
Proof.
  unfold PyStr.split. rewrite split_from_lower.
  destruct (PyStr.split_from s) as [w ws]. simpl.
  unfold PyStr.cons_word. now destruct w.
Qed.

Lemma has_digit_lower (s : string) :
  PyStr.sexists PyStr.isdigit (PyStr.lower s) = PyStr.sexists PyStr.isdigit s.
Proof.
  unfold PyStr.lower. induction s as [|c s IH]; simpl; [reflexivity|].
  now rewrite isdigit_lower, IH.
Qed.

(** X6: the detected type does not depend on letter case. *)
Theorem detect_entity_type_ignores_case (name : string) :
  _detect_entity_type (PyStr.lower name) = _detect_entity_type name.
Proof.
  unfold _detect_entity_type.
  now rewrite lower_lower, split_lower, length_fmap, has_digit_lower.
Qed.

(* ===================================================================== *)
(** ** The client and the query ids *)
(* ===================================================================== *)

Lemma client_call_run (E : Environment) (r : Request) (fallback : pyval) (w : World) :
  try_except
    (response ← session_request E r;
     raise_for_status response;;
     response_json E response)
    is_request_exception
    (fun _ => mret fallback) w
  = (Ok (answer_or E r fallback), requested w r).
Proof.
  unfold session_request, raise_for_status, response_json, requested, answer_or.
  unfold_monad.
  destruct (http E r) as [status body|]; simpl; [|reflexivity].
  destruct ((400 <=? status)%Z && (status <? 600)%Z); simpl; [reflexivity|].
  now destruct (json_loads E body).
Qed.

(** X7: the four calls of the client never raise and send one request
    each.  When the transport fails, the status is an error or the body
    is not JSON, [search_entities] returns the empty result,
    [match_entities] no responses, [get_entity_details] nothing and
    [get_catalog] an empty catalog; otherwise the decoded body.  The limit
    of a search is capped at 500. *)
Theorem client_absorbs_request_failures (E : Environment) (w : World) :
  (forall query dataset limit schema topics,
     search_entities E query dataset limit schema topics w
     = (Ok (answer_or E (search_request E query dataset limit schema topics)
              empty_search_response),
        requested w (search_request E query dataset limit schema topics))
     /\ exists capped,
          Py.get (req_params (search_request E query dataset limit schema topics))
            "limit" PNone = PInt capped
          /\ (capped <= 500)%Z /\ (capped <= limit)%Z)
  /\ (forall entities dataset threshold limit,
        match_entities E entities dataset threshold limit w
        = (Ok (answer_or E (match_request E entities dataset threshold limit)
                 (PDict [("responses", PDict [])])),
           requested w (match_request E entities dataset threshold limit)))
  /\ (forall entity_id,
        get_entity_details E entity_id w
        = (Ok (answer_or E (entity_details_request E entity_id) PNone),
           requested w (entity_details_request E entity_id)))
  /\ get_catalog E w
     = (Ok (answer_or E (catalog_request E) (PDict [("datasets", PList [])])),
        requested w (catalog_request E)).
Proof.
  split; [|split; [|split]].
  - intros query dataset limit schema topics. split.
    + apply client_call_run.
    + exists (Z.min limit 500). split; [reflexivity | lia].
  - intros entities dataset threshold limit. apply client_call_run.
  - intros entity_id. apply client_call_run.
  - apply client_call_run.
Qed.

Lemma to_uint_nonnil (n : nat) : Nat.to_uint n <> Decimal.Nil.
Proof.
  rewrite <- (DecimalNat.Unsigned.of_to n) at 1.
  rewrite DecimalNat.Unsigned.to_of. apply DecimalFacts.unorm_nonnil.
Qed.

Lemma string_of_nat_inj (i j : nat) : string_of_nat i = string_of_nat j -> i = j.
Proof.
  unfold string_of_nat. intros H.
  apply (f_equal NilZero.uint_of_string) in H.
  rewrite !NilZero.usu in H by apply to_uint_nonnil.
  injection H as H. now apply DecimalNat.Unsigned.to_uint_inj.
Qed.

Lemma entity_key_inj (i j : nat) : entity_key i = entity_key j -> i = j.
Proof.
  unfold entity_key. simpl. intros H. injection H as H.
  now apply string_of_nat_inj.
Qed.

Lemma entity_key_eqb (i j : nat) :
  String.eqb (entity_key i) (entity_key j) = bool_decide (i = j).
Proof.
  destruct (decide (i = j)) as [->|Hne].
  - rewrite String.eqb_refl. now rewrite bool_decide_eq_true_2.
  - rewrite bool_decide_eq_false_2 by exact Hne.
    apply String.eqb_neq. intros H. now apply entity_key_inj in H.
Qed.

Lemma get_numbered (entities : list pyval) :
  forall k i d,
    Py.get (imap (fun j entity => (entity_key (k + j), entity)) entities)
      (entity_key (k + i)) d
    = default d (entities !! i).
Proof.
  induction entities as [|entity rest IH]; intros k i d; [reflexivity|].
  rewrite imap_cons. cbn [Py.get]. rewrite entity_key_eqb.
  destruct i as [|i].
  - rewrite bool_decide_eq_true_2 by lia. reflexivity.
  - rewrite bool_decide_eq_false_2 by lia. cbn [lookup list_lookup].
    etransitivity; [|apply (IH (S k) i d)].
    replace (S k + i)%nat with (k + S i)%nat by lia. f_equal.
    apply imap_ext. intros j x _. unfold compose.
    now replace (S k + j)%nat with (k + S j)%nat by lia.
Qed.

(** X8: in the request of [match_entities] the [i]-th entity is found
    under the query id [entity_i], and no entity under an id beyond the
    list: numbering and lookup round-trip. *)
Theorem match_queries_lookup (E : Environment) (entities : list pyval)
    (dataset : string) (threshold : Q) (limit : Z) (i : nat) :
  Py.get (queries_of (match_request E entities dataset threshold limit))
    (entity_key i) PNone
  = default PNone (entities !! i).
Proof.
  unfold queries_of, match_request, match_queries. simpl.
  apply (get_numbered entities 0 i PNone).
Qed.

Lemma prepare_lookup (entities : list EntityQuery) :
  forall i0 prepared entity_mapping k,
    (prepare i0 entities prepared entity_mapping).2 !! entity_key k
    = match (if (i0 <=? k)%nat then entities !! (k - i0)%nat else None) with
      | Some entity =>
          if PyStr.is_empty (name_of entity) then entity_mapping !! entity_key k
          else Some (mapped entity)
      | None => entity_mapping !! entity_key k
      end.
Proof.
  induction entities as [|entity rest IH]; intros i0 prepared entity_mapping k.
  - simpl. now destruct (i0 <=? k)%nat.
  - cbn [prepare].
    assert (Hrest : (if (S i0 <=? k)%nat then rest !! (k - S i0)%nat else None)
                    = if (i0 <=? k)%nat
                      then (if bool_decide (k = i0) then None
                            else (entity :: rest) !! (k - i0)%nat)
                      else None).
    { destruct (Nat.leb_spec (S i0) k) as [Hle|Hgt].
      - rewrite (proj2 (Nat.leb_le i0 k)) by lia.
        rewrite bool_decide_eq_false_2 by lia.
        replace (k - i0)%nat with (S (k - S i0)) by lia. reflexivity.
      - destruct (Nat.leb_spec i0 k) as [Hle|Hgt']; [|reflexivity].
        now rewrite bool_decide_eq_true_2 by lia. }
    destruct (PyStr.is_empty (name_of entity)) eqn:He.
    + rewrite IH, Hrest. destruct (Nat.leb_spec i0 k) as [Hle|Hgt]; [|reflexivity].
      destruct (decide (k = i0)) as [->|Hne].
      * rewrite bool_decide_eq_true_2 by reflexivity.
        rewrite Nat.sub_diag. simpl. now rewrite He.
      * now rewrite bool_decide_eq_false_2 by exact Hne.
    + rewrite IH, Hrest. destruct (Nat.leb_spec i0 k) as [Hle|Hgt].
      * destruct (decide (k = i0)) as [->|Hne].
        -- rewrite bool_decide_eq_true_2 by reflexivity.
           rewrite Nat.sub_diag. simpl. rewrite He. unfold mapped.
           apply lookup_insert_eq.
        -- rewrite bool_decide_eq_false_2 by exact Hne.
           assert (Hk : entity_key i0 <> entity_key k).
           { intros H. apply entity_key_inj in H. congruence. }
           destruct ((entity :: rest) !! (k - i0)%nat) as [e|];
             [destruct (PyStr.is_empty (name_of e)); [|reflexivity]|];
             now apply lookup_insert_ne.
      * assert (Hk : entity_key i0 <> entity_key k).
        { intros H. apply entity_key_inj in H. lia. }
        now apply lookup_insert_ne.
Qed.

(** X9: [entity_mapping] has the key [entity_i] exactly for the positions
    [i] of the input that carry a name, and holds the name and the type of
    that entry under it. *)
Theorem entity_mapping_lookup (entities : list EntityQuery) (i : nat) :
  (prepare 0 entities [] ∅).2 !! entity_key i
  = match entities !! i with
    | Some entity =>
        if PyStr.is_empty (name_of entity) then None else Some (mapped entity)
    | None => None
    end.
Proof.
  rewrite prepare_lookup. simpl. rewrite Nat.sub_0_r.
  destruct (entities !! i) as [entity|]; [|reflexivity].
  now destruct (PyStr.is_empty (name_of entity)).
Qed.

Lemma named_lookup_before_gap (entities : list EntityQuery) :
  forall i entity,
    (forall j earlier, (j < i)%nat -> entities !! j = Some earlier ->
                       name_of earlier <> "") ->
    entities !! i = Some entity -> name_of entity <> "" ->
    named entities !! i = Some entity.
Proof.
  unfold named.
  induction entities as [|first rest IH]; intros i entity Hbefore Hi Hname;
    [discriminate Hi|].
  destruct i as [|i]; simpl in Hi.
  - injection Hi as ->. now rewrite filter_cons_True by exact Hname.
  - rewrite filter_cons_True by (apply (Hbefore 0%nat first); [lia | reflexivity]).
    simpl. apply IH; [|exact Hi | exact Hname].
    intros j earlier Hj Hjth. apply (Hbefore (S j) earlier); [lia | exact Hjth].
Qed.

(** X10: as long as no entry before it lacks a name, a named entry is sent
    under the query id that [entity_mapping] files it under, so its answer
    is rejoined to it. *)
Theorem bulk_ids_agree_before_first_gap (E : Environment)
    (entities : list EntityQuery) (i : nat) (entity : EntityQuery) :
  (forall j earlier, (j < i)%nat -> entities !! j = Some earlier ->
                     name_of earlier <> "") ->
  entities !! i = Some entity -> name_of entity <> "" ->
  Py.get (queries_of (bulk_request E entities)) (entity_key i) PNone = query_of entity
  /\ (prepare 0 entities [] ∅).2 !! entity_key i = Some (mapped entity).
Proof.
  intros Hbefore Hi Hname. split.
  - unfold bulk_request, queries_of, match_request, match_queries. simpl.
    rewrite prepare_entities. simpl.
    rewrite (get_numbered (query_of <$> named entities) 0 i PNone).
    rewrite list_lookup_fmap.
    now rewrite (named_lookup_before_gap entities i entity Hbefore Hi Hname).
  - rewrite prepare_lookup. simpl. rewrite Nat.sub_0_r, Hi.
    apply is_empty_false in Hname. now rewrite Hname.
Qed.

Lemma bulk_ids_agree_before_first_gap_witness :
  Py.get (queries_of (bulk_request outage two_named)) (entity_key 1) PNone
  = query_of (mkEntityQuery (Some "John Smith") None)
  /\ (prepare 0 two_named [] ∅).2 !! entity_key 1
     = Some (mapped (mkEntityQuery (Some "John Smith") None)).
Proof.
  apply (bulk_ids_agree_before_first_gap outage two_named 1
           (mkEntityQuery (Some "John Smith") None)).
  - intros j earlier Hj Hjth. destruct j as [|j]; [|lia].
    injection Hjth as <-. discriminate.
  - reflexivity.
  - discriminate.
Defined.

(* ===================================================================== *)
(** ** The records of the two paths *)
(* ===================================================================== *)

Lemma similarity_bounds (a b : string) : (0 <= _calculate_similarity a b <= 1)%Q.
Proof.
  unfold _calculate_similarity.
  destruct (PyStr.is_empty a || PyStr.is_empty b); [split; discriminate|].
  destruct (String.eqb _ _); [split; discriminate|].
  set (A := word_set (_normalize_text a)).
  set (B := word_set (_normalize_text b)).
  destruct (set_is_empty A) eqn:HA; [split; discriminate|].
  destruct (set_is_empty B); [split; discriminate|]. simpl.
  apply ratio_bounds.
  - apply subseteq_size. intros x Hx.
    apply elem_of_intersection in Hx. apply elem_of_union. tauto.
  - apply Nat.neq_0_lt_0. intros H0. apply size_empty_iff in H0.
    assert (HA' : A = ∅) by set_solver.
    apply set_is_empty_spec in HA'. congruence.
Qed.

Lemma typed_by_search (q : Q) : typed_by_thresholds q (search_match_type q).
Proof.
  unfold typed_by_thresholds, search_match_type.
  destruct (Qle_bool q09 q) eqn:H9.
  - left. split; [now apply Qle_bool_iff | reflexivity].
  - assert (H9' : (q < q09)%Q).
    { apply Qnot_le_lt. rewrite <- Qle_bool_iff. congruence. }
    destruct (Qle_bool q07 q) eqn:H7.
    + right. left. split; [now apply Qle_bool_iff | auto].
    + right. right. split; [|reflexivity].
      apply Qnot_le_lt. rewrite <- Qle_bool_iff. congruence.
Qed.

Lemma search_match_record (E : Environment) (name ty : string) (t : Z)
    (hit : pyval) :
  match search_match E name ty t hit with
  | Ok m => search_record E name ty t hit m
  | Raise e => e = AttributeError
  end.
Proof.
  unfold search_match, search_record, py_fields.
  destruct hit as [|b|n|q| |s|l|fields]; try reflexivity.
  destruct (similarity_to name (Py.get fields "caption" (PStr ""))) as [q|e] eqn:Hq.
  - exists fields, q. repeat split; try reflexivity.
    + unfold similarity_to in Hq.
      destruct (Py.get fields "caption" (PStr ""));
        try (destruct (_ || _); [injection Hq as <-; discriminate | discriminate]).
      injection Hq as <-. apply similarity_bounds.
    + unfold similarity_to in Hq.
      destruct (Py.get fields "caption" (PStr ""));
        try (destruct (_ || _); [injection Hq as <-; discriminate | discriminate]).
      injection Hq as <-. apply similarity_bounds.
    + apply typed_by_search.
  - unfold similarity_to in Hq.
    destruct (Py.get fields "caption" (PStr ""));
      try (destruct (_ || _); [discriminate | now injection Hq as <-]).
    discriminate.
Qed.

Lemma collect_search_match (E : Environment) (name ty : string) (t : Z)
    (hits : list pyval) :
  match collect (search_match E name ty t) hits with
  | Ok ms => Forall2 (search_record E name ty t) hits ms
  | Raise e => e = AttributeError
  end.
Proof.
  induction hits as [|hit rest IH]; simpl; [constructor|].
  pose proof (search_match_record E name ty t hit) as Hhit.
  destruct (search_match E name ty t hit) as [m|e]; [|exact Hhit].
  destruct (collect _ rest) as [ms|e]; [|exact IH].
  now constructor.
Qed.

(** X11: [_process_opensanctions_results] builds one record per hit, in
    the order of the hits: each carries the queried name and type, the
    list OpenSanctions, the similarity of the name and the caption as its
    confidence, between 0 and 1, the match type that confidence has by
    the thresholds 0.9 and 0.7, and the hit's id as its key.  It raises
    only [AttributeError], on a hit that is no dict or whose caption is no
    text; the world is left as it was. *)
Theorem search_results_become_records (E : Environment) (hits : list pyval)
    (name ty : string) (w : World) :
  match _process_opensanctions_results E (PList hits) name ty w with
  | (Ok ms, w') => w' = w /\ Forall2 (search_record E name ty (clock w)) hits ms
  | (Raise e, w') => w' = w /\ e = AttributeError
  end.
Proof.
  unfold _process_opensanctions_results. unfold_monad. simpl.
  pose proof (collect_search_match E name ty (clock w) hits) as H.
  destruct (collect _ hits) as [ms|e]; auto.
Qed.

Lemma legacy_match_record (E : Environment) (name ty source kind : string) (q : Q)
    (df : DataFrame) (row : list pyval) (t : Z) :
  row ∈ rows df ->
  (kind = "exact" /\ q = 1%Q) \/ (kind = "partial" /\ (q07 < q)%Q /\ (q <= 1)%Q) ->
  match legacy_match name ty source kind q df row t with
  | Ok m => legacy_record name ty source t df m
  | Raise e => e = KeyError /\ sanction_source_url source = None
  end.
Proof.
  intros Hrow Hkind. unfold legacy_match, legacy_record.
  destruct (sanction_source_url source); [|auto]. simpl.
  repeat split; try reflexivity; [eauto|].
  destruct Hkind as [[-> ->] | (-> & Hlo & Hhi)]; [now left | right; eauto].
Qed.

Lemma scan_row_record (E : Environment) (name ty source : string) (df : DataFrame)
    (t : Z) (row : list pyval) (cols : list string) :
  row ∈ rows df ->
  match scan_row E name ty source df t row cols with
  | Ok (Some m) => legacy_record name ty source t df m
  | Ok None => True
  | Raise e => e = KeyError /\ sanction_source_url source = None
  end.
Proof.
  intros Hrow. induction cols as [|col cols IH]; simpl; [exact I|].
  destruct (Py.isna _); [exact IH|].
  destruct (String.eqb _ _).
  - pose proof (legacy_match_record E name ty source "exact" 1 df row t Hrow
                  (or_introl (conj eq_refl eq_refl))) as H.
    now destruct (legacy_match name ty source "exact" 1 df row t).
  - destruct (_ || _); [|exact IH].
    destruct (Qle_bool _ q07) eqn:Hq; simpl; [exact IH|].
    set (q := _calculate_similarity name _) in *.
    assert (Hlo : (q07 < q)%Q).
    { apply Qnot_le_lt. rewrite <- Qle_bool_iff. congruence. }
    pose proof (legacy_match_record E name ty source "partial" q df row t Hrow
                  (or_intror (conj eq_refl (conj Hlo (proj2 (similarity_bounds _ _))))))
      as H.
    now destruct (legacy_match name ty source "partial" q df row t).
Qed.

Lemma scan_rows_records (E : Environment) (name ty source : string) (df : DataFrame)
    (t : Z) (cols : list string) (rs : list (list pyval)) :
  (forall row, row ∈ rs -> row ∈ rows df) ->
  match scan_rows E name ty source df t cols rs with
  | Ok ms => (length ms <= length rs)%nat
             /\ Forall (legacy_record name ty source t df) ms
  | Raise e => e = KeyError /\ sanction_source_url source = None
  end.
Proof.
  induction rs as [|row rest IH]; intros Hrows; simpl.
  - split; [lia | constructor].
  - pose proof (scan_row_record E name ty source df t row cols
                  (Hrows row ltac:(now apply elem_of_cons; left))) as Hrow.
    destruct (scan_row E name ty source df t row cols) as [found|e]; [|exact Hrow].
    assert (IH' := IH (fun r Hr => Hrows r ltac:(now apply elem_of_cons; right))).
    destruct (scan_rows E name ty source df t cols rest) as [ms|e]; [|exact IH'].
    destruct IH' as [Hlen Hall]. destruct found as [m|]; simpl.
    + split; [lia | now constructor].
    + split; [lia | exact Hall].
Qed.

(** X12: the legacy scan [_search_entity] returns at most one record per
    row of the dataset.  Each record is either exact with confidence 1 or
    partial with a confidence above 0.7, never fuzzy, and keeps the row as
    its details.  The scan raises only for a source that is not
    configured ([KeyError]), and leaves the world as it was. *)
Theorem legacy_scan_records (E : Environment) (name ty : string) (df : DataFrame)
    (source : string) (w : World) :
  match _search_entity E name ty df source w with
  | (Ok ms, w') =>
      w' = w /\ (length ms <= length (rows df))%nat
      /\ Forall (legacy_record name ty source (clock w) df) ms
  | (Raise e, w') => w' = w /\ e = KeyError /\ sanction_source_url source = None
  end.
Proof.
  unfold _search_entity. unfold_monad. simpl.
  pose proof (scan_rows_records E name ty source df (clock w)
                (available_columns ty df) (rows df) (fun r H => H)) as H.
  destruct (scan_rows _ _ _ _ _ _ _ _) as [ms|e]; auto.
Qed.

(* ===================================================================== *)
(** ** One resolution: requests, sleep and records *)
(* ===================================================================== *)

Lemma search_entities_run (E : Environment) (query dataset : string) (limit : Z)
    (schema : string) (topics : list string) (w : World) :
  search_entities E query dataset limit schema topics w
  = (Ok (answer_or E (search_request E query dataset limit schema topics)
           empty_search_response),
     requested w (search_request E query dataset limit schema topics)).
Proof. apply client_call_run. Qed.

Lemma answer_or_fails (E : Environment) (r : Request) (fallback : pyval) :
  request_fails E r -> answer_or E r fallback = fallback.
Proof.
  unfold request_fails, answer_or.
  destruct (http E r) as [status body|]; [|reflexivity].
  intros [Hlo Hhi].
  now rewrite (proj2 (Z.leb_le 400 status) Hlo), (proj2 (Z.ltb_lt status 600) Hhi).
Qed.

Lemma Forall2_filed (E : Environment) (name ty : string) (t : Z)
    (hits : list pyval) (ms : list SanctionMatch) :
  Forall2 (search_record E name ty t) hits ms ->
  Forall (filed name ty "OpenSanctions") ms.
Proof.
  induction 1 as [|hit m hits ms (fields & q & _ & Hn & Ht & Hl & _) _ IH];
    constructor; [now repeat split | exact IH].
Qed.

(** One search: it sends its request and nothing else; what it returns
    is filed under the query. *)
Lemma aggregator_search_run (E : Environment) (name ty dataset : string)
    (topics : list string) (w : World) :
  let r := search_request E name dataset 10 (_map_entity_type_to_schema ty) topics in
  exists o,
    aggregator_search E name ty dataset topics w = (o, requested w r)
    /\ match o with
       | Ok ms => Forall (filed name ty "OpenSanctions") ms
       | Raise _ => True
       end
    /\ (request_fails E r -> o = Ok []).
Proof.
  intros r. unfold aggregator_search. unfold_monad.
  rewrite search_entities_run. fold r.
  destruct (py_fields (answer_or E r empty_search_response)) as [fields|e] eqn:Hf.
  - simpl. destruct (Py.truthy (Py.get fields "results" PNone)) eqn:Ht.
    + unfold _process_opensanctions_results. unfold_monad. simpl.
      destruct (py_iter (Py.get fields "results" PNone)) as [hits|e] eqn:Hi.
      * pose proof (collect_search_match E name ty (clock w) hits) as Hc.
        destruct (collect _ hits) as [ms|e].
        -- eexists. split; [reflexivity|]. split; [eapply Forall2_filed; exact Hc|].
           intros Hfail. rewrite (answer_or_fails _ _ _ Hfail) in Hf.
           injection Hf as <-. discriminate Ht.
        -- eexists. split; [reflexivity|]. split; [exact I|].
           intros Hfail. rewrite (answer_or_fails _ _ _ Hfail) in Hf.
           injection Hf as <-. discriminate Ht.
      * eexists. split; [reflexivity|]. split; [exact I|].
        intros Hfail. rewrite (answer_or_fails _ _ _ Hfail) in Hf.
        injection Hf as <-. discriminate Ht.
    + eexists. split; [reflexivity|]. split; [constructor | reflexivity].
  - simpl. eexists. split; [reflexivity|]. split; [exact I|].
    intros Hfail. rewrite (answer_or_fails _ _ _ Hfail) in Hf. discriminate Hf.
Qed.

Lemma sublist_Forall_filed (P : SanctionMatch -> Prop) (kept all_matches : list SanctionMatch) :
  sublist kept all_matches -> Forall P all_matches -> Forall P kept.
Proof.
  intros Hsub Hall. apply Forall_forall. intros m Hm.
  rewrite Forall_forall in Hall. apply Hall.
  eapply elem_of_sublist; eauto.
Qed.

(** The first block: one or two searches, and records filed under the
    query. *)
Lemma aggregator_block_shape (E : Environment) (name ty : string) (w : World) :
  exists agg searches,
    aggregator_block E name ty w = (Ok agg, later w 0 searches)
    /\ (searches = [sanctions_search E name ty]
        \/ searches = [sanctions_search E name ty; broader_search E name ty])
    /\ Forall (filed name ty "OpenSanctions") agg
    /\ (request_fails E (sanctions_search E name ty) ->
        request_fails E (broader_search E name ty) ->
        agg = [] /\ searches = [sanctions_search E name ty; broader_search E name ty]).
Proof.
  rewrite aggregator_block_run.
  destruct (aggregator_search_run E name ty "sanctions" ["sanction"] w)
    as (o1 & -> & Hrec1 & Hfail1).
  fold (sanctions_search E name ty) in *.
  set (s1 := sanctions_search E name ty) in *.
  assert (H1 : requested w s1 = later w 0 [s1]).
  { unfold requested, later. f_equal. lia. }
  destruct o1 as [sanctions|e].
  - destruct (aggregator_search_run E name ty "default" [] (requested w s1))
      as (o2 & -> & Hrec2 & Hfail2).
    fold (broader_search E name ty) in *.
    set (s2 := broader_search E name ty) in *.
    assert (H2 : requested (requested w s1) s2 = later w 0 [s1; s2]).
    { unfold requested, later. simpl. f_equal; [lia | now rewrite <- app_assoc]. }
    rewrite H2. destruct o2 as [broader|e].
    + eexists _, [s1; s2]. split; [reflexivity|]. split; [now right|]. split.
      * destruct (unique_matches [] (sanctions ++ broader)) as [kept|e] eqn:Hk.
        -- eapply sublist_Forall_filed; [eapply unique_matches_sublist; exact Hk|].
           now apply Forall_app.
        -- now apply Forall_app.
      * intros F1 F2. split; [|reflexivity].
        injection (Hfail1 F1) as ->. injection (Hfail2 F2) as ->. reflexivity.
    + eexists sanctions, [s1; s2]. split; [reflexivity|]. split; [now right|].
      split; [exact Hrec1|]. intros _ F2. discriminate (Hfail2 F2).
  - rewrite H1. eexists [], [s1]. split; [reflexivity|]. split; [now left|].
    split; [constructor|]. intros F1 _. discriminate (Hfail1 F1).
Qed.

Lemma fetch_source_configured (E : Environment) (source : string) (fetch : M DataFrame) :
  fetch_source E source = Some fetch -> sanction_source_url source <> None.
Proof.
  unfold fetch_source, sanction_source_url.
  destruct (String.eqb source "OpenSanctions"); [discriminate|].
  destruct (String.eqb source "OFAC"); [discriminate|].
  destruct (String.eqb source "UK"); [discriminate|].
  destruct (String.eqb source "EU"); [discriminate|].
  destruct (String.eqb source "UN"); discriminate.
Qed.

(** One turn of the loop over the legacy sources: one request, one second
    of sleep, the records of the source. *)
Lemma check_source_exact (E : Environment) (name ty source : string)
    (fetch : M DataFrame) (all_matches : list SanctionMatch) (w : World) :
  fetch_source E source = Some fetch ->
  check_source E name ty all_matches source w
  = (Ok (all_matches ++ source_matches E name ty (clock w) source),
     later w 1 [legacy_request (source_endpoint source)])
  /\ Forall (filed name ty source) (source_matches E name ty (clock w) source).
Proof.
  intros Hf. pose proof (fetch_source_configured E source fetch Hf) as Hconf.
  unfold check_source, source_matches. rewrite Hf.
  unfold_monad. rewrite (fetch_source_run E source fetch w Hf).
  destruct (source_dataset E source) as [df|]; simpl; [|split; [reflexivity | constructor]].
  destruct (df_empty df); simpl; [split; [reflexivity | constructor]|].
  unfold _search_entity. unfold_monad. simpl.
  pose proof (scan_rows_records E name ty source df (clock w)
                (available_columns ty df) (rows df) (fun r H => H)) as Hscan.
  destruct (scan_rows _ _ _ _ _ _ _ _) as [found|e].
  - simpl. split; [reflexivity|]. destruct Hscan as [_ Hall].
    eapply Forall_impl; [exact Hall|].
    intros m (Hn & Ht & Hl & _). now repeat split.
  - destruct Hscan as [_ Hnone]. contradiction.
Qed.

Lemma source_matches_uk (E : Environment) (name ty : string) (t : Z) :
  source_matches E name ty t "UK" = [].
Proof.
  unfold source_matches, source_dataset. simpl String.eqb. cbv iota.
  now destruct (delivered E uk_url).
Qed.

(** The whole call, with its exact world. *)
Lemma check_single_entity_exact (E : Environment) (name ty : string) (w : World) :
  let ty' := resolve_type name ty in
  exists agg searches,
    check_single_entity E name ty w
    = (Ok (agg
           ++ source_matches E name ty' (clock w) "OFAC"
           ++ source_matches E name ty' (clock w + 2) "EU"
           ++ source_matches E name ty' (clock w + 3) "UN"),
       later w 4 (searches ++ legacy_requests))
    /\ (searches = [sanctions_search E name ty']
        \/ searches = [sanctions_search E name ty'; broader_search E name ty'])
    /\ Forall (filed name ty' "OpenSanctions") agg
    /\ (request_fails E (sanctions_search E name ty') ->
        request_fails E (broader_search E name ty') ->
        agg = [] /\ searches = [sanctions_search E name ty'; broader_search E name ty']).
Proof.
  intros ty'.
  destruct (aggregator_block_shape E name ty' w)
    as (agg & searches & Hagg & Hshape & Hfiled & Hdown).
  exists agg, searches.
  split; [|split; [exact Hshape | split; [exact Hfiled | exact Hdown]]].
  unfold check_single_entity. fold ty'. unfold legacy_sources. simpl check_sources.
  unfold_monad. rewrite Hagg.
  destruct (check_source_exact E name ty' "OFAC" _ agg (later w 0 searches) eq_refl)
    as [-> _].
  rewrite later_later.
  destruct (check_source_exact E name ty' "UK" _
              (agg ++ source_matches E name ty' (clock (later w 0 searches)) "OFAC")
              (later w (0 + 1) (searches ++ [legacy_request (source_endpoint "OFAC")]))
              eq_refl) as [-> _].
  rewrite later_later, source_matches_uk, app_nil_r.
  destruct (check_source_exact E name ty' "EU" _
              (agg ++ source_matches E name ty' (clock (later w 0 searches)) "OFAC")
              (later w (0 + 1 + 1)
                 ((searches ++ [legacy_request (source_endpoint "OFAC")])
                  ++ [legacy_request (source_endpoint "UK")]))
              eq_refl) as [-> _].
  rewrite later_later.
  match goal with
  | |- context [check_source E name ty' ?a "UN" ?w0] =>
      destruct (check_source_exact E name ty' "UN" _ a w0 eq_refl) as [-> _]
  end.
  rewrite later_later. f_equal.
  - f_equal. rewrite <- !app_assoc. unfold later. simpl.
    replace (clock w + 0)%Z with (clock w) by lia.
    replace (clock w + (0 + 1 + 1))%Z with (clock w + 2)%Z by lia.
    now replace (clock w + (0 + 1 + 1 + 1))%Z with (clock w + 3)%Z by lia.
  - unfold later, legacy_requests, legacy_sources. simpl.
    f_equal; try lia. f_equal. now rewrite <- !app_assoc.
Qed.

Lemma source_matches_filed (E : Environment) (name ty : string) (t : Z)
    (source : string) :
  Forall (filed name ty source) (source_matches E name ty t source).
Proof.
  unfold source_matches.
  destruct (source_dataset E source) as [df|]; [|constructor].
  destruct (df_empty df); [constructor|].
  pose proof (scan_rows_records E name ty source df t
                (available_columns ty df) (rows df) (fun r H => H)) as Hscan.
  destruct (scan_rows _ _ _ _ _ _ _ _) as [found|e]; [|constructor].
  destruct Hscan as [_ Hall]. eapply Forall_impl; [exact Hall|].
  intros m (Hn & Ht & Hl & _). now repeat split.
Qed.

(** The whole call, given what the first block ended with: the four
    legacy sources follow, one second apart. *)
Lemma check_single_entity_after_block (E : Environment) (name ty : string)
    (w w1 : World) (agg : list SanctionMatch) :
  let ty' := resolve_type name ty in
  aggregator_block E name ty' w = (Ok agg, w1) ->
  check_single_entity E name ty w
  = (Ok (agg
         ++ source_matches E name ty' (clock w1) "OFAC"
         ++ source_matches E name ty' (clock w1 + 1) "UK"
         ++ source_matches E name ty' (clock w1 + 2) "EU"
         ++ source_matches E name ty' (clock w1 + 3) "UN"),
     later w1 4 legacy_requests).
Proof.
  intros ty' Hagg.
  unfold check_single_entity. fold ty'. unfold legacy_sources. simpl check_sources.
  unfold_monad. rewrite Hagg.
  destruct (check_source_exact E name ty' "OFAC" _ agg w1 eq_refl) as [-> _].
  match goal with
  | |- context [check_source E name ty' ?a "UK" ?w0] =>
      destruct (check_source_exact E name ty' "UK" _ a w0 eq_refl) as [-> _]
  end.
  rewrite later_later.
  match goal with
  | |- context [check_source E name ty' ?a "EU" ?w0] =>
      destruct (check_source_exact E name ty' "EU" _ a w0 eq_refl) as [-> _]
  end.
  rewrite later_later.
  match goal with
  | |- context [check_source E name ty' ?a "UN" ?w0] =>
      destruct (check_source_exact E name ty' "UN" _ a w0 eq_refl) as [-> _]
  end.
  rewrite later_later. unfold later. simpl.
  rewrite <- !app_assoc.
  replace (clock w1 + (1 + 1))%Z with (clock w1 + 2)%Z by lia.
  replace (clock w1 + (1 + 1 + 1))%Z with (clock w1 + 3)%Z by lia.
  replace (clock w1 + (1 + 1 + 1 + 1))%Z with (clock w1 + 4)%Z by lia.
  reflexivity.
Qed.

(** C3: [check_single_entity] returns a list whatever its sources do.
    The list is what the aggregator block ended with, followed by the
    records of each legacy source that delivered a dataset, in the order
    OFAC, UK, EU, UN; a source that failed contributes nothing and stops
    nothing.  What the aggregator block ends with follows the fate of its
    two searches: nothing when the sanctions search raises; the records of
    the sanctions search when the broader search raises; otherwise the
    records of both searches, of which at least the first record of every
    key is kept, in the order they were found.  A search whose request
    gets no answer finds no record and raises nothing. *)
Theorem check_single_entity_absorbs_failures (E : Environment)
    (name ty : string) (w : World) :
  let ty' := resolve_type name ty in
  exists agg w1,
    aggregator_block E name ty' w = (Ok agg, w1)
    /\ clock w1 = clock w
    /\ check_single_entity E name ty w
       = (Ok (agg
              ++ source_matches E name ty' (clock w) "OFAC"
              ++ source_matches E name ty' (clock w + 1) "UK"
              ++ source_matches E name ty' (clock w + 2) "EU"
              ++ source_matches E name ty' (clock w + 3) "UN"),
          later w1 4 legacy_requests)
    /\ match aggregator_search E name ty' "sanctions" ["sanction"] w with
       | (Raise _, _) => agg = []
       | (Ok sanctions, wa) =>
           match aggregator_search E name ty' "default" [] wa with
           | (Raise _, _) => agg = sanctions
           | (Ok broader, _) =>
               let found := sanctions ++ broader in
               agg = match unique_matches [] found with
                     | Ok kept => kept
                     | Raise _ => found
                     end
               /\ sublist agg found
               /\ forall i m, found !! i = Some m ->
                    (forall j m', (j < i)%nat -> found !! j = Some m' ->
                                  Py.eqb (key_of m) (key_of m') = false) ->
                    m ∈ agg
           end
       end
    /\ (forall dataset topics wa,
          request_fails E (search_request E name dataset 10
                             (_map_entity_type_to_schema ty') topics) ->
          (aggregator_search E name ty' dataset topics wa).1 = Ok [])
    /\ (forall source t,
          source_dataset E source = None -> source_matches E name ty' t source = []).
Proof.
  intros ty'.
  destruct (aggregator_block_shape E name ty' w) as (agg & searches & Hagg & _).
  exists agg, (later w 0 searches).
  split; [exact Hagg|]. split; [simpl; lia|]. split; [|split; [|split]].
  - rewrite (check_single_entity_after_block E name ty w _ agg Hagg).
    fold ty'. simpl clock. now replace (clock w + 0)%Z with (clock w) by lia.
  - rewrite aggregator_block_run in Hagg.
    destruct (aggregator_search E name ty' "sanctions" ["sanction"] w)
      as [[sanctions|e] wa]; [|now injection Hagg as <- _].
    destruct (aggregator_search E name ty' "default" [] wa)
      as [[broader|e] wb]; [|now injection Hagg as <- _].
    injection Hagg as <- _. cbv zeta. split; [reflexivity|].
    destruct (unique_matches [] (sanctions ++ broader)) as [kept|e] eqn:Hk.
    + split; [eapply unique_matches_sublist; exact Hk|].
      intros i m Hi Hfirst. eapply unique_matches_first; eauto.
    + split; [reflexivity|].
      intros i m Hi _. eapply list_elem_of_lookup_2. exact Hi.
  - intros dataset topics wa Hfail.
    destruct (aggregator_search_run E name ty' dataset topics wa) as (o & -> & _ & Ho).
    simpl. now apply Ho.
  - intros source t Hnone. unfold source_matches. now rewrite Hnone.
Qed.

(** Two runs of the theorem.  With three legacy sources and the aggregator
    unreachable and the OFAC list arriving with two rows, the call returns
    the two OFAC records.  With a broader search that raises, the record of
    the sanctions search is kept. *)
Lemma check_single_entity_absorbs_failures_witness :
  (exists m1 m2 w',
     check_single_entity only_ofac_up "EVER GIVEN" "vessel" Script.start
     = (Ok [m1; m2], w')
     /\ sanction_list m1 = "OFAC" /\ sanction_list m2 = "OFAC")
  /\ (exists agg w1,
        aggregator_block broader_search_broken "EVER GIVEN" "vessel" Script.start
        = (Ok agg, w1)
        /\ length agg = 1%nat).
Proof.
  split.
  - destruct (check_single_entity_absorbs_failures only_ofac_up
                "EVER GIVEN" "vessel" Script.start)
      as (agg & w1 & _ & _ & Hrun & Hcases & _).
    vm_compute in Hcases. destruct Hcases as (-> & _).
    do 3 eexists. split; [rewrite Hrun; vm_compute; reflexivity|].
    split; reflexivity.
  - destruct (check_single_entity_absorbs_failures broader_search_broken
                "EVER GIVEN" "vessel" Script.start)
      as (agg & w1 & Hagg & _ & _ & Hcases & _).
    vm_compute in Hcases. subst agg.
    eexists _, w1. split; [exact Hagg | reflexivity].
Defined.

(** X13: one call of [check_single_entity] sends the sanctions search,
    the broader search unless the first block was left before it, and
    then one request to each legacy source in the order OFAC, UK, EU, UN,
    whatever the earlier ones gave; it sleeps one second after each legacy
    source, four seconds in all, and leaves the cache directory alone. *)
Theorem resolution_requests_and_sleep (E : Environment) (name ty : string) (w : World) :
  exists ms searches,
    check_single_entity E name ty w
    = (Ok ms, mkWorld (clock w + 4)
                (net_log w ++ searches ++ legacy_requests) (cache_files w))
    /\ (searches = [sanctions_search E name (resolve_type name ty)]
        \/ searches = [sanctions_search E name (resolve_type name ty);
                       broader_search E name (resolve_type name ty)]).
Proof.
  destruct (check_single_entity_exact E name ty w)
    as (agg & searches & Hrun & Hshape & _).
  eexists _, searches. split; [exact Hrun | exact Hshape].
Qed.

(** X14: the list [check_single_entity] returns is made of the aggregator
    records, then those of OFAC, then of EU, then of UN, each for the
    queried name and the resolved type.  It never holds a record of the UK
    list, whose fetch yields no rows. *)
Theorem resolution_records_by_source (E : Environment) (name ty : string) (w : World) :
  let ty' := resolve_type name ty in
  exists agg ofac eu un w',
    check_single_entity E name ty w = (Ok (agg ++ ofac ++ eu ++ un), w')
    /\ Forall (filed name ty' "OpenSanctions") agg
    /\ Forall (filed name ty' "OFAC") ofac
    /\ Forall (filed name ty' "EU") eu
    /\ Forall (filed name ty' "UN") un.
Proof.
  intros ty'.
  destruct (check_single_entity_exact E name ty w)
    as (agg & searches & Hrun & _ & Hfiled & _).
  fold ty' in Hrun, Hfiled.
  eexists agg, _, _, _, _. split; [exact Hrun|].
  split; [exact Hfiled|]. repeat split; apply source_matches_filed.
Qed.

(** X15: when both searches of the aggregator get no answer (transport
    failure or an error status such as 401), the call still runs the
    legacy sources and returns exactly their records. *)
Theorem aggregator_down_leaves_legacy (E : Environment) (name ty : string) (w : World) :
  let ty' := resolve_type name ty in
  request_fails E (sanctions_search E name ty') ->
  request_fails E (broader_search E name ty') ->
  check_single_entity E name ty w
  = (Ok (source_matches E name ty' (clock w) "OFAC"
         ++ source_matches E name ty' (clock w + 2) "EU"
         ++ source_matches E name ty' (clock w + 3) "UN"),
     later w 4 ([sanctions_search E name ty'; broader_search E name ty']
                ++ legacy_requests)).
Proof.
  intros ty' F1 F2.
  destruct (check_single_entity_exact E name ty w)
    as (agg & searches & Hrun & _ & _ & Hdown).
  fold ty' in Hrun, Hdown. destruct (Hdown F1 F2) as [-> ->]. exact Hrun.
Qed.

Lemma aggregator_down_leaves_legacy_witness :
  check_single_entity only_ofac_up "EVER GIVEN" "vessel" Script.start
  = (Ok (source_matches only_ofac_up "EVER GIVEN" "vessel" 0 "OFAC"
         ++ source_matches only_ofac_up "EVER GIVEN" "vessel" 2 "EU"
         ++ source_matches only_ofac_up "EVER GIVEN" "vessel" 3 "UN"),
     later Script.start 4
       ([sanctions_search only_ofac_up "EVER GIVEN" "vessel";
         broader_search only_ofac_up "EVER GIVEN" "vessel"]
        ++ legacy_requests)).
Proof.
  apply (aggregator_down_leaves_legacy only_ofac_up "EVER GIVEN" "vessel" Script.start);
    exact I.
Defined.

(* ===================================================================== *)
(** ** Bulk checks *)
(* ===================================================================== *)

Lemma collect_Forall {A B} (f : A -> Outcome B) (P : B -> Prop) (l : list A) :
  (forall x y, f x = Ok y -> P y) ->
  forall ys, collect f l = Ok ys -> Forall P ys.
Proof.
  intros Hf. induction l as [|x rest IH]; simpl; intros ys H.
  - injection H as <-. constructor.
  - destruct (f x) as [y|e] eqn:Hx; [|discriminate].
    destruct (collect f rest) as [ys'|e]; [|discriminate].
    injection H as <-. constructor; eauto.
Qed.

Lemma bulk_matches_named (E : Environment) (name ty : string) (t : Z)
    (response : pyval) (ms : list SanctionMatch) :
  bulk_matches E name ty t response = Ok ms ->
  Forall (fun m => entity_name m = name) ms.
Proof.
  unfold bulk_matches. destruct (py_fields response); [|discriminate].
  destruct (py_iter _); [|discriminate].
  apply collect_Forall. intros hit m. unfold bulk_match.
  destruct (py_fields hit); [|discriminate].
  destruct (bulk_match_type _); [|discriminate].
  now intros [= <-].
Qed.

Lemma filed_by_name_insert (results : gmap string (list SanctionMatch))
    (name : string) (ms : list SanctionMatch) :
  filed_by_name results -> Forall (fun m => entity_name m = name) ms ->
  filed_by_name (<[name := ms]> results).
Proof.
  intros Hinv Hms k ms' Hk. destruct (decide (name = k)) as [<-|Hne].
  - rewrite lookup_insert_eq in Hk. now injection Hk as <-.
  - rewrite lookup_insert_ne in Hk by exact Hne. eauto.
Qed.

Lemma process_responses_filed (E : Environment)
    (entity_mapping : gmap string (string * string)) (t : Z)
    (responses : list (string * pyval)) :
  forall results err results',
    process_responses E entity_mapping t responses results = (err, results') ->
    filed_by_name results -> filed_by_name results'.
Proof.
  induction responses as [|[query_id response] rest IH];
    intros results err results'; simpl.
  - now intros [= _ <-].
  - destruct (entity_mapping !! query_id) as [[name ty]|]; [|apply IH].
    destruct (bulk_matches E name ty t response) as [ms|e] eqn:Hb.
    + intros H Hinv. eapply IH; [exact H|].
      apply filed_by_name_insert; [exact Hinv|].
      eapply bulk_matches_named. exact Hb.
    + now intros [= _ <-].
Qed.

Lemma process_match_response_filed (E : Environment)
    (entity_mapping : gmap string (string * string)) (t : Z) (match_response : pyval)
    err results :
  process_match_response E entity_mapping t match_response = (err, results) ->
  filed_by_name results.
Proof.
  assert (Hempty : filed_by_name (∅ : gmap string (list SanctionMatch))).
  { intros k ms Hk. rewrite lookup_empty in Hk. discriminate Hk. }
  unfold process_match_response.
  destruct (py_fields match_response) as [fields|e]; [|now intros [= _ <-]].
  destruct (py_fields _) as [responses|e]; [|now intros [= _ <-]].
  intros H. eapply process_responses_filed; eauto.
Qed.

Lemma check_single_entity_named (E : Environment) (name ty : string) (w : World) :
  exists ms w',
    check_single_entity E name ty w = (Ok ms, w')
    /\ Forall (fun m => entity_name m = name) ms.
Proof.
  destruct (check_single_entity_exact E name ty w)
    as (agg & searches & Hrun & _ & Hfiled & _).
  eexists _, _. split; [exact Hrun|].
  repeat apply Forall_app_2;
    (eapply Forall_impl; [first [exact Hfiled | apply source_matches_filed]|]);
    intros m H; apply H.
Qed.

(** The fallback loop keeps the filing, keeps the keys it found and adds
    one for every named entry. *)
Lemma individual_checks_covers (E : Environment) (entities : list EntityQuery) :
  forall (results : gmap string (list SanctionMatch)) (w : World),
  exists results' w',
    individual_checks E entities results w = (Ok results', w')
    /\ (filed_by_name results -> filed_by_name results')
    /\ (forall k, is_Some (results !! k) -> is_Some (results' !! k))
    /\ (forall entity, entity ∈ entities -> name_of entity <> "" ->
                       is_Some (results' !! name_of entity)).
Proof.
  induction entities as [|entity rest IH]; intros results w; simpl.
  - exists results, w. repeat split; auto. intros entity Hin. inversion Hin.
  - destruct (PyStr.is_empty (name_of entity)) eqn:He.
    + destruct (IH results w) as (results' & w' & Hrun & Hinv & Hmono & Hcov).
      exists results', w'. repeat split; auto.
      intros e Hin Hne. apply elem_of_cons in Hin as [-> | Hin]; [|auto].
      apply is_empty_spec in He. contradiction.
    + destruct (check_single_entity_named E (name_of entity) (type_of entity) w)
        as (ms & w1 & Hcheck & Hnamed).
      destruct (IH (<[name_of entity := ms]> results) w1)
        as (results' & w' & Hrun & Hinv & Hmono & Hcov).
      exists results', w'. split; [|split; [|split]].
      * unfold_monad. now rewrite Hcheck.
      * intros H. apply Hinv. now apply filed_by_name_insert.
      * intros k Hk. apply Hmono.
        destruct (decide (name_of entity = k)) as [<-|Hne].
        -- rewrite lookup_insert_eq. eauto.
        -- now rewrite lookup_insert_ne by exact Hne.
      * intros e Hin Hne. apply elem_of_cons in Hin as [-> | Hin]; [|auto].
        apply Hmono. rewrite lookup_insert_eq. eauto.
Qed.

(** X16: in the mapping [check_bulk_entities] returns, every record stands
    under the entity name it carries, on the matching path as on the
    fallback path. *)
Theorem bulk_results_filed_by_name (E : Environment) (entities : list EntityQuery)
    (w : World) :
  exists results w',
    check_bulk_entities E entities w = (Ok results, w')
    /\ forall k ms m, results !! k = Some ms -> m ∈ ms -> entity_name m = k.
Proof.
  assert (Hgoal : forall results : gmap string (list SanctionMatch),
             filed_by_name results ->
             forall k ms m, results !! k = Some ms -> m ∈ ms -> entity_name m = k).
  { intros results Hinv k ms m Hk Hm. specialize (Hinv k ms Hk).
    rewrite Forall_forall in Hinv. now apply Hinv. }
  unfold check_bulk_entities.
  destruct (prepare 0 entities [] ∅) as [prepared entity_mapping].
  destruct (match_entities_run E prepared "sanctions" q07 5 w) as (response & -> & _).
  destruct (process_match_response E entity_mapping _ response)
    as [[e|] partial] eqn:Hproc.
  - destruct (individual_checks_covers E entities partial
                (requested w (match_request E prepared "sanctions" q07 5)))
      as (results & w' & Hrun & Hinv & _).
    exists results, w'. split; [exact Hrun|]. apply Hgoal, Hinv.
    eapply process_match_response_filed. exact Hproc.
  - eexists partial, _. split; [reflexivity|]. apply Hgoal.
    eapply process_match_response_filed. exact Hproc.
Qed.

(** X17: when working through the answer of the matching API raises (the
    answer is no dict, a result is no dict, a score is no number), the
    fallback runs and the mapping returned has an entry for every named
    entry of the batch. *)
Theorem bulk_fallback_covers_named_entries (E : Environment)
    (entities : list EntityQuery) (w : World) (e : exn)
    (partial : gmap string (list SanctionMatch)) :
  process_match_response E (prepare 0 entities [] ∅).2 (clock w)
    (answer_or E (bulk_request E entities) (PDict [("responses", PDict [])]))
  = (Some e, partial) ->
  exists results w',
    check_bulk_entities E entities w = (Ok results, w')
    /\ forall entity, entity ∈ entities -> name_of entity <> "" ->
                      is_Some (results !! name_of entity).
Proof.
  unfold bulk_request, check_bulk_entities.
  destruct (prepare 0 entities [] ∅) as [prepared entity_mapping]. simpl.
  intros Hproc.
  unfold match_entities. rewrite client_call_run. simpl.
  rewrite Hproc.
  destruct (individual_checks_covers E entities partial
              (requested w (match_request E prepared "sanctions" q07 5)))
    as (results & w' & Hrun & _ & _ & Hcov).
  exists results, w'. split; [exact Hrun | exact Hcov].
Qed.

Lemma bulk_fallback_covers_named_entries_witness :
  exists results w',
    check_bulk_entities match_answer_malformed two_named Script.start = (Ok results, w')
    /\ is_Some (results !! "ACME CORP LTD") /\ is_Some (results !! "John Smith").
Proof.
  eassert (Hproc : process_match_response match_answer_malformed
                     (prepare 0 two_named [] ∅).2 (clock Script.start)
                     (answer_or match_answer_malformed
                        (bulk_request match_answer_malformed two_named)
                        (PDict [("responses", PDict [])]))
                   = (Some _, _)) by (vm_compute; reflexivity).
  destruct (bulk_fallback_covers_named_entries match_answer_malformed two_named
              Script.start _ _ Hproc) as (results & w' & Hrun & Hcov).
  exists results, w'. split; [exact Hrun|]. split.
  - apply (Hcov (mkEntityQuery (Some "ACME CORP LTD") (Some "company")));
      [apply elem_of_cons; now left | discriminate].
  - apply (Hcov (mkEntityQuery (Some "John Smith") None));
      [apply elem_of_cons; right; apply elem_of_cons; now left | discriminate].
Defined.

Lemma cli_bulk_loop_run (E : Environment) (entities : list CliEntity) :
  forall (results : gmap string (list SanctionMatch)) (w : World),
  exists results' rs,
    cli_bulk_loop E entities results w
    = (Ok results', later w (4 * Z.of_nat (length entities)) rs)
    /\ (5 * length entities <= length rs <= 6 * length entities)%nat
    /\ (forall k, is_Some (results' !! k)
                  <-> is_Some (results !! k) \/ k ∈ entities.*1).
Proof.
  induction entities as [|[name ty] rest IH]; intros results w.
  - exists results, []. simpl. rewrite later_zero. split; [reflexivity|].
    split; [lia|]. intros k. split; [auto|]. intros [H|H]; [exact H | inversion H].
  - cbn [cli_bulk_loop]. unfold_monad.
    destruct (check_single_entity_exact E name (default "auto" ty) w)
      as (agg & searches & Hrun & Hshape & _).
    rewrite Hrun.
    destruct (IH (<[name := agg
                     ++ source_matches E name (resolve_type name (default "auto" ty))
                          (clock w) "OFAC"
                     ++ source_matches E name (resolve_type name (default "auto" ty))
                          (clock w + 2) "EU"
                     ++ source_matches E name (resolve_type name (default "auto" ty))
                          (clock w + 3) "UN"]> results)
                (later w 4 (searches ++ legacy_requests)))
      as (results' & rs & -> & Hlen & Hkeys).
    exists results', ((searches ++ legacy_requests) ++ rs).
    rewrite later_later. split; [f_equal; f_equal; simpl length; lia|]. split.
    + rewrite !length_app. unfold legacy_requests, legacy_sources. simpl length.
      destruct Hshape as [-> | ->]; simpl length; lia.
    + intros k. rewrite Hkeys. simpl. rewrite elem_of_cons.
      destruct (decide (name = k)) as [<-|Hne].
      * rewrite lookup_insert_eq. split; [intros _; right; now left | eauto].
      * rewrite lookup_insert_ne by exact Hne. split.
        -- intros [H|H]; [now left | right; now right].
        -- intros [H|[H|H]]; [now left | congruence | now right].
Qed.

(** X18: the bulk check of the command line resolves every entity of the
    file, one by one.  For n entities it sleeps 4n seconds, sends between
    5n and 6n requests, never raises, and fills a mapping whose keys are
    exactly the names of the file, the empty name included. *)
Theorem cli_bulk_check_cost (E : Environment) (entities : list CliEntity) (w : World) :
  exists results rs,
    cli_bulk_loop E entities ∅ w
    = (Ok results, mkWorld (clock w + 4 * Z.of_nat (length entities))
                     (net_log w ++ rs) (cache_files w))
    /\ (5 * length entities <= length rs <= 6 * length entities)%nat
    /\ forall k, is_Some (results !! k) <-> k ∈ entities.*1.
Proof.
  destruct (cli_bulk_loop_run E entities ∅ w) as (results & rs & Hrun & Hlen & Hkeys).
  exists results, rs. split; [exact Hrun|]. split; [exact Hlen|].
  intros k. rewrite Hkeys, lookup_empty. split; [intros [[x H]|H]; [discriminate | exact H] | auto].
Qed.

(* ===================================================================== *)
(** ** Removing duplicates twice, reports, summaries and the cache commands *)
(* ===================================================================== *)

Lemma unique_matches_again (all_matches : list SanctionMatch) :
  forall seen_ids kept,
    unique_matches seen_ids all_matches = Ok kept ->
    unique_matches seen_ids kept = Ok kept.
Proof.
  induction all_matches as [|m rest IH]; intros seen_ids kept H.
  - now injection H as <-.
  - pose proof H as H0. simpl in H0.
    destruct (entity_id_of m) as [entity_id|e] eqn:Hid; [|discriminate].
    destruct (Py.hashable entity_id) eqn:Hh; simpl in H0; [|discriminate].
    destruct (seen seen_ids entity_id) eqn:Hs; [eauto|].
    destruct (unique_matches (entity_id :: seen_ids) rest) as [kept'|e] eqn:Hr;
      [|discriminate].
    injection H0 as <-. simpl. rewrite Hid, Hh, Hs. simpl.
    now rewrite (IH _ _ Hr).
Qed.

(** X19: removing duplicates is idempotent: the list the loop over
    [seen_ids] keeps is kept whole by a second run. *)
Theorem unique_matches_idempotent (all_matches : list SanctionMatch) :
  match unique_matches [] all_matches with
  | Ok kept => unique_matches [] kept = Ok kept
  | Raise _ => True
  end.
Proof.
  destruct (unique_matches [] all_matches) as [kept|e] eqn:H; [|exact I].
  now apply unique_matches_again in H.
Qed.

Lemma collect_length {A B} (f : A -> Outcome B) (l : list A) (ys : list B) :
  collect f l = Ok ys -> length ys = length l.
Proof.
  revert ys. induction l as [|x rest IH]; simpl; intros ys H.
  - now injection H as <-.
  - destruct (f x) as [y|e]; [|discriminate].
    destruct (collect f rest) as [ys'|e]; [|discriminate].
    injection H as <-. simpl. f_equal. now apply IH.
Qed.

Lemma collect_raises {A B} (f : A -> Outcome B) (l : list A) (e : exn) :
  collect f l = Raise e -> exists x, x ∈ l /\ f x = Raise e.
Proof.
  induction l as [|x rest IH]; simpl; [discriminate|].
  destruct (f x) as [y|e0] eqn:Hx.
  - destruct (collect f rest) as [ys|e1]; [discriminate|].
    intros [= <-]. destruct (IH eq_refl) as (x' & Hin & Hx').
    exists x'. split; [now apply elem_of_cons; right | exact Hx'].
  - intros [= <-]. exists x. split; [now apply elem_of_cons; left | exact Hx].
Qed.

Lemma match_row_name (P : Printer) (name : string) (m : SanctionMatch) (row : ReportRow) :
  match_row P name m = Ok row -> row_entity_name row = name.
Proof.
  unfold match_row. destruct (json_dumps P (details m)); [|discriminate].
  now intros [= <-].
Qed.

Lemma match_row_raises (P : Printer) (name : string) (m : SanctionMatch) (e : exn) :
  match_row P name m = Raise e -> e = TypeError /\ json_dumps P (details m) = None.
Proof.
  unfold match_row. destruct (json_dumps P (details m)); [discriminate|].
  now intros [= <-].
Qed.

(** The rows of one entity: as many as the larger of 1 and the number of
    its records, all under its name. *)
Lemma entity_rows_shape (P : Printer) (t : Z) (name : string)
    (matches : list SanctionMatch) (rows : list ReportRow) :
  entity_rows P t name matches = Ok rows ->
  length rows = Nat.max 1 (length matches)
  /\ rows <> [] /\ Forall (fun row => row_entity_name row = name) rows.
Proof.
  unfold entity_rows. destruct matches as [|m ms].
  - intros [= <-]. split; [reflexivity|]. split; [discriminate|].
    constructor; [reflexivity | constructor].
  - intros H. pose proof (collect_length _ _ _ H) as Hlen.
    split; [rewrite Hlen; reflexivity|]. split.
    + intros ->. discriminate Hlen.
    + eapply collect_Forall; [|exact H]. intros x y. apply match_row_name.
Qed.

Lemma entity_rows_raises (P : Printer) (t : Z) (name : string)
    (matches : list SanctionMatch) (e : exn) :
  entity_rows P t name matches = Raise e ->
  e = TypeError /\ exists m, m ∈ matches /\ json_dumps P (details m) = None.
Proof.
  unfold entity_rows. destruct matches as [|m ms]; [discriminate|].
  intros H. apply collect_raises in H as (x & Hin & Hx).
  apply match_row_raises in Hx as [-> Hx]. eauto.
Qed.

Lemma report_data_length (P : Printer) (t : Z)
    (results : list (string * list SanctionMatch)) (rows : list ReportRow) :
  report_data P t results = Ok rows ->
  length rows = sum_list ((fun item => Nat.max 1 (length item.2)) <$> results).
Proof.
  revert rows. induction results as [|[name matches] rest IH]; simpl; intros rows H.
  - now injection H as <-.
  - destruct (entity_rows P t name matches) as [head|e] eqn:Hhead; [|discriminate].
    destruct (report_data P t rest) as [more|e]; [|discriminate].
    injection H as <-. rewrite length_app, (IH more eq_refl).
    now destruct (entity_rows_shape _ _ _ _ _ Hhead) as [-> _].
Qed.

Lemma report_data_names (P : Printer) (t : Z)
    (results : list (string * list SanctionMatch)) (rows : list ReportRow)
    (name : string) :
  report_data P t results = Ok rows ->
  name ∈ row_entity_name <$> rows <-> name ∈ results.*1.
Proof.
  revert rows. induction results as [|[n matches] rest IH]; simpl; intros rows H.
  - now injection H as <-.
  - destruct (entity_rows P t n matches) as [head|e] eqn:Hhead; [|discriminate].
    destruct (report_data P t rest) as [more|e]; [|discriminate].
    injection H as <-.
    rewrite fmap_app, elem_of_app, elem_of_cons, (IH more eq_refl).
    destruct (entity_rows_shape _ _ _ _ _ Hhead) as (_ & Hne & Hall).
    assert (Hh : name ∈ row_entity_name <$> head <-> name = n).
    { split.
      - intros Hin. apply list_elem_of_fmap in Hin as (row & -> & Hrow).
        rewrite Forall_forall in Hall. now apply Hall.
      - intros ->. destruct head as [|row head']; [contradiction|].
        apply Forall_cons in Hall as [Hrow _]. simpl. rewrite Hrow.
        apply elem_of_cons. now left. }
    now rewrite Hh.
Qed.

Lemma report_data_raises (P : Printer) (t : Z)
    (results : list (string * list SanctionMatch)) (e : exn) :
  report_data P t results = Raise e -> e = TypeError /\ unprintable P results.
Proof.
  unfold unprintable.
  induction results as [|[name matches] rest IH]; simpl; [discriminate|].
  destruct (entity_rows P t name matches) as [head|e0] eqn:Hhead.
  - destruct (report_data P t rest) as [more|e1]; [discriminate|].
    intros [= <-]. destruct (IH eq_refl) as (He & n & ms & m & Hin & Hm & Hd).
    split; [exact He|]. exists n, ms, m.
    split; [now apply elem_of_cons; right | now split].
  - intros [= <-]. apply entity_rows_raises in Hhead as (He & m & Hm & Hd).
    split; [exact He|]. exists name, matches, m.
    split; [now apply elem_of_cons; left | now split].
Qed.

Lemma collect_ok_inv {A B} (f : A -> Outcome B) (l : list A) (ys : list B) (x : A) :
  collect f l = Ok ys -> x ∈ l -> exists y, f x = Ok y.
Proof.
  revert ys. induction l as [|x0 rest IH]; simpl; intros ys H Hin; [inversion Hin|].
  destruct (f x0) as [y|e] eqn:Hx0; [|discriminate].
  destruct (collect f rest) as [ys'|e]; [|discriminate].
  apply elem_of_cons in Hin as [-> | Hin]; [eauto|].
  eapply IH; [reflexivity | exact Hin].
Qed.

Lemma report_data_printable (P : Printer) (t : Z)
    (results : list (string * list SanctionMatch)) (rows : list ReportRow) :
  report_data P t results = Ok rows -> ~ unprintable P results.
Proof.
  revert rows. induction results as [|[n ms] rest IH]; simpl; intros rows H.
  - intros (name & matches & m & Hin & _). inversion Hin.
  - destruct (entity_rows P t n ms) as [head|e] eqn:Hhead; [|discriminate].
    destruct (report_data P t rest) as [more|e]; [|discriminate].
    intros (name & matches & m & Hin & Hm & Hd).
    apply elem_of_cons in Hin as [[= -> ->] | Hin].
    + unfold entity_rows in Hhead. destruct ms as [|m0 ms']; [inversion Hm|].
      destruct (collect_ok_inv _ _ _ m Hhead Hm) as (row & Hrow).
      unfold match_row in Hrow. rewrite Hd in Hrow. discriminate Hrow.
    + apply (IH more eq_refl). exists name, matches, m. now repeat split.
Qed.

(** X20: the report has one row per record, and one row for every entity
    without a record, which carries the type unknown and the confidence 0:
    its length is the sum over the entities of the larger of 1 and the
    number of their records, and the names in its first column are those
    of the entities.  The rows are not built only when [json.dumps]
    refuses the details of one of the records, which raises [TypeError]. *)
Theorem report_rows_cover_entities (P : Printer) (t : Z)
    (results : list (string * list SanctionMatch)) :
  match report_data P t results with
  | Ok rows =>
      length rows
      = sum_list ((fun item => Nat.max 1 (length item.2)) <$> results)
      /\ (forall name, name ∈ row_entity_name <$> rows <-> name ∈ results.*1)
  | Raise e => e = TypeError /\ unprintable P results
  end
  /\ (forall name, report_data P t [(name, [])]
                   = Ok [mkReportRow name "unknown" "None" "None" (PNum 0)
                           "No matches found" ""
                           (strftime P "%Y-%m-%d %H:%M:%S" t)]).
Proof.
  split; [|reflexivity].
  destruct (report_data P t results) as [rows|e] eqn:H.
  - split; [now apply (report_data_length P t) |].
    intros name. now apply (report_data_names P t).
  - now apply (report_data_raises P t).
Qed.

(** X21: [generate_report] builds its rows before it looks at the format.
    When [json.dumps] refuses the details of one of the records it raises
    [TypeError] and writes nothing, whatever the format.  Otherwise it
    writes one file, named after the time with the extension of the
    format, for the formats excel, csv and json, and leaves every other
    file alone; for any other format it raises [ValueError] and writes
    nothing. *)
Theorem report_format_dispatch (P : Printer) (t : Z)
    (results : list (string * list SanctionMatch)) (output_format : string)
    (files : gmap string (string * list ReportRow)) :
  match generate_report P t results output_format files with
  | (ReportWritten filename, files') =>
      ~ unprintable P results
      /\ (exists extension,
            (output_format, extension)
              ∈ [("excel", ".xlsx"); ("csv", ".csv"); ("json", ".json")]
            /\ filename = ("royal_sanction_watch_report_"
                           +:+ strftime P "%Y%m%d_%H%M%S" t +:+ extension))
      /\ (exists rows, report_data P t results = Ok rows
                       /\ files' !! filename = Some (output_format, rows))
      /\ forall other, other <> filename -> files' !! other = files !! other
  | (ReportValueError _, files') =>
      ~ unprintable P results
      /\ (output_format ∉ ["excel"; "csv"; "json"]) /\ files' = files
  | (ReportRaised e, files') =>
      unprintable P results /\ e = TypeError /\ files' = files
  end.
Proof.
  unfold generate_report.
  destruct (report_data P t results) as [rows|e] eqn:Hrows.
  2: { apply report_data_raises in Hrows as [-> Hbad]. now repeat split. }
  pose proof (report_data_printable _ _ _ _ Hrows) as Hgood.
  destruct (String.eqb output_format "excel") eqn:H1.
  { apply String.eqb_eq in H1. subst. split; [exact Hgood|]. split; [|split].
    - exists ".xlsx". split; [apply elem_of_cons; now left | reflexivity].
    - exists rows. split; [reflexivity | apply lookup_insert_eq].
    - intros other Hne. now apply lookup_insert_ne. }
  destruct (String.eqb output_format "csv") eqn:H2.
  { apply String.eqb_eq in H2. subst. split; [exact Hgood|]. split; [|split].
    - exists ".csv". split; [|reflexivity].
      apply elem_of_cons; right; apply elem_of_cons; now left.
    - exists rows. split; [reflexivity | apply lookup_insert_eq].
    - intros other Hne. now apply lookup_insert_ne. }
  destruct (String.eqb output_format "json") eqn:H3.
  { apply String.eqb_eq in H3. subst. split; [exact Hgood|]. split; [|split].
    - exists ".json". split; [|reflexivity].
      do 2 (apply elem_of_cons; right). apply elem_of_cons; now left.
    - exists rows. split; [reflexivity | apply lookup_insert_eq].
    - intros other Hne. now apply lookup_insert_ne. }
  apply String.eqb_neq in H1, H2, H3. split; [exact Hgood|]. split; [|reflexivity].
  intros Hin. repeat (apply elem_of_cons in Hin as [Hin|Hin]; [congruence|]).
  inversion Hin.
Qed.

Lemma count_lists_lookup (ms : list SanctionMatch) :
  forall (counts : gmap string nat) (list_name : string),
    default 0%nat (count_lists ms counts !! list_name)
    = (default 0%nat (counts !! list_name)
       + length (List.filter (fun m => String.eqb (sanction_list m) list_name) ms))%nat.
Proof.
  induction ms as [|m rest IH]; intros counts list_name; simpl; [lia|].
  rewrite IH. destruct (String.eqb (sanction_list m) list_name) eqn:Hm.
  - apply String.eqb_eq in Hm. subst. rewrite lookup_insert_eq. simpl. lia.
  - apply String.eqb_neq in Hm. now rewrite lookup_insert_ne.
Qed.

(** X22: in the summary of a bulk check the count printed for a sanction
    list is the number of records of that list among all the records; no
    more entities are counted as matched than there are entities or
    records. *)
Theorem bulk_summary_counts (results : list (string * list SanctionMatch)) :
  let summary := display_bulk_summary results in
  (forall list_name,
     default 0%nat (sanction_counts summary !! list_name)
     = length (List.filter (fun m => String.eqb (sanction_list m) list_name)
                 (concat results.*2)))
  /\ total_matches summary = length (concat results.*2)
  /\ (entities_with_matches summary <= total_entities summary)%nat
  /\ (entities_with_matches summary <= total_matches summary)%nat.
Proof.
  assert (Htotal : sum_list (length <$> results.*2) = length (concat results.*2)).
  { induction results as [|[name ms] rest IH]; simpl; [reflexivity|].
    rewrite length_app. f_equal. exact IH. }
  simpl. split; [|split; [exact Htotal | split]].
  - intros list_name. rewrite Htotal.
    destruct (0 <? length (concat results.*2))%nat eqn:Hpos.
    + rewrite count_lists_lookup, lookup_empty. reflexivity.
    + apply Nat.ltb_ge in Hpos. rewrite lookup_empty.
      destruct (concat results.*2); [reflexivity | simpl in Hpos; lia].
  - apply List.filter_length_le.
  - rewrite Htotal. clear Htotal.
    induction results as [|[name ms] rest IH]; [simpl; lia|].
    change (length (if has_matches (name, ms)
                    then (name, ms) :: List.filter has_matches rest
                    else List.filter has_matches rest)
            <= length (ms ++ concat rest.*2))%nat.
    rewrite length_app. unfold has_matches at 1.
    destruct ms; cbn [snd length]; lia.
Qed.

Lemma update_source_run (E : Environment) (source : string) (fetch : M DataFrame)
    (w : World) :
  fetch_source E source = Some fetch ->
  exists line,
    update_source E source w
    = (Ok line, requested w (legacy_request (source_endpoint source)))
    /\ line <> UpdateError.
Proof.
  intros Hf. unfold update_source. rewrite Hf. unfold_monad.
  rewrite (fetch_source_run E source fetch w Hf). simpl.
  eexists. split; [reflexivity|]. now destruct (df_empty _).
Qed.

(** X23: the cache update of the command line fetches the four sources,
    never reports an error, and writes nothing: the cache directory is the
    same afterwards, so the cache status of every source is what it was,
    a source that was not cached is still not cached.  A cached file
    counts as fresh while its age is strictly below the TTL. *)
Theorem cache_update_writes_no_cache (E : Environment) (w : World) :
  (exists lines,
     handle_cache_update E w
     = (Ok lines, mkWorld (clock w) (net_log w ++ legacy_requests) (cache_files w))
     /\ lines.*1 = legacy_sources
     /\ Forall (fun line => line.2 <> UpdateError) lines
     /\ handle_cache_status E (handle_cache_update E w).2 = handle_cache_status E w)
  /\ forall source,
       cache_status E source w = Fresh
       <-> exists file, cache_files w !! cache_file source = Some file
                        /\ (clock w < fetched_at file + cache_duration E)%Z.
Proof.
  split.
  - unfold handle_cache_update, legacy_sources. simpl update_sources. unfold_monad.
    destruct (update_source_run E "OFAC" _ w eq_refl) as (l1 & -> & H1).
    destruct (update_source_run E "UK" _ (requested w (legacy_request (source_endpoint "OFAC")))
                eq_refl) as (l2 & -> & H2).
    match goal with
    | |- context [update_source E "EU" ?w0] =>
        destruct (update_source_run E "EU" _ w0 eq_refl) as (l3 & -> & H3)
    end.
    match goal with
    | |- context [update_source E "UN" ?w0] =>
        destruct (update_source_run E "UN" _ w0 eq_refl) as (l4 & -> & H4)
    end.
    eexists. split.
    { f_equal. unfold requested, legacy_requests, legacy_sources. simpl.
      f_equal. now rewrite <- !app_assoc. }
    split; [reflexivity|]. split; [repeat constructor; assumption | reflexivity].
  - intros source. unfold cache_status.
    destruct (cache_files w !! cache_file source) as [file|].
    + destruct (Z.ltb_spec (clock w - fetched_at file) (cache_duration E)).
      * split; [intros _; exists file; split; [reflexivity | lia] | reflexivity].
      * split; [discriminate | intros (f & [= <-] & Hlt); lia].
    + split; [discriminate | intros (f & Hf & _); discriminate].
Qed.

(* ===================================================================== *)
(** ** The datasets of OFAC and the UN, and what the scan finds *)
(* ===================================================================== *)

Lemma select_rows_sublist (rs : list (list pyval)) :
  forall mask, sublist (select_rows rs mask) rs.
Proof.
  induction rs as [|r rest IH]; intros mask; simpl; [constructor|].
  destruct mask as [|b mask]; [apply sublist_nil_l|].
  destruct b; [apply sublist_skip | apply sublist_cons]; apply IH.
Qed.

(** X24: [_fetch_ofac_data] never raises and sends one request.  What it
    returns is the empty frame, or it has the columns of the parsed list
    and a selection of its rows in their order; a list without a column
    ['type'] is returned whole. *)
Theorem ofac_dataset_is_a_selection (E : Environment) (w : World) :
  exists df,
    _fetch_ofac_data E w = (Ok df, requested w (legacy_request ofac_sdn_url))
    /\ (df = empty_frame
        \/ exists body sdn_df,
             delivered E ofac_sdn_url = Some body
             /\ read_csv E body = Some sdn_df
             /\ columns df = columns sdn_df
             /\ sublist (rows df) (rows sdn_df)
             /\ (has_column sdn_df "type" = false -> df = sdn_df)).
Proof.
  rewrite fetch_ofac_run. eexists. split; [reflexivity|].
  unfold source_dataset. simpl String.eqb. cbv iota.
  destruct (delivered E ofac_sdn_url) as [body|]; simpl; [|now left].
  destruct (read_csv E body) as [sdn_df|] eqn:Hcsv; simpl; [|now left].
  destruct (has_column sdn_df "type") eqn:Hcol.
  - destruct (str_contains_vessel E _) as [mask|]; simpl; [|now left].
    right. exists body, sdn_df.
    split; [reflexivity|]. split; [exact Hcsv|]. split; [reflexivity|].
    split; [apply select_rows_sublist | intros H; congruence].
  - right. exists body, sdn_df.
    split; [reflexivity|]. split; [exact Hcsv|]. split; [reflexivity|].
    split; [reflexivity | reflexivity].
Qed.

Lemma omap_Forall {A B} (f : A -> option B) (Q : B -> Prop) (l : list A) :
  (forall x y, f x = Some y -> Q y) -> Forall Q (omap f l).
Proof.
  intros Hf. induction l as [|x rest IH]; simpl; [constructor|].
  destruct (f x) as [y|] eqn:Hx; [constructor; eauto | exact IH].
Qed.

Lemma un_rows_persons (root : xml) : Forall un_person_row (un_rows root).
Proof.
  unfold un_rows. apply omap_Forall. intros entity row.
  destruct (find_child entity "FIRST_NAME") as [name|]; [|discriminate].
  destruct (text_of name) as [text|]; [|discriminate].
  destruct (PyStr.is_empty text) eqn:He; [discriminate|].
  intros [= <-]. exists text. split; [now apply is_empty_false | reflexivity].
Qed.

(** X25: [_fetch_un_data] never raises and sends one request.  What it
    returns is the empty frame (also when the XML does not parse or names
    no individual), or a frame with the columns name, type and source
    whose rows are persons from the UN with a non-empty name. *)
Theorem un_dataset_rows_are_persons (E : Environment) (w : World) :
  exists df,
    _fetch_un_data E w = (Ok df, requested w (legacy_request un_url))
    /\ (df = empty_frame
        \/ (columns df = ["name"; "type"; "source"]
            /\ rows df <> []
            /\ Forall un_person_row (rows df))).
Proof.
  rewrite fetch_un_run. eexists. split; [reflexivity|].
  unfold source_dataset. simpl String.eqb. cbv iota.
  destruct (delivered E un_url) as [body|]; simpl; [|now left].
  destruct (xml_fromstring E body) as [root|]; simpl; [|now left].
  pose proof (un_rows_persons root) as Hrows. unfold un_frame.
  destruct (un_rows root) as [|row rest]; [now left|].
  right. repeat split; [discriminate | exact Hrows].
Qed.

Lemma scan_rows_member (E : Environment) (name ty source : string) (df : DataFrame)
    (t : Z) (cols : list string) (rs : list (list pyval)) (row : list pyval)
    (m : SanctionMatch) :
  sanction_source_url source <> None ->
  (forall r, r ∈ rs -> r ∈ rows df) ->
  row ∈ rs ->
  scan_row E name ty source df t row cols = Ok (Some m) ->
  exists ms, scan_rows E name ty source df t cols rs = Ok ms /\ m ∈ ms.
Proof.
  intros Hconf. induction rs as [|r rest IH]; intros Hrows Hin Hrow.
  - inversion Hin.
  - simpl.
    pose proof (scan_rows_records E name ty source df t cols rest
                  (fun x Hx => Hrows x ltac:(now apply elem_of_cons; right))) as Hrest.
    pose proof (scan_row_record E name ty source df t r cols
                  (Hrows r ltac:(now apply elem_of_cons; left))) as Hr.
    destruct (scan_rows E name ty source df t cols rest) as [ms|e];
      [|destruct Hrest as [_ Hnone]; contradiction].
    destruct (scan_row E name ty source df t r cols) as [found|e] eqn:Hfound;
      [|destruct Hr as [_ Hnone]; contradiction].
    apply elem_of_cons in Hin as [-> | Hin].
    + rewrite Hrow in Hfound. injection Hfound as <-.
      eexists. split; [reflexivity|]. apply elem_of_cons. now left.
    + destruct (IH (fun x Hx => Hrows x ltac:(now apply elem_of_cons; right)) Hin Hrow)
        as (ms' & [= <-] & Hm).
      eexists. split; [reflexivity|].
      destruct found; [apply elem_of_cons; now right | exact Hm].
Qed.

(** X26: the legacy scan finds a name that stands in the dataset.  For a
    configured source, a row whose first searched column holds a text with
    the same normalised form as the queried name gives an exact record
    with confidence 1, which the scan returns. *)
Theorem legacy_scan_finds_exact_name (E : Environment) (name ty source : string)
    (df : DataFrame) (w : World) (row : list pyval) (col : string)
    (more : list string) (text : string) :
  sanction_source_url source <> None ->
  available_columns ty df = col :: more ->
  row ∈ rows df ->
  cell (columns df) row col = PStr text ->
  _normalize_text text = _normalize_text name ->
  exists ms m,
    _search_entity E name ty df source w = (Ok ms, w)
    /\ m ∈ ms
    /\ match_type m = "exact" /\ confidence m = PNum 1
    /\ sanction_list m = source
    /\ details m = PDict (row_to_dict (columns df) row).
Proof.
  intros Hconf Hcols Hrow Hcell Hnorm.
  destruct (sanction_source_url source) as [url|] eqn:Hurl; [|contradiction].
  assert (Hscan : scan_row E name ty source df (clock w) row (col :: more)
                  = Ok (Some {| entity_name := name;
                                entity_type := ty;
                                sanction_list := source;
                                match_type := "exact";
                                confidence := PNum 1;
                                details := PDict (row_to_dict (columns df) row);
                                source_url := url;
                                last_updated := clock w |})).
  { simpl. rewrite Hcell. simpl. rewrite Hnorm, String.eqb_refl.
    unfold legacy_match. now rewrite Hurl. }
  destruct (scan_rows_member E name ty source df (clock w) (col :: more) (rows df)
              row _ ltac:(rewrite Hurl; discriminate) (fun r H => H) Hrow Hscan)
    as (ms & Hms & Hm).
  eexists ms, _. split; [|split; [exact Hm | repeat split]].
  unfold _search_entity. unfold_monad. simpl. now rewrite Hcols, Hms.
Qed.

Lemma legacy_scan_finds_exact_name_witness :
  exists ms m,
    _search_entity outage "Ever Given" "vessel" two_vessels "OFAC" Script.start
    = (Ok ms, Script.start)
    /\ m ∈ ms
    /\ match_type m = "exact" /\ confidence m = PNum 1
    /\ sanction_list m = "OFAC"
    /\ details m = PDict (row_to_dict (columns two_vessels)
                            [PStr "2"; PStr "EVER GIVEN!"]).
Proof.
  apply (legacy_scan_finds_exact_name outage "Ever Given" "vessel" "OFAC" two_vessels
           Script.start [PStr "2"; PStr "EVER GIVEN!"] "name" [] "EVER GIVEN!").
  - discriminate.
  - reflexivity.
  - apply elem_of_cons. right. apply elem_of_cons. now left.
  - reflexivity.
  - reflexivity.
Defined.
